(** * DevLog: a shallow embedding of the journal tool and its specification

    The development follows the layout of the repository.

    - [Py] models the Python built-ins the sources rely on ([str.strip],
      [str.split], [str.lower], slicing, [str.join], set membership).
    - [Json] models [json.dumps] / [json.loads] on lists of strings, the
      only JSON the store serialises (the tag list of a learning).
    - [Db] models [src/db.py]: the two SQLite tables and the queries.
    - [Collector] models [src/collector.py]: the validity filter and the
      backward history reader.
    - [Env] models [src/env.py]: the [.env] parser and the lookup order.
    - [Ai] models [src/ai.py]: the lookup of the API key, the noise
      filter, the fallback renderer and the summariser with its single
      network call.
    - [Cli] models [handle_learn] of [devlog.py].
    - [GithubSync] models [src/github_sync.py]: the daily pipeline as a
      trace of effects.
    - [Utils] models the word wrap of [print_box] in [src/utils.py].
    - [CliQuiz] models [handle_quiz] of [devlog.py].

    Modelling conventions.

    - A Python [str] is a [string]: a sequence of code points below 256.
      [Py.isspace], [Py.lower_char] and [Py.isword] are exact on that range.
    - An instant is an integer number of milliseconds since the epoch.
      SQLite's [CURRENT_TIMESTAMP] has a resolution of one second and
      [julianday('now')] of one millisecond; [julianday] differences are
      compared as exact day counts.
    - Rows of a table are kept in rowid order; [ORDER BY] is a stable sort.
    - What the outside world answers (shell history bytes, git exit codes,
      the HTTP reply, the clock) is read from explicit records.
    - A function of the store is modelled on a database file that SQLite
      can open, read and write.  Where SQLite or [sqlite3] refuses a
      statement for its arguments the model raises: [OverflowError] for
      an integer beyond 64 bits, [OperationalError] for more variables
      than the library takes.  Whether the [INSERT] of [handle_learn]
      fails, whether a [.env] file decodes, whether the lookups of the
      remote URL answer and whether git can be started is read from the
      outside world as well.  Writing to the terminal succeeds. *)

From Stdlib Require Import List Bool Arith ZArith NArith Lia.
From Stdlib Require Import Ascii String.
From Stdlib Require Import Sorting.Sorted Sorting.Permutation.
From Stdlib Require Import DecimalString.
Import ListNotations.

Local Open Scope string_scope.
Local Open Scope list_scope.

(* ================================================================== *)
(** * Python built-ins *)
(* ================================================================== *)

Module Py.

Definition code (c : ascii) : N := N_of_ascii c.

Definition in_range (lo hi : N) (c : ascii) : bool :=
  ((lo <=? code c) && (code c <=? hi))%N.

(** [str.isspace] on one code point below 256: TAB..CR, FS..US, space,
    NEL (0x85) and NBSP (0xA0). *)
Definition isspace (c : ascii) : bool :=
  in_range 9 13 c || in_range 28 32 c
  || (code c =? 133)%N || (code c =? 160)%N.

(** [str.lower] on one code point below 256. *)
Definition lower_char (c : ascii) : ascii :=
  if in_range 65 90 c
     || (in_range 192 222 c && negb (code c =? 215)%N)
  then ascii_of_N (code c + 32)
  else c.

(** The class [\w] of [re] on [str] patterns: alphanumerics and [_]. *)
Definition isword (c : ascii) : bool :=
  in_range 48 57 c || in_range 65 90 c || in_range 97 122 c
  || (code c =? 95)%N
  || (code c =? 170)%N || (code c =? 178)%N || (code c =? 179)%N
  || (code c =? 181)%N || (code c =? 185)%N || (code c =? 186)%N
  || in_range 188 190 c
  || in_range 192 214 c || in_range 216 246 c || in_range 248 255 c.

Definition chars (s : string) : list ascii := list_ascii_of_string s.
Definition str (l : list ascii) : string := string_of_list_ascii l.

Fixpoint lstrip_chars (l : list ascii) : list ascii :=
  match l with
  | [] => []
  | c :: r => if isspace c then lstrip_chars r else l
  end.

Definition rstrip_chars (l : list ascii) : list ascii :=
  rev (lstrip_chars (rev l)).

Definition strip_chars (l : list ascii) : list ascii :=
  rstrip_chars (lstrip_chars l).

(** [s.strip()] *)
Definition strip (s : string) : string := str (strip_chars (chars s)).

(** [s.split()]: the maximal runs of non-blank characters.  [cur] holds
    the run being read, last character first. *)
Fixpoint split_chars (cur : list ascii) (l : list ascii) : list (list ascii) :=
  match l with
  | [] => match cur with [] => [] | _ => [rev cur] end
  | c :: r =>
      if isspace c
      then match cur with
           | [] => split_chars [] r
           | _ => rev cur :: split_chars [] r
           end
      else split_chars (c :: cur) r
  end.

Definition split (s : string) : list string :=
  map str (split_chars [] (chars s)).

(** [s.split(sep)] for a one-character separator: never empty. *)
Fixpoint split_on_chars (sep : ascii) (cur : list ascii) (l : list ascii)
  : list (list ascii) :=
  match l with
  | [] => [rev cur]
  | c :: r =>
      if Ascii.eqb c sep
      then rev cur :: split_on_chars sep [] r
      else split_on_chars sep (c :: cur) r
  end.

Definition split_on (sep : ascii) (s : string) : list string :=
  map str (split_on_chars sep [] (chars s)).

(** [s.lower()] *)
Definition lower (s : string) : string := str (map lower_char (chars s)).

(** [sep.join(l)] *)
Fixpoint join (sep : string) (l : list string) : string :=
  match l with
  | [] => ""
  | [s] => s
  | s :: r => s ++ sep ++ join sep r
  end.

(** [s in set] for a set literal of strings *)
Definition str_in (s : string) (set : list string) : bool :=
  existsb (String.eqb s) set.

(** Truth value of a [str]: non-empty. *)
Definition truthy (s : string) : bool := negb (s =? "").

(** [l[-n:]] for [n > 0] *)
Definition last_n {A} (n : nat) (l : list A) : list A :=
  skipn (List.length l - n) l.

(** [str(n)] for an [int] *)
Definition str_of_Z (n : Z) : string := NilZero.string_of_int (Z.to_int n).

(** [f"{n:02d}"] for [0 <= n] *)
Definition pad2 (n : Z) : string :=
  if (n <? 10)%Z then "0" ++ str_of_Z n else str_of_Z n.

Definition newline : string := String (ascii_of_nat 10) "".
Definition dquote : ascii := ascii_of_nat 34.
Definition backslash : ascii := ascii_of_nat 92.

(** [needle in s] for strings *)
Fixpoint prefix_chars (p l : list ascii) : bool :=
  match p, l with
  | [], _ => true
  | a :: p', b :: l' => Ascii.eqb a b && prefix_chars p' l'
  | _ :: _, [] => false
  end.

Fixpoint contains_chars (p l : list ascii) : bool :=
  prefix_chars p l
  || match l with [] => false | _ :: r => contains_chars p r end.

Definition contains (needle s : string) : bool :=
  contains_chars (chars needle) (chars s).

Definition startswith (p s : string) : bool :=
  prefix_chars (chars p) (chars s).

(** Auxiliary notions for the proofs about [strip] and [split]. *)
Definition nonspace (c : ascii) : bool := negb (isspace c).

Definition flush (cur : list ascii) : list (list ascii) :=
  match cur with [] => [] | _ => [rev cur] end.

(** [s.splitlines()]: the line boundaries below 256 are LF, VT, FF, CR,
    CR LF, FS, GS, RS and NEL. *)
Definition is_linebreak (c : ascii) : bool :=
  in_range 10 13 c || in_range 28 30 c || (code c =? 133)%N.

Fixpoint splitlines_chars (cur : list ascii) (l : list ascii)
  : list (list ascii) :=
  match l with
  | [] => match cur with [] => [] | _ => [rev cur] end
  | c :: r =>
      if is_linebreak c
      then rev cur ::
           match r with
           | d :: r' =>
               if (code c =? 13)%N && (code d =? 10)%N
               then splitlines_chars [] r'
               else splitlines_chars [] r
           | [] => splitlines_chars [] r
           end
      else splitlines_chars (c :: cur) r
  end.

Definition splitlines (s : string) : list string :=
  map str (splitlines_chars [] (chars s)).

(** ** Exceptions

    The exceptions the modelled code can meet; all derive from
    [Exception]. *)
Inductive exn : Type :=
| KeyError
| IndexError
| TypeError
| JSONDecodeError
| UnicodeDecodeError
| URLError
| HTTPError (status : Z)
| SocketTimeout
| CalledProcessError (returncode : Z)
| OverflowError
| OperationalError
| FileNotFoundError
| AttributeError.

Inductive result (A : Type) : Type :=
| Ok (a : A)
| Raise (e : exn).
Arguments Ok {A} a.
Arguments Raise {A} e.

Definition bind {A B} (m : result A) (k : A -> result B) : result B :=
  match m with
  | Ok a => k a
  | Raise e => Raise e
  end.

(** [try: body  except Exception as e: handler(e)] *)
Definition try_except {A} (body : result A) (handler : exn -> result A)
  : result A :=
  match body with
  | Ok a => Ok a
  | Raise e => handler e
  end.

End Py.

(* ================================================================== *)
(** * [json.dumps] and [json.loads] on lists of strings *)
(* ================================================================== *)

Module Json.
Import Py.

(** One lowercase hexadecimal digit, as [format(n, 'x')] prints it. *)
Definition hexdigit (n : N) : ascii :=
  if (n <? 10)%N then ascii_of_N (48 + n) else ascii_of_N (87 + n).

(** [ESCAPE_DCT] followed by the [\uXXXX] rule of
    [encode_basestring_ascii] ([ensure_ascii] is on by default). *)
Definition escape_char (c : ascii) : list ascii :=
  if Ascii.eqb c dquote then [backslash; dquote]
  else if Ascii.eqb c backslash then [backslash; backslash]
  else if (code c =? 8)%N then [backslash; "b"%char]
  else if (code c =? 12)%N then [backslash; "f"%char]
  else if (code c =? 10)%N then [backslash; "n"%char]
  else if (code c =? 13)%N then [backslash; "r"%char]
  else if (code c =? 9)%N then [backslash; "t"%char]
  else if in_range 32 126 c then [c]
  else [backslash; "u"%char; "0"%char; "0"%char;
        hexdigit (code c / 16); hexdigit (code c mod 16)].

Definition encode_basestring_ascii (s : string) : list ascii :=
  dquote :: flat_map escape_char (chars s) ++ [dquote].

Fixpoint dumps_items (l : list string) : list ascii :=
  match l with
  | [] => []
  | [s] => encode_basestring_ascii s
  | s :: r => encode_basestring_ascii s ++ chars ", " ++ dumps_items r
  end.

(** [json.dumps(tags)] for a list of [str] *)
Definition dumps (l : list string) : string :=
  str ("["%char :: dumps_items l ++ ["]"%char]).

(** The decoder, as the scanner it is: one state per place in the
    grammar of an array of strings. *)
Inductive pstate : Type :=
| PStart                                   (* nothing read *)
| POpen                                    (* after the bracket *)
| PStr (acc : list ascii)                  (* inside a string *)
| PEsc (acc : list ascii)                  (* after a backslash *)
| PUni (acc : list ascii) (k : nat) (v : N) (* [k] hex digits read *)
| PAfterStr                                (* after a closing quote *)
| PAfterComma
| PEnd.                                    (* after the closing bracket *)

Definition json_ws (c : ascii) : bool :=
  (code c =? 32)%N || (code c =? 9)%N || (code c =? 10)%N || (code c =? 13)%N.

Definition hexval (c : ascii) : option N :=
  if in_range 48 57 c then Some (code c - 48)%N
  else if in_range 97 102 c then Some (code c - 87)%N
  else if in_range 65 70 c then Some (code c - 55)%N
  else None.

(** [BACKSLASH] of [json.decoder] *)
Definition unescape (c : ascii) : option ascii :=
  if Ascii.eqb c dquote then Some dquote
  else if Ascii.eqb c backslash then Some backslash
  else if Ascii.eqb c "/"%char then Some "/"%char
  else if Ascii.eqb c "b"%char then Some (ascii_of_N 8)
  else if Ascii.eqb c "f"%char then Some (ascii_of_N 12)
  else if Ascii.eqb c "n"%char then Some (ascii_of_N 10)
  else if Ascii.eqb c "r"%char then Some (ascii_of_N 13)
  else if Ascii.eqb c "t"%char then Some (ascii_of_N 9)
  else None.

(** One character of input.  [done] holds the strings read so far, last
    one first.  [None] is a [JSONDecodeError] (or a code point the
    string model does not hold). *)
Definition step (st : list string * pstate) (c : ascii)
  : option (list string * pstate) :=
  let (done, p) := st in
  match p with
  | PStart =>
      if json_ws c then Some (done, PStart)
      else if Ascii.eqb c "["%char then Some (done, POpen)
      else None
  | POpen =>
      if json_ws c then Some (done, POpen)
      else if Ascii.eqb c dquote then Some (done, PStr [])
      else if Ascii.eqb c "]"%char then Some (done, PEnd)
      else None
  | PStr acc =>
      if Ascii.eqb c dquote then Some (str (rev acc) :: done, PAfterStr)
      else if Ascii.eqb c backslash then Some (done, PEsc acc)
      else if (code c <? 32)%N then None
      else Some (done, PStr (c :: acc))
  | PEsc acc =>
      if Ascii.eqb c "u"%char then Some (done, PUni acc 0 0%N)
      else match unescape c with
           | Some d => Some (done, PStr (d :: acc))
           | None => None
           end
  | PUni acc k v =>
      match hexval c with
      | None => None
      | Some d =>
          let v' := (v * 16 + d)%N in
          if Nat.eqb k 3
          then if (v' <? 256)%N
               then Some (done, PStr (ascii_of_N v' :: acc))
               else None
          else Some (done, PUni acc (S k) v')
      end
  | PAfterStr =>
      if json_ws c then Some (done, PAfterStr)
      else if Ascii.eqb c ","%char then Some (done, PAfterComma)
      else if Ascii.eqb c "]"%char then Some (done, PEnd)
      else None
  | PAfterComma =>
      if json_ws c then Some (done, PAfterComma)
      else if Ascii.eqb c dquote then Some (done, PStr [])
      else None
  | PEnd =>
      if json_ws c then Some (done, PEnd) else None
  end.

Fixpoint run (st : list string * pstate) (l : list ascii)
  : option (list string * pstate) :=
  match l with
  | [] => Some st
  | c :: r => match step st c with
              | Some st' => run st' r
              | None => None
              end
  end.

(** [json.loads(text)] when [text] is an array of strings *)
Definition loads (s : string) : option (list string) :=
  match run ([], PStart) (chars s) with
  | Some (done, PEnd) => Some (rev done)
  | _ => None
  end.

(** The two states in which a string may start. *)
Definition expects_string (p : pstate) : Prop := p = POpen \/ p = PAfterComma.

End Json.

(* ================================================================== *)
(** * The local store ([src/db.py]) *)
(* ================================================================== *)

Module Db.

Local Open Scope Z_scope.

Definition ms_per_day : Z := 86400000.

(** [CURRENT_TIMESTAMP] read at the instant [now]: SQLite renders it as
    [YYYY-MM-DD HH:MM:SS], so the milliseconds are dropped. *)
Definition CURRENT_TIMESTAMP (now : Z) : Z := 1000 * (now / 1000).

(** [julianday('now') - julianday(t) > d] and [... <= d], for [d] days.
    SQLite keeps an instant as a whole number of milliseconds and divides
    by 86400000 in double precision; for instants whose Julian day lies
    between 2^21 and 2^22 (the years 1030 to 6770) the rounding is below
    a twentieth of a millisecond and moves with a shift by whole days, so
    the comparison of the doubles is the comparison of the milliseconds. *)
Definition older_than (now t d : Z) : bool := now - t >? d * ms_per_day.
Definition within (now t d : Z) : bool := now - t <=? d * ms_per_day.

Record learning : Type := Learning {
  l_id : Z;
  l_content : string;
  l_timestamp : Z;
  l_tags : string;
  l_last_reviewed : Z;
  l_review_count : Z
}.

Record command : Type := Command {
  c_id : Z;
  c_source : string;
  c_command : string;
  c_timestamp : Z;
  c_processed : bool
}.

(** The database file: both tables in rowid order, and for each the
    largest rowid handed out so far ([AUTOINCREMENT]). *)
Record store : Type := Store {
  learnings : list learning;
  learnings_seq : Z;
  commands : list command;
  commands_seq : Z
}.

Definition empty_store : store := Store [] 0 [] 0.

(** [init_db]: [CREATE TABLE IF NOT EXISTS] twice.  [None] is a database
    file that does not exist yet. *)
Definition init_db (db : option store) : store :=
  match db with
  | Some st => st
  | None => empty_store
  end.

(** A stable insertion sort, the model of [ORDER BY]. [before x y] says
    that [x] may stand before [y]. *)
Fixpoint insert_by {A} (before : A -> A -> bool) (x : A) (l : list A) : list A :=
  match l with
  | [] => [x]
  | y :: r => if before x y then x :: l else y :: insert_by before x r
  end.

Fixpoint sort_by {A} (before : A -> A -> bool) (l : list A) : list A :=
  match l with
  | [] => []
  | x :: r => insert_by before x (sort_by before r)
  end.

Definition asc {A} (key : A -> Z) (x y : A) : bool := key x <=? key y.
Definition desc {A} (key : A -> Z) (x y : A) : bool := key y <=? key x.

(** [add_learning(content, tags=None)] run at the instant [now], when
    its [INSERT] runs: the rowid it returns and the store it leaves.
    What [handle_learn] does when SQLite raises instead is in [Cli]. *)
Definition add_learning (now : Z) (content : string)
           (tags : option (list string)) (st : store) : Z * store :=
  let tags := match tags with Some l => l | None => [] end in
  let row_id := learnings_seq st + 1 in
  let row := Learning row_id content (CURRENT_TIMESTAMP now)
                      (Json.dumps tags) (CURRENT_TIMESTAMP now) 0 in
  (row_id,
   Store (learnings st ++ [row]) row_id (commands st) (commands_seq st)).

(** [get_due_flashcard()] *)
Definition get_due_flashcard (now : Z) (st : store) : option learning :=
  hd_error
    (sort_by (asc l_last_reviewed)
       (filter (fun l => older_than now (l_last_reviewed l) 3)
               (learnings st))).

(** What [UPDATE learnings SET last_reviewed = CURRENT_TIMESTAMP,
    review_count = review_count + 1 WHERE id = ?] does to one row. *)
Definition reviewed (now : Z) (learning_id : Z) (l : learning) : learning :=
  if l_id l =? learning_id
  then Learning (l_id l) (l_content l) (l_timestamp l) (l_tags l)
                (CURRENT_TIMESTAMP now) (l_review_count l + 1)
  else l.

(** [mark_flashcard_reviewed(learning_id)] *)
Definition mark_flashcard_reviewed (now : Z) (learning_id : Z) (st : store)
  : store :=
  Store (map (reviewed now learning_id) (learnings st))
        (learnings_seq st) (commands st) (commands_seq st).

(** An [int] that SQLite can take as a parameter: 64 bits, signed.  The
    [sqlite3] module raises [OverflowError] for any other. *)
Definition int64 (n : Z) : bool := (- 2 ^ 63 <=? n) && (n <? 2 ^ 63).

(** The rows [get_learnings_since] selects, for a [days] that SQLite
    takes. *)
Definition learnings_since (now : Z) (days : Z) (st : store)
  : list learning :=
  sort_by (desc l_timestamp)
    (filter (fun l => within now (l_timestamp l) days) (learnings st)).

(** [get_learnings_since(days)] for an [int] *)
Definition get_learnings_since (now : Z) (days : Z) (st : store)
  : Py.result (list learning) :=
  if int64 days then Py.Ok (learnings_since now days st)
  else Py.Raise Py.OverflowError.

(** The row [SELECT id FROM commands WHERE command = ? AND processed = 0]
    looks for. *)
Definition is_unprocessed_copy (cmd : string) (r : command) : bool :=
  (c_command r =? cmd)%string && negb (c_processed r).

(** [store_raw_command(source, command)] *)
Definition store_raw_command (now : Z) (source cmd : string) (st : store)
  : store :=
  if existsb (is_unprocessed_copy cmd) (commands st)
  then st
  else
    let row_id := commands_seq st + 1 in
    Store (learnings st) (learnings_seq st)
          (commands st ++ [Command row_id source cmd (CURRENT_TIMESTAMP now) false])
          row_id.

(** [get_unprocessed_commands()] *)
Definition get_unprocessed_commands (st : store) : list command :=
  sort_by (asc c_timestamp)
    (filter (fun r => negb (c_processed r)) (commands st)).

Definition mem_Z (x : Z) (l : list Z) : bool := existsb (Z.eqb x) l.

(** What [UPDATE commands SET processed = 1 WHERE id IN (...)] does to
    one row. *)
Definition processed (command_ids : list Z) (r : command) : command :=
  if mem_Z (c_id r) command_ids
  then Command (c_id r) (c_source r) (c_command r) (c_timestamp r) true
  else r.

(** [UPDATE commands SET processed = 1 WHERE id IN (...)] run with the
    identifiers [command_ids]; nothing is run for the empty list. *)
Definition update_processed (command_ids : list Z) (st : store) : store :=
  match command_ids with
  | [] => st
  | _ =>
      Store (learnings st) (learnings_seq st)
            (map (processed command_ids) (commands st))
            (commands_seq st)
  end.

(** [mark_commands_processed(command_ids)].  The statement holds one [?]
    for each identifier: SQLite refuses it with [OperationalError] ("too
    many SQL variables") when there are more than
    [SQLITE_LIMIT_VARIABLE_NUMBER] of them, a number fixed when the
    library is built (999, 32766, 250000 are in use); [sqlite3] refuses
    an identifier beyond 64 bits with [OverflowError].  Nothing is marked
    then.  (The text of the statement grows by two bytes with each
    identifier; with the limits named here it stays far below the length
    SQLite accepts for a statement.) *)
Definition mark_commands_processed (SQLITE_LIMIT_VARIABLE_NUMBER : Z)
           (command_ids : list Z) (st : store) : Py.result store :=
  match command_ids with
  | [] => Py.Ok st
  | _ =>
      if SQLITE_LIMIT_VARIABLE_NUMBER <? Z.of_nat (List.length command_ids)
      then Py.Raise Py.OperationalError
      else if forallb int64 command_ids
           then Py.Ok (update_processed command_ids st)
           else Py.Raise Py.OverflowError
  end.

(** The states the store can be in: a fresh database, then any sequence
    of the writing operations that return, at any instants. *)
Inductive reachable : store -> Prop :=
| reach_init : reachable empty_store
| reach_add_learning now content tags st :
    reachable st -> reachable (snd (add_learning now content tags st))
| reach_mark_flashcard_reviewed now learning_id st :
    reachable st -> reachable (mark_flashcard_reviewed now learning_id st)
| reach_store_raw_command now source cmd st :
    reachable st -> reachable (store_raw_command now source cmd st)
| reach_mark_commands_processed limit ids st st' :
    reachable st -> mark_commands_processed limit ids st = Py.Ok st' ->
    reachable st'.

(** The unprocessed rows holding the text [cmd]. *)
Definition unprocessed_copies (cmd : string) (st : store) : list command :=
  filter (is_unprocessed_copy cmd) (commands st).

(** The command texts of the unprocessed rows, in rowid order. *)
Definition unprocessed_texts (st : store) : list string :=
  map c_command (filter (fun r => negb (c_processed r)) (commands st)).

(** Every rowid of the commands table was handed out by the counter. *)
Definition ids_bounded (st : store) : Prop :=
  forall r, In r (commands st) -> c_id r <= commands_seq st.

(** The invariant of the commands table. *)
Definition commands_inv (st : store) : Prop :=
  NoDup (unprocessed_texts st) /\ ids_bounded st.

(** The rows [get_due_flashcard] chooses from. *)
Definition due (now : Z) (st : store) : list learning :=
  filter (fun l => older_than now (l_last_reviewed l) 3) (learnings st).

(** ** The search and the history queries *)

(** SQLite's [LIKE] reads both operands as C strings: up to the first NUL. *)
Fixpoint c_string (l : list ascii) : list ascii :=
  match l with
  | [] => []
  | c :: r => if (Py.code c =? 0)%N then [] else c :: c_string r
  end.

(** [LIKE] folds the case of the ASCII letters only. *)
Definition like_fold (c : ascii) : ascii :=
  if Py.in_range 65 90 c then ascii_of_N (Py.code c + 32) else c.

Definition like_eq (p c : ascii) : bool :=
  Ascii.eqb (like_fold p) (like_fold c).

Definition percent : ascii := "%"%char.
Definition underscore : ascii := "_"%char.

(** [f] holds of some suffix of [t]. *)
Fixpoint like_any (f : list ascii -> bool) (t : list ascii) : bool :=
  f t || match t with [] => false | _ :: r => like_any f r end.

(** [t LIKE p]: [%] stands for any run of characters, [_] for any one
    character. *)
Fixpoint like (p t : list ascii) {struct p} : bool :=
  match p with
  | [] => match t with [] => true | _ => false end
  | c :: p' =>
      if Ascii.eqb c percent then like_any (like p') t
      else match t with
           | [] => false
           | d :: t' =>
               (if Ascii.eqb c underscore then true else like_eq c d)
               && like p' t'
           end
  end.

(** [content LIKE '%keyword%'] *)
Definition matches_keyword (keyword : string) (l : learning) : bool :=
  like (c_string (percent :: Py.chars keyword ++ [percent]))
       (c_string (Py.chars (l_content l))).

(** The bytes of the UTF-8 encoding of a code point below 256, and of a
    text. *)
Definition utf8_width (c : ascii) : Z :=
  if (Py.code c <? 128)%N then 1 else 2.

Definition utf8_length (l : list ascii) : Z :=
  fold_right (fun c n => utf8_width c + n) 0 l.

(** [SQLITE_MAX_LIKE_PATTERN_LENGTH], in bytes. *)
Definition like_pattern_limit : Z := 50000.

(** [LIKE] refuses a longer pattern when it comes to the first row. *)
Definition pattern_too_long (keyword : string) : bool :=
  like_pattern_limit
  <? utf8_length (percent :: Py.chars keyword ++ [percent]).

(** [search_learnings(keyword)].  [None] is the [sqlite3.OperationalError]
    ("LIKE or GLOB pattern too complex") of a pattern beyond the limit,
    raised when there is a row to compare. *)
Definition search_learnings (keyword : string) (st : store)
  : option (list learning) :=
  match learnings st with
  | _ :: _ =>
      if pattern_too_long keyword then None
      else Some (sort_by (desc l_timestamp)
                   (filter (matches_keyword keyword) (learnings st)))
  | [] => Some []
  end.

(** The text [needle] stands in [t], the case of ASCII letters ignored. *)
Fixpoint prefix_nocase (needle t : list ascii) : bool :=
  match needle, t with
  | [], _ => true
  | a :: n', b :: t' => like_eq a b && prefix_nocase n' t'
  | _ :: _, [] => false
  end.

Fixpoint contains_nocase (needle t : list ascii) : bool :=
  prefix_nocase needle t
  || match t with [] => false | _ :: r => contains_nocase needle r end.

(** A keyword without wildcard and without NUL. *)
Definition plain_char (c : ascii) : bool :=
  negb (Ascii.eqb c percent) && negb (Ascii.eqb c underscore)
  && negb (Py.code c =? 0)%N.

(** [date(t)] for an instant [t]: the civil date of its day, rendered as
    [YYYY-MM-DD] (years 0000 to 9999). *)
Definition day_number (t : Z) : Z := t / ms_per_day.

Definition civil_of_days (days : Z) : Z * Z * Z :=
  let z := days + 719468 in
  let era := z / 146097 in
  let doe := z - era * 146097 in
  let yoe := (doe - doe / 1460 + doe / 36524 - doe / 146096) / 365 in
  let doy := doe - (365 * yoe + yoe / 4 - yoe / 100) in
  let mp := (5 * doy + 2) / 153 in
  let d := doy - (153 * mp + 2) / 5 + 1 in
  let m := if mp <? 10 then mp + 3 else mp - 9 in
  let y := yoe + era * 400 + (if m <=? 2 then 1 else 0) in
  (y, m, d).

Definition pad4 (n : Z) : string :=
  ((if (n <? 1000)%Z then "0" else "")
     ++ (if (n <? 100)%Z then "0" else "")
     ++ (if (n <? 10)%Z then "0" else "") ++ Py.str_of_Z n)%string.

Definition date_of (t : Z) : string :=
  let '(y, m, d) := civil_of_days (day_number t) in
  (pad4 y ++ "-" ++ Py.pad2 m ++ "-" ++ Py.pad2 d)%string.

(** [SELECT DISTINCT]: the first occurrence of each text is kept. *)
Fixpoint distinct (l : list string) : list string :=
  match l with
  | [] => []
  | x :: r => x :: filter (fun y => negb (y =? x)%string) (distinct r)
  end.

Definition text_desc (x y : string) : bool := String.leb y x.

(** [get_all_logged_dates()] *)
Definition get_all_logged_dates (st : store) : list string :=
  sort_by text_desc
    (distinct (map (fun l => date_of (l_timestamp l)) (learnings st))).

(** [get_learnings_by_date(date_str)] *)
Definition get_learnings_by_date (date_str : string) (st : store)
  : list learning :=
  sort_by (asc l_timestamp)
    (filter (fun l => (date_of (l_timestamp l) =? date_str)%string)
            (learnings st)).

(** ** What the writing operations keep *)

(** The rowids [1 .. n]. *)
Definition rowids (n : nat) : list Z := map Z.of_nat (seq 1 n).

(** What is never rewritten in a learning and in a command. *)
Definition learning_facts (l : learning) : Z * string * Z * string :=
  (l_id l, l_content l, l_timestamp l, l_tags l).

Definition command_facts (r : command) : Z * string * string * Z :=
  (c_id r, c_source r, c_command r, c_timestamp r).

(** One writing operation, then any number of them. *)
Inductive write : store -> store -> Prop :=
| write_add_learning now content tags st :
    write st (snd (add_learning now content tags st))
| write_mark_flashcard_reviewed now learning_id st :
    write st (mark_flashcard_reviewed now learning_id st)
| write_store_raw_command now source cmd st :
    write st (store_raw_command now source cmd st)
| write_mark_commands_processed limit ids st st' :
    mark_commands_processed limit ids st = Py.Ok st' -> write st st'.

Inductive writes : store -> store -> Prop :=
| writes_refl st : writes st st
| writes_step st1 st2 st3 : writes st1 st2 -> write st2 st3 -> writes st1 st3.

(** The rows of [l'] continue the rows of [l]: row by row the same
    facts, with [keeps] relating the old and the new row. *)
Inductive continues {A B} (facts : A -> B) (keeps : A -> A -> Prop)
  : list A -> list A -> Prop :=
| continues_nil more : continues facts keeps [] more
| continues_cons x x' l l' :
    facts x = facts x' -> keeps x x' -> continues facts keeps l l' ->
    continues facts keeps (x :: l) (x' :: l').

(** A review count only grows; a processed command stays processed. *)
Definition review_grows (l l' : learning) : Prop :=
  l_review_count l <= l_review_count l'.

Definition stays_processed (r r' : command) : Prop :=
  c_processed r = true -> c_processed r' = true.

Definition grows (st st' : store) : Prop :=
  continues learning_facts review_grows (learnings st) (learnings st')
  /\ continues command_facts stays_processed (commands st) (commands st').

(** A store for examples: one command, collected and then processed. *)
Definition one_collected : store :=
  store_raw_command 1000 "zsh_history" "make test" empty_store.

Definition one_processed : store := update_processed [1] one_collected.

(** A store with a learning and two commands, and the store five
    operations later: the learning reviewed, the first command marked
    processed, its text stored once more. *)
Definition busy_store : store :=
  store_raw_command 2000 "git" "[devlog] fix the tail reader"
    (snd (add_learning 1500 "rebase before merge" None one_collected)).

Definition later_store : store :=
  store_raw_command 9000 "zsh_history" "make test"
    (update_processed [1] (mark_flashcard_reviewed 5000 1 busy_store)).

End Db.

(* ================================================================== *)
(** * The collector ([src/collector.py]) *)
(* ================================================================== *)

Module Collector.
Import Py.

(** ** [SENSITIVE_PATTERN]

    The pattern is an alternation of literals, two of them between word
    boundaries, compiled with [re.IGNORECASE]. *)

Record alternative : Type := Alt {
  left_boundary : bool;
  literal : string;
  right_boundary : bool
}.

Definition SENSITIVE_PATTERN : list alternative :=
  [ Alt false "password" false;
    Alt false "secret" false;
    Alt false "key" false;
    Alt false "token" false;
    Alt false "auth" false;
    Alt false "bearer" false;
    Alt false "credentials" false;
    Alt true "aws_access_key_id" true;
    Alt true "aws_secret_access_key" true ].

(** A literal character of the pattern against a character of the text,
    ignoring case. *)
Definition ci_eq (p c : ascii) : bool :=
  Ascii.eqb (lower_char p) (lower_char c).

Definition word_opt (c : option ascii) : bool :=
  match c with Some c => isword c | None => false end.

(** [\b] between the character [prev] and the text [rest]. *)
Definition boundary (prev : option ascii) (rest : list ascii) : bool :=
  xorb (word_opt prev) (word_opt (hd_error rest)).

(** Matches the literal at the head of [rest]; answers the character
    before the end of the match and the text after it. *)
Fixpoint match_literal (lit : list ascii) (prev : option ascii)
         (rest : list ascii) : option (option ascii * list ascii) :=
  match lit with
  | [] => Some (prev, rest)
  | p :: lit' =>
      match rest with
      | c :: rest' =>
          if ci_eq p c then match_literal lit' (Some c) rest' else None
      | [] => None
      end
  end.

Definition match_alternative (a : alternative) (prev : option ascii)
           (rest : list ascii) : bool :=
  implb (left_boundary a) (boundary prev rest)
  && match match_literal (chars (literal a)) prev rest with
     | Some (prev', rest') => implb (right_boundary a) (boundary prev' rest')
     | None => false
     end.

Fixpoint search_from (pattern : list alternative) (prev : option ascii)
         (rest : list ascii) : bool :=
  existsb (fun a => match_alternative a prev rest) pattern
  || match rest with
     | [] => false
     | c :: r => search_from pattern (Some c) r
     end.

(** [pattern.search(s)] as a truth value *)
Definition search (pattern : list alternative) (s : string) : bool :=
  search_from pattern None (chars s).

Definition NOISE_COMMANDS : list string :=
  [ "ls"; "ll"; "la"; "cd"; "clear"; "pwd"; "exit"; "history"; "grep";
    "cat"; "echo"; "top"; "htop" ].

(** [is_valid_command(cmd)].  Past the first test [cmd] is stripped and
    not empty, so [cmd.split()] has a first element. *)
Definition is_valid_command (cmd : string) : bool :=
  let cmd := strip cmd in
  if negb (truthy cmd) || (String.length cmd <? 3)%nat then false
  else
    let base_cmd := match split cmd with
                    | b :: _ => lower b
                    | [] => ""
                    end in
    if str_in base_cmd NOISE_COMMANDS && (List.length (split cmd) =? 1)%nat
    then false
    else if search SENSITIVE_PATTERN cmd then false
    else true.

(** The text after the first [sep], when there is one: the second part
    of [line.split(sep, 1)]. *)
Fixpoint after_first (sep : ascii) (l : list ascii) : option (list ascii) :=
  match l with
  | [] => None
  | c :: r => if Ascii.eqb c sep then Some r else after_first sep r
  end.

(** [clean_zsh_history_line(line)] *)
Definition clean_zsh_history_line (line : string) : string :=
  if startswith ": " line
  then match after_first ";"%char (chars line) with
       | Some rest => strip (str rest)
       | None => strip line
       end
  else strip line.

(** Auxiliary notions for the proofs about the pattern. *)
Definition ci (p c : ascii) : Prop := ci_eq p c = true.

(** The literals without word boundaries. *)
Definition keywords : list string :=
  [ "password"; "secret"; "key"; "token"; "auth"; "bearer"; "credentials" ].

(** The text holds one of the keywords, in any case. *)
Definition has_keyword (l : list ascii) : Prop :=
  exists k pre w post,
    In k keywords /\ l = pre ++ w ++ post /\ Forall2 ci (chars k) w.

(** The characters of the keywords are lower-case and not blank. *)
Definition plain (p : ascii) : bool :=
  Py.nonspace p && Ascii.eqb (lower_char p) p.

(** ** Reading the end of a history file *)

Definition newline_byte : Byte.byte := Byte.x0a.

(** [f.seek(pos); f.read(1)]: at most one byte. *)
Definition read_at (content : list Byte.byte) (pos : nat) : list Byte.byte :=
  firstn 1 (skipn pos content).

(** [new_byte == b'\n'] *)
Definition is_newline (new_byte : list Byte.byte) : bool :=
  match new_byte with
  | [b] => Byte.eqb b newline_byte
  | _ => false
  end.

Section Tail.
(** [bytes.decode('utf-8', errors='ignore')] *)
Variable decode : list Byte.byte -> string.

(** The [while] loop of [collect_shell_history].  [k] is
    [pointer_location + 1], so [k = 0] is [pointer_location < 0]. *)
Fixpoint tail_loop (content : list Byte.byte) (k : nat) (lines_to_read : Z)
         (buffer : list Byte.byte) (lines : list string)
  : list Byte.byte * list string :=
  match k with
  | O => (buffer, lines)
  | S pointer_location =>
      if (Z.of_nat (List.length lines) <? lines_to_read)%Z
      then
        let new_byte := read_at content pointer_location in
        if is_newline new_byte
        then tail_loop content pointer_location lines_to_read
                       [] (lines ++ [decode (rev buffer)])
        else tail_loop content pointer_location lines_to_read
                       (buffer ++ new_byte) lines
      else (buffer, lines)
  end.

(** [if buffer: lines.append(buffer[::-1].decode(...))] *)
Definition flush_buffer (r : list Byte.byte * list string) : list string :=
  match fst r with
  | [] => snd r
  | _ => snd r ++ [decode (rev (fst r))]
  end.

(** The list [lines] of [collect_shell_history] when its [for] loop
    starts. *)
Definition tail_lines (content : list Byte.byte) (lines_to_read : Z)
  : list string :=
  flush_buffer
    (tail_loop content (S (List.length content)) lines_to_read [] []).

(** The calls [db.store_raw_command(source, cmd)] that
    [collect_shell_history(shell_name, lines_to_read)] makes, in
    order.  [None] is a history file that does not exist. *)
Definition collect_shell_history (shell_name : string)
           (history_file : option (list Byte.byte)) (lines_to_read : Z)
  : list (string * string) :=
  match history_file with
  | None => []
  | Some content =>
      flat_map
        (fun line =>
           let line := strip line in
           if negb (truthy line) then []
           else
             let cmd := if (shell_name =? "zsh")%string
                        then clean_zsh_history_line line
                        else line in
             if is_valid_command cmd
             then [((shell_name ++ "_history")%string, cmd)]
             else [])
        (tail_lines content lines_to_read)
  end.
End Tail.

(** The calls [collect_git_logs] makes, given for each tracked
    repository its name and the standard output of [git log]; [None] is
    a repository that is missing or whose [git log] failed. *)
Definition collect_git_logs (repos : list (string * option string))
  : list (string * string) :=
  flat_map
    (fun repo =>
       match snd repo with
       | None => []
       | Some stdout =>
           if truthy stdout
           then flat_map
                  (fun commit =>
                     let commit := strip commit in
                     if is_valid_command commit
                     then [(("git:" ++ fst repo)%string,
                            ("git commit: " ++ commit)%string)]
                     else [])
                  (split_on (ascii_of_nat 10) (strip stdout))
           else []
       end)
    repos.

(** A decoder for examples: on ASCII bytes UTF-8 decoding is the
    identity, and other bytes are dropped here. *)
Definition decode_ascii (bs : list Byte.byte) : string :=
  str (map ascii_of_byte
           (filter (fun b => (Byte.to_N b <? 128)%N) bs)).

Definition bytes_of (s : string) : list Byte.byte :=
  map byte_of_ascii (chars s).

(** [content.split(b'\n')]: the runs of bytes between newline bytes. *)
Fixpoint segments (content : list Byte.byte) : list (list Byte.byte) :=
  match content with
  | [] => [[]]
  | b :: r =>
      if Byte.eqb b newline_byte
      then [] :: segments r
      else match segments r with
           | s :: t => (b :: s) :: t
           | [] => [[b]]
           end
  end.

Definition drop_empty_first (l : list (list Byte.byte))
  : list (list Byte.byte) :=
  match l with
  | [] :: r => r
  | _ => l
  end.

Definition not_newline (b : Byte.byte) : bool :=
  negb (Byte.eqb b newline_byte).

(** What the lines still to come look like when the reader stands
    before byte [k] of [content] with [buffer] in hand. *)
Definition pending (content : list Byte.byte) (k : nat)
           (buffer : list Byte.byte) : list (list Byte.byte) :=
  rev (drop_empty_first (segments (firstn k content ++ rev buffer))).

(** How many lines the reader may still append. *)
Definition room (lines_to_read : Z) (lines : list string) : nat :=
  Z.to_nat (lines_to_read - Z.of_nat (List.length lines)).

(** Not the separator of the extended zsh history format. *)
Definition no_semicolon (c : ascii) : bool := negb (Ascii.eqb c ";"%char).

(** A call [db.store_raw_command(source, cmd)] with a command that went
    through the filter. *)
Definition clean_call (source : string) (call : string * string) : Prop :=
  fst call = source
  /\ is_valid_command (snd call) = true
  /\ strip (snd call) = snd call
  /\ search SENSITIVE_PATTERN (snd call) = false
  /\ (3 <= String.length (snd call))%nat.

End Collector.

(** The words of the specification about the history reader: "the last N
    lines of the file", most recent line first. *)
Module TailSpec.

(** The lines of a file: a newline byte ends a line, and the bytes after
    the last newline byte, when there are any, are the last line. *)
Fixpoint file_lines (content : list Byte.byte) : list (list Byte.byte) :=
  match content with
  | [] => []
  | b :: r =>
      if Byte.eqb b Collector.newline_byte
      then [] :: file_lines r
      else match file_lines r with
           | s :: t => (b :: s) :: t
           | [] => [[b]]
           end
  end.

Definition last_lines_reversed (n : Z) (content : list Byte.byte)
  : list (list Byte.byte) :=
  firstn (Z.to_nat n) (rev (file_lines content)).

Fixpoint ends_with_newline (content : list Byte.byte) : bool :=
  match content with
  | [] => false
  | [b] => Byte.eqb b Collector.newline_byte
  | _ :: r => ends_with_newline r
  end.

Definition starts_with_newline (content : list Byte.byte) : bool :=
  match content with
  | b :: _ => Byte.eqb b Collector.newline_byte
  | [] => false
  end.

End TailSpec.

(* ================================================================== *)
(** * The [.env] loader ([src/env.py]) *)
(* ================================================================== *)

Module Env.
Import Py.

Definition lf : ascii := ascii_of_nat 10.
Definition cr : ascii := ascii_of_nat 13.
Definition apostrophe : ascii := ascii_of_nat 39.
Definition equals_sign : ascii := "="%char.
Definition hash : ascii := "#"%char.

(** A file opened in text mode: CR LF and a lone CR are read as LF.
    [after_cr] says that the character before was a CR. *)
Fixpoint universal_newlines (after_cr : bool) (l : list ascii) : list ascii :=
  match l with
  | [] => []
  | c :: r =>
      if Ascii.eqb c cr then lf :: universal_newlines true r
      else if Ascii.eqb c lf && after_cr then universal_newlines false r
      else c :: universal_newlines false r
  end.

(** [for line in f]: every line with its LF; what follows the last LF
    is a line when it is not empty. *)
Fixpoint lines_chars (l : list ascii) : list (list ascii) :=
  match l with
  | [] => []
  | c :: r =>
      if Ascii.eqb c lf then [c] :: lines_chars r
      else match lines_chars r with
           | [] => [[c]]
           | line :: t => (c :: line) :: t
           end
  end.

Definition readlines (text : string) : list string :=
  map str (lines_chars (universal_newlines false (chars text))).

(** [s.strip(ch)] for one character [ch] *)
Fixpoint lstrip_of (ch : ascii) (l : list ascii) : list ascii :=
  match l with
  | [] => []
  | c :: r => if Ascii.eqb c ch then lstrip_of ch r else l
  end.

Definition strip_of (ch : ascii) (s : string) : string :=
  str (rev (lstrip_of ch (rev (lstrip_of ch (chars s))))).

(** [s.partition(sep)]: what is before and what is after the first
    [sep]; all of [s] and nothing when there is none. *)
Fixpoint partition_chars (sep : ascii) (l : list ascii)
  : list ascii * list ascii :=
  match l with
  | [] => ([], [])
  | c :: r =>
      if Ascii.eqb c sep then ([], r)
      else let (before, after) := partition_chars sep r in
           (c :: before, after)
  end.

Definition partition (sep : ascii) (s : string) : string * string :=
  let (before, after) := partition_chars sep (chars s) in
  (str before, str after).

(** A [dict] of strings, in the order of the first assignments. *)
Definition dict : Type := list (string * string).

(** [d[key] = value] *)
Fixpoint dict_set (key value : string) (d : dict) : dict :=
  match d with
  | [] => [(key, value)]
  | (k, v) :: r =>
      if (k =? key)%string then (k, value) :: r
      else (k, v) :: dict_set key value r
  end.

Fixpoint dict_lookup (key : string) (d : dict) : option string :=
  match d with
  | [] => None
  | (k, v) :: r => if (k =? key)%string then Some v else dict_lookup key r
  end.

(** [d.get(key, default)] *)
Definition dict_get (key : string) (default : string) (d : dict) : string :=
  match dict_lookup key d with
  | Some v => v
  | None => default
  end.

(** The body of the loop of [_parse_env_file]. *)
Definition parse_line (result : dict) (line : string) : dict :=
  let line := strip line in
  if negb (truthy line) || startswith "#" line then result
  else if negb (existsb (Ascii.eqb equals_sign) (chars line)) then result
  else
    let (key, raw_value) := partition equals_sign line in
    let key := strip key in
    let value := strip_of apostrophe (strip_of dquote (strip raw_value)) in
    dict_set key value result.

(** [_parse_env_file(path)], given the text of the file *)
Definition _parse_env_file (text : string) : dict :=
  fold_left parse_line (readlines text) [].

(** What the loader sees of the machine: the environment variables and
    the two candidate files at the root of the repository.  [None] is a
    file that does not exist; [Some (Ok text)] a file that reads as the
    text [text]; [Some (Raise e)] a file that exists and cannot be read
    as UTF-8 text: [open] or the decoder raises [e]. *)
Record world : Type := World {
  environ : string -> option string;
  dot_env_local : option (result string);
  dot_env : option (result string)
}.

(** [_find_env_file()]: the first candidate that exists. *)
Definition _find_env_file (w : world) : option (result string) :=
  match dot_env_local w with
  | Some file => Some file
  | None => dot_env w
  end.

(** [load()], with the module-level [_cache] before and after.  When
    [_parse_env_file] raises, [_cache] is not assigned. *)
Definition load (w : world) (_cache : option dict)
  : result dict * option dict :=
  match _cache with
  | Some d => (Ok d, _cache)
  | None =>
      match _find_env_file w with
      | Some (Ok text) =>
          let d := _parse_env_file text in (Ok d, Some d)
      | Some (Raise e) => (Raise e, None)
      | None => (Ok [], Some [])
      end
  end.

(** [get(key, default)]: [os.environ.get(key) or load().get(key, default)] *)
Definition get (w : world) (_cache : option dict) (key default : string)
  : result string * option dict :=
  let from_environ := match environ w key with
                      | Some v => v
                      | None => ""
                      end in
  if truthy from_environ then (Ok from_environ, _cache)
  else match load w _cache with
       | (Ok d, _cache) => (Ok (dict_get key default d), _cache)
       | (Raise e, _cache) => (Raise e, _cache)
       end.

(** A character of a name or of a bare value. *)
Definition bare (c : ascii) : bool :=
  nonspace c && negb (Ascii.eqb c equals_sign)
  && negb (Ascii.eqb c dquote) && negb (Ascii.eqb c apostrophe).

(** The first character is not [ch]. *)
Definition not_first (ch : ascii) (s : string) : bool :=
  match s with
  | String c _ => negb (Ascii.eqb c ch)
  | EmptyString => true
  end.

(** The last character is not [ch]. *)
Fixpoint not_last (ch : ascii) (s : string) : bool :=
  match s with
  | EmptyString => true
  | String c EmptyString => negb (Ascii.eqb c ch)
  | String _ r => not_last ch r
  end.

(** What every entry of a parsed file looks like: the name has no
    blank at either end, holds no [=] and does not begin with [#]; the
    value neither begins nor ends with an apostrophe. *)
Definition well_formed_entry (kv : string * string) : Prop :=
  strip (fst kv) = fst kv
  /\ forallb (fun c => negb (Ascii.eqb c equals_sign)) (chars (fst kv)) = true
  /\ not_first hash (fst kv) = true
  /\ not_first apostrophe (snd kv) = true
  /\ not_last apostrophe (snd kv) = true.

(** A machine for examples. *)
Definition example_world : world :=
  World (fun _ => None)
        (Some (Ok ("# keys" ++ newline ++ "GITHUB_TOKEN=old" ++ newline
                     ++ "GITHUB_TOKEN=ghp_new")%string))
        (Some (Ok "GITHUB_TOKEN=other")).

(** A machine with no variable set and no [.env] file, and one whose
    [.env.local] is not UTF-8 text. *)
Definition bare_world : world := World (fun _ => None) None None.

Definition undecodable_world : world :=
  World (fun _ => None) (Some (Raise UnicodeDecodeError)) None.

End Env.

(* ================================================================== *)
(** * The summariser ([src/ai.py]) *)
(* ================================================================== *)

Module Ai.
Import Py.

Definition _NOISE_COMMANDS : list string :=
  [ "ls"; "ll"; "la"; "l"; "cd"; "pwd"; "clear"; "cls"; "exit"; "history";
    "cat"; "echo"; "man"; "whoami"; "date"; "which"; "type"; "alias";
    "git status"; "git log"; "git diff"; "git branch"; "git fetch";
    "kubectl get pods"; "kubectl get nodes"; "kubectl get svc";
    "docker ps"; "docker images"; "top"; "htop"; "ps"; "df"; "du" ].

(** [cmd.strip().split()[0] if cmd.strip() else ""] *)
Definition base_of (cmd : string) : string :=
  if truthy (strip cmd)
  then match split (strip cmd) with b :: _ => b | [] => "" end
  else "".

(** [" ".join(cmd.strip().split()[:2])] *)
Definition full_base_of (cmd : string) : string :=
  join " " (firstn 2 (split (strip cmd))).

(** The test of the loop body of [_filter_commands]. *)
Definition is_noise (cmd : string) : bool :=
  let is_bare_noise := str_in (strip cmd) _NOISE_COMMANDS in
  let is_base_noise :=
    str_in (base_of cmd) _NOISE_COMMANDS
    && (List.length (split cmd) <? 3)%nat in
  let is_full_noise := str_in (full_base_of cmd) _NOISE_COMMANDS in
  is_bare_noise || is_base_noise || is_full_noise.

(** [_filter_commands(commands)] *)
Definition _filter_commands (commands : list string) : list string :=
  last_n 80 (map strip (filter (fun cmd => negb (is_noise cmd)) commands)).

(** ** The calendar date, [datetime.now().strftime("%B %d, %Y")] *)

(** A calendar date; [month] counts from 1. *)
Record date : Type := Date { year : Z; month : nat; day : Z }.

Definition month_name (m : nat) : string :=
  nth (m - 1)
      [ "January"; "February"; "March"; "April"; "May"; "June"; "July";
        "August"; "September"; "October"; "November"; "December" ] "".

Definition strftime_B_d_Y (d : date) : string :=
  month_name (month d) ++ " " ++ pad2 (day d) ++ ", " ++ str_of_Z (year d).

Definition nonempty {A} (l : list A) : bool :=
  match l with [] => false | _ => true end.

(** [_generate_fallback_summary(commands, manual_learnings)], the clock
    reading [today]. *)
Definition _generate_fallback_summary (today : date)
           (commands manual_learnings : list string) : string :=
  let today_str := strftime_B_d_Y today in
  let meaningful := _filter_commands commands in
  let lines := [("# " ++ today_str)%string; ""] in
  let lines :=
    if nonempty manual_learnings
    then (lines ++ ["## Learnings"; ""])
           ++ map (fun l => ("- " ++ l)%string) manual_learnings ++ [""]
    else lines in
  let lines :=
    if nonempty meaningful
    then ((((lines ++ ["## Commands"; ""]) ++ ["```"])
             ++ firstn 60 meaningful)
            ++ (if (60 <? List.length meaningful)%nat
                then [("# ... and "
                         ++ str_of_Z (Z.of_nat (List.length meaningful) - 60)
                         ++ " more")%string]
                else []))
           ++ ["```"] ++ [""]
    else lines in
  let lines :=
    if negb (nonempty manual_learnings) && negb (nonempty meaningful)
    then lines ++ ["_Nothing recorded today._"]
    else lines in
  join newline lines.

(** ** Values, exceptions and the network *)

(** What [json.loads] builds, and what goes into [json.dumps]. *)
#[local] Unset Elimination Schemes.
Inductive json : Type :=
| JNull
| JBool (b : bool)
| JInt (n : Z)
| JFloat (literal : string)
| JStr (s : string)
| JArr (items : list json)
| JObj (fields : list (string * json)).
#[local] Set Elimination Schemes.

Fixpoint lookup (key : string) (fields : list (string * json)) : option json :=
  match fields with
  | [] => None
  | (k, v) :: r => if (k =? key)%string then Some v else lookup key r
  end.

(** [v[key]] for a string key *)
Definition get_key (key : string) (v : json) : result json :=
  match v with
  | JObj fields =>
      match lookup key fields with
      | Some x => Ok x
      | None => Raise KeyError
      end
  | _ => Raise TypeError
  end.

(** [v[0]] *)
Definition get_first (v : json) : result json :=
  match v with
  | JArr (x :: _) => Ok x
  | JArr [] => Raise IndexError
  | JStr (String c _) => Ok (JStr (String c ""))
  | JStr EmptyString => Raise IndexError
  | JObj _ => Raise KeyError
  | _ => Raise TypeError
  end.

(** The request handed to [urllib.request.urlopen], with its timeout in
    seconds. *)
Record request : Type := Request {
  url : string;
  data : json;
  headers : list (string * string);
  method : string;
  timeout_s : Z
}.

(** What the outside world gives one call of the summariser. *)
Record world : Type := World {
  (** the environment variables and the [.env] files *)
  env_world : Env.world;
  (** [env._cache] when the call starts *)
  env_cache : option Env.dict;
  (** what the [try] block of [_get_gemini_api_key] answers: the key of
      [config.yaml] as the request renders it; the empty string when
      the file has no key, when the key is false as a condition, and
      when reading the file raises *)
  configured_api_key : string;
  (** [datetime.now()] when the prompt is built *)
  date_at_prompt : date;
  (** [datetime.now()] when the fallback renders *)
  date_at_fallback : date;
  (** [urlopen(req, timeout).read()]: the body, or the exception raised
      on the way (no route, timeout, a status that is not 2xx) *)
  urlopen : request -> result (list Byte.byte)
}.

(** [_get_gemini_api_key()].  [env.get] is called outside the [try]:
    what it raises is raised here. *)
Definition _get_gemini_api_key (w : world) : result string :=
  bind (fst (Env.get (env_world w) (env_cache w) "GEMINI_API_KEY" ""))
       (fun key =>
          if truthy key then Ok key else Ok (configured_api_key w)).

(** [return _generate_fallback_summary(commands, manual_learnings)] *)
Definition fallback_of (w : world) (commands manual_learnings : list string)
  : result json :=
  Ok (JStr (_generate_fallback_summary (date_at_fallback w)
                                       commands manual_learnings)).

Section Summary.
Variable _SYSTEM_PROMPT : string.
(** [_USER_PROMPT_TEMPLATE.format(date=, commands=, learnings=)] *)
Variable _USER_PROMPT_TEMPLATE : string -> string -> string -> string.
(** [json.loads(body.decode("utf-8"))] *)
Variable loads_utf8 : list Byte.byte -> result json.

Definition build_request (w : world) (api_key : string)
           (meaningful_commands manual_learnings : list string) : request :=
  let today_str := strftime_B_d_Y (date_at_prompt w) in
  let learnings_block :=
    if nonempty manual_learnings
    then join newline (map (fun l => ("- " ++ l)%string) manual_learnings)
    else "_None recorded today._" in
  let commands_block :=
    if nonempty meaningful_commands
    then join newline meaningful_commands
    else "_None._" in
  let user_prompt :=
    _USER_PROMPT_TEMPLATE today_str commands_block learnings_block in
  let payload :=
    JObj [ ("system_instruction",
            JObj [("parts", JArr [JObj [("text", JStr _SYSTEM_PROMPT)]])]);
           ("contents",
            JArr [JObj [("parts", JArr [JObj [("text", JStr user_prompt)]])]]);
           ("generationConfig",
            JObj [ ("temperature", JFloat "0.3");
                   ("topP", JFloat "0.85");
                   ("maxOutputTokens", JInt 1200) ]) ] in
  Request
    ("https://generativelanguage.googleapis.com/v1beta/"
       ++ "models/gemini-2.5-flash:generateContent?key=" ++ api_key)
    payload
    [("Content-Type", "application/json")]
    "POST"
    20.

(** [result["candidates"][0]["content"]["parts"][0]["text"]] *)
Definition extract_text (reply : json) : result json :=
  bind (get_key "candidates" reply) (fun v =>
  bind (get_first v) (fun v =>
  bind (get_key "content" v) (fun v =>
  bind (get_key "parts" v) (fun v =>
  bind (get_first v) (fun v =>
  get_key "text" v))))).

(** [generate_daily_summary(commands, manual_learnings)]: what it
    returns or raises, and the requests it sent.  The key is resolved
    before the [try] statement. *)
Definition generate_daily_summary (w : world)
           (commands manual_learnings : list string)
  : result json * list request :=
  match _get_gemini_api_key w with
  | Raise e => (Raise e, [])
  | Ok api_key =>
      let fallback := fallback_of w commands manual_learnings in
      if negb (truthy api_key) then (fallback, [])
      else
        let meaningful_commands := _filter_commands commands in
        if negb (nonempty meaningful_commands)
           && negb (nonempty manual_learnings)
        then (fallback, [])
        else
          let req :=
            build_request w api_key meaningful_commands manual_learnings in
          (try_except
             (bind (urlopen w req) (fun body =>
              bind (loads_utf8 body) (fun reply =>
              extract_text reply)))
             (fun _ => fallback),
           [req])
  end.
End Summary.

(** A reply of the expected shape whose text is a number, for examples. *)
Definition number_reply : json :=
  JObj [("candidates",
         JArr [JObj [("content",
                      JObj [("parts", JArr [JObj [("text", JInt 42)]])])]])].

(** Machines for examples: one with the key [k] in the environment, one
    with no key anywhere, and one with no key in the environment whose
    [.env.local] is not UTF-8 text. *)
Definition keyed_env : Env.world :=
  Env.World (fun name => if (name =? "GEMINI_API_KEY")%string
                         then Some "k" else None)
            None None.

Definition keyed_world (urlopen : request -> result (list Byte.byte))
  : world :=
  World keyed_env None "" (Date 2024 3 7) (Date 2024 3 7) urlopen.

Definition keyless_world : world :=
  World Env.bare_world None "" (Date 2024 3 7) (Date 2024 3 7)
        (fun _ => Raise URLError).

Definition undecodable_env_world : world :=
  World Env.undecodable_world None "k" (Date 2024 3 7) (Date 2024 3 7)
        (fun _ => Ok []).

End Ai.

(* ================================================================== *)
(** * The [learn] command ([devlog.py]) *)
(* ================================================================== *)

Module Cli.
Import Py.

(** The parsed arguments of [devlog learn]. *)
Record learn_args : Type := LearnArgs {
  content : string;
  tags : string
}.

(** How a handler ends: it returns, or [sys.exit(code)]. *)
Inductive exit_status : Type :=
| Returned
| SystemExit (exit_code : Z).

(** [Colors] of [src/utils.py] *)
Definition escape : string := String (ascii_of_nat 27) "".
Definition RED : string := escape ++ "[91m".
Definition GREEN : string := escape ++ "[92m".
Definition ENDC : string := escape ++ "[0m".

(** The check mark U+2705 as the terminal receives it (UTF-8). *)
Definition check_mark : string :=
  String (ascii_of_nat 226) (String (ascii_of_nat 156)
    (String (ascii_of_nat 133) "")).

Definition content_required : string :=
  RED ++ "Error: Learning content is required." ++ ENDC.

Definition added (row_id : Z) : string :=
  newline ++ check_mark ++ " " ++ GREEN ++ "Added learning #"
    ++ str_of_Z row_id ++ " successfully." ++ ENDC ++ newline.

(** [args.tags.split(',') if args.tags else []] *)
Definition tag_list (args : learn_args) : list string :=
  if truthy (tags args) then split_on ","%char (tags args) else [].

Definition failed_to_add (message : string) : string :=
  "Failed to add learning: " ++ message.

(** [handle_learn(args)] at the instant [now]: how it ends, the database
    file it leaves, and what it printed.  [fault] is what SQLite does to
    the [INSERT] of [db.add_learning]: [None] when the statement runs,
    [Some message] when it raises an exception that prints as [message]
    (a locked or read-only file, a full disk); nothing is committed
    then and the [except] branch reports the failure. *)
Definition handle_learn (now : Z) (args : learn_args)
           (fault : option string) (db : option Db.store)
  : exit_status * option Db.store * list string :=
  if negb (truthy (content args))
  then (SystemExit 1, db, [content_required])
  else
    let tags := tag_list args in
    let st := Db.init_db db in
    match fault with
    | None =>
        let (row_id, st') :=
          Db.add_learning now (content args) (Some tags) st in
        (Returned, Some st', [added row_id])
    | Some message => (SystemExit 1, Some st, [failed_to_add message])
    end.

(** The row [add_learning] appends. *)
Definition new_learning (now : Z) (content : string) (tags : list string)
           (st : Db.store) : Db.learning :=
  Db.Learning (Db.learnings_seq st + 1) content (Db.CURRENT_TIMESTAMP now)
              (Json.dumps tags) (Db.CURRENT_TIMESTAMP now) 0.

Definition with_learning (row : Db.learning) (st : Db.store) : Db.store :=
  Db.Store (Db.learnings st ++ [row]) (Db.l_id row)
           (Db.commands st) (Db.commands_seq st).

End Cli.

(* ================================================================== *)
(** * The sync publisher ([src/github_sync.py]) *)
(* ================================================================== *)

Module GithubSync.
Import Py.

(** What a run does to the outside, in the order it does it. *)
Inductive event : Type :=
| EvStoreRawCommand (source cmd : string)
| EvGetUnprocessedCommands
| EvGetLearningsSince (days : Z)
| EvHttp (req : Ai.request)
| EvMkdir (path : string)
| EvGit (args : list string)
| EvWriteText (path content : string)
| EvMarkCommandsProcessed (ids : list Z).

(** The result of one [subprocess.run]. *)
Record completed_process : Type := CompletedProcess {
  returncode : Z;
  stdout : string;
  stderr : string
}.

(** What the outside world answers during one run.  The clock and the
    git results are asked with the number of events so far; the calendar
    date [today] is the same for the whole run, and so are the answers
    of the lookups, the git program and the SQLite library.

    - [GITHUB_URL] and [GITHUB_TOKEN] are what the lookups of
      [_get_authenticated_remote_url] answer when they answer;
      [lookup_fault] is the exception they raise otherwise ([env.get]
      on a [.env] file that is not UTF-8 text, [.get] on a
      [config.yaml] that is not a mapping).
    - [git_on_path] says whether [subprocess.run] can start git; without
      it every call raises [FileNotFoundError].  [git] is what a started
      git answers.
    - [variable_limit] is [SQLITE_LIMIT_VARIABLE_NUMBER] of the SQLite
      library in use. *)
Record env : Type := Env {
  clock : nat -> Z;
  today : Ai.date;
  zsh_history : option (list Byte.byte);
  bash_history : option (list Byte.byte);
  decode : list Byte.byte -> string;
  git_logs : list (string * option string);
  ai_world : Ai.world;
  system_prompt : string;
  user_prompt_template : string -> string -> string -> string;
  loads_utf8 : list Byte.byte -> result Ai.json;
  GITHUB_URL : string;
  GITHUB_TOKEN : string;
  git : list string -> nat -> completed_process;
  lookup_fault : option exn;
  git_on_path : bool;
  variable_limit : Z
}.

(** What a run changes. *)
Record state : Type := State {
  db : option Db.store;
  repo_dir_exists : bool;
  trace : list event
}.

(** Computations that change the state and may raise. *)
Definition M (A : Type) : Type := state -> result A * state.

Definition ret {A} (a : A) : M A := fun s => (Ok a, s).
Definition raise {A} (e : exn) : M A := fun s => (Raise e, s).
Definition mbind {A B} (m : M A) (k : A -> M B) : M B :=
  fun s => match m s with
           | (Ok a, s') => k a s'
           | (Raise e, s') => (Raise e, s')
           end.
Definition emit (ev : event) : M unit :=
  fun s => (Ok tt, State (db s) (repo_dir_exists s) (trace s ++ [ev])).
Definition get_state : M state := fun s => (Ok s, s).
Definition put_db (st : Db.store) : M unit :=
  fun s => (Ok tt, State (Some st) (repo_dir_exists s) (trace s)).
Definition set_repo_dir_exists : M unit :=
  fun s => (Ok tt, State (db s) true (trace s)).

Notation "x <- m ;; k" := (mbind m (fun x => k))
  (at level 61, m at next level, right associativity).
Notation "m ;;; k" := (mbind m (fun _ => k))
  (at level 61, right associativity).

(** [try: body  except CalledProcessError: pass], the state kept. *)
Definition try_called_process_error (body : M unit) : M unit :=
  fun s => match body s with
           | (Raise (CalledProcessError _), s') => (Ok tt, s')
           | r => r
           end.

(** [subprocess.run(['git'] + args, check=check)].  When git cannot be
    started nothing is run and [FileNotFoundError] is raised. *)
Definition run_git (e : env) (check : bool) (args : list string)
  : M completed_process :=
  if negb (git_on_path e) then raise FileNotFoundError
  else
    s <- get_state ;;
    let p := git e args (List.length (trace s)) in
    emit (EvGit args) ;;;
    if check && negb (returncode p =? 0)%Z
    then raise (CalledProcessError (returncode p))
    else ret p.

(** The instant of the next database call. *)
Definition now (e : env) : M Z :=
  s <- get_state ;; ret (clock e (List.length (trace s))).

Definition the_store : M Db.store :=
  s <- get_state ;; ret (Db.init_db (db s)).

(** ** [collector.run_collection()] *)

Fixpoint store_all (e : env) (calls : list (string * string)) : M unit :=
  match calls with
  | [] => ret tt
  | (source, cmd) :: r =>
      t <- now e ;;
      st <- the_store ;;
      emit (EvStoreRawCommand source cmd) ;;;
      put_db (Db.store_raw_command t source cmd st) ;;;
      store_all e r
  end.

Definition run_collection (e : env) : M unit :=
  st <- the_store ;;
  put_db st ;;;
  store_all e (Collector.collect_shell_history (decode e) "zsh"
                 (zsh_history e) 200) ;;;
  store_all e (Collector.collect_shell_history (decode e) "bash"
                 (bash_history e) 200) ;;;
  store_all e (Collector.collect_git_logs (git_logs e)).

(** ** The repository *)

(** The body of [_get_authenticated_remote_url()] past its lookups,
    [raw_url] being [GITHUB_URL] from the environment or the configured
    remote. *)
Definition _get_authenticated_remote_url (e : env) : string :=
  let raw_url := GITHUB_URL e in
  let token := GITHUB_TOKEN e in
  if negb (truthy raw_url) then ""
  else if truthy token && startswith "https://" raw_url
          && negb (contains "@" raw_url)
       then ("https://" ++ token ++ "@"
               ++ str (skipn 8 (chars raw_url)))%string
       else raw_url.

(** A call of [_get_authenticated_remote_url()]: the lookups raise, or
    the body answers. *)
Definition authenticated_remote_url (e : env) : M string :=
  match lookup_fault e with
  | Some x => raise x
  | None => ret (_get_authenticated_remote_url e)
  end.

Definition repo_dir : string := "~/.devlog/repo".

(** [_ensure_git_user(repo_dir)] *)
Definition _ensure_git_user (e : env) : M unit :=
  name_check <- run_git e false ["config"; "user.name"] ;;
  if negb (truthy (strip (stdout name_check)))
  then run_git e false ["config"; "user.name"; "DevLog Bot"] ;;;
       run_git e false ["config"; "user.email"; "devlog@local"] ;;;
       ret tt
  else ret tt.

(** [setup_devlog_repo()] *)
Definition setup_devlog_repo (e : env) : M string :=
  remote_url <- authenticated_remote_url e ;;
  s <- get_state ;;
  (if negb (repo_dir_exists s)
   then emit (EvMkdir repo_dir) ;;;
        set_repo_dir_exists ;;;
        run_git e true ["init"] ;;;
        run_git e false ["checkout"; "-b"; "main"] ;;;
        ret tt
   else ret tt) ;;;
  _ensure_git_user e ;;;
  (if truthy remote_url
   then existing <- run_git e false ["remote"] ;;
        if str_in "origin" (splitlines (stdout existing))
        then run_git e false ["remote"; "set-url"; "origin"; remote_url] ;;;
             ret tt
        else run_git e false ["remote"; "add"; "origin"; remote_url] ;;;
             ret tt
   else ret tt) ;;;
  ret repo_dir.

(** [save_daily_markdown(markdown_content)].  [Path.write_text] raises
    [TypeError] for a value that is not a [str]. *)
Definition save_daily_markdown (e : env) (markdown_content : Ai.json)
  : M string :=
  repo <- setup_devlog_repo e ;;
  let year_dir := (repo ++ "/" ++ str_of_Z (Ai.year (today e)))%string in
  emit (EvMkdir year_dir) ;;;
  let file_path :=
    (year_dir ++ "/" ++ pad2 (Z.of_nat (Ai.month (today e))) ++ "-"
       ++ pad2 (Ai.day (today e)) ++ ".md")%string in
  match markdown_content with
  | Ai.JStr text => emit (EvWriteText file_path text) ;;; ret file_path
  | _ => raise TypeError
  end.

(** [f"DevLog auto-update: {now.strftime('%Y-%m-%d')}"] *)
Definition commit_msg (e : env) : string :=
  "DevLog auto-update: " ++ str_of_Z (Ai.year (today e)) ++ "-"
    ++ pad2 (Z.of_nat (Ai.month (today e))) ++ "-"
    ++ pad2 (Ai.day (today e)).

(** [git_commit_and_push()] *)
Definition git_commit_and_push (e : env) : M unit :=
  setup_devlog_repo e ;;;
  try_called_process_error
    (run_git e true ["add"; "."] ;;;
     committed <- run_git e false ["commit"; "-m"; commit_msg e] ;;
     if negb (returncode committed =? 0)%Z
        && contains "nothing to commit" (stdout committed)
     then ret tt
     else
       remote_url <- authenticated_remote_url e ;;
       if truthy remote_url
       then run_git e false ["pull"; "--rebase"; "origin"; "main"] ;;;
            run_git e false ["push"; "--set-upstream"; "origin"; "main"] ;;;
            ret tt
       else ret tt).

(** ** The pipeline *)

Definition get_unprocessed_commands : M (list Db.command) :=
  st <- the_store ;;
  emit EvGetUnprocessedCommands ;;;
  ret (Db.get_unprocessed_commands st).

Definition get_learnings_since (e : env) (days : Z) : M (list Db.learning) :=
  t <- now e ;;
  st <- the_store ;;
  emit (EvGetLearningsSince days) ;;;
  match Db.get_learnings_since t days st with
  | Ok rows => ret rows
  | Raise x => raise x
  end.

Fixpoint emit_all (evs : list event) : M unit :=
  match evs with
  | [] => ret tt
  | ev :: r => emit ev ;;; emit_all r
  end.

Definition generate_daily_summary (e : env)
           (commands manual_learnings : list string) : M Ai.json :=
  let (answer, requests) :=
    Ai.generate_daily_summary (system_prompt e) (user_prompt_template e)
      (loads_utf8 e) (ai_world e) commands manual_learnings in
  emit_all (map EvHttp requests) ;;;
  match answer with
  | Ok v => ret v
  | Raise x => raise x
  end.

(** [db.mark_commands_processed(ids)]: nothing is touched for an empty
    list, and nothing is marked when SQLite refuses the statement. *)
Definition mark_commands_processed (e : env) (ids : list Z) : M unit :=
  match ids with
  | [] => ret tt
  | _ =>
      st <- the_store ;;
      match Db.mark_commands_processed (variable_limit e) ids st with
      | Ok st' => emit (EvMarkCommandsProcessed ids) ;;; put_db st'
      | Raise x => raise x
      end
  end.

(** [trigger_daily_sync()] *)
Definition trigger_daily_sync (e : env) : M unit :=
  run_collection e ;;;
  raw_commands <- get_unprocessed_commands ;;
  let command_strings := map Db.c_command raw_commands in
  learnings <- get_learnings_since e 1 ;;
  let learning_strings := map Db.l_content learnings in
  summary_md <- generate_daily_summary e command_strings learning_strings ;;
  save_daily_markdown e summary_md ;;;
  mark_commands_processed e (map Db.c_id raw_commands) ;;;
  git_commit_and_push e.

(** ** Reading a trace *)

Definition is_mark (ev : event) : bool :=
  match ev with EvMarkCommandsProcessed _ => true | _ => false end.

Definition is_write (ev : event) : bool :=
  match ev with EvWriteText _ _ => true | _ => false end.

Definition is_git (verbs : list string) (ev : event) : bool :=
  match ev with
  | EvGit (v :: _) => str_in v verbs
  | _ => false
  end.

(** Collecting, reading the store, asking for the summary. *)
Definition is_gather (ev : event) : bool :=
  match ev with
  | EvStoreRawCommand _ _ | EvGetUnprocessedCommands
  | EvGetLearningsSince _ | EvHttp _ => true
  | _ => false
  end.

(** Preparing the working tree: directories, [git init], [checkout],
    [config] and [remote]. *)
Definition is_setup (ev : event) : bool :=
  match ev with
  | EvMkdir _ => true
  | _ => is_git ["init"; "checkout"; "config"; "remote"] ev
  end.

(** What [git_commit_and_push] does: preparing the working tree, then
    [git add], [commit], [pull] and [push]. *)
Definition is_publish (ev : event) : bool :=
  is_setup ev || is_git ["add"; "commit"; "pull"; "push"] ev.

(** The git commands of [git_commit_and_push] past the preparing of the
    working tree, in the order in which it runs them. *)
Definition publish_steps (e : env) : list event :=
  [ EvGit ["add"; "."];
    EvGit ["commit"; "-m"; commit_msg e];
    EvGit ["pull"; "--rebase"; "origin"; "main"];
    EvGit ["push"; "--set-upstream"; "origin"; "main"] ].

(** The event of marking [ids], when there is anything to mark. *)
Definition marking (ids : list Z) : list event :=
  match ids with
  | [] => []
  | _ => [EvMarkCommandsProcessed ids]
  end.

(** The steps the specification orders: the summary file is written,
    commands are marked processed, the working tree is committed, the
    branch is pushed. *)
Inductive milestone : Type :=
| Written
| Marked (ids : list Z)
| Committed
| Pushed.

Definition milestone_of (ev : event) : list milestone :=
  match ev with
  | EvWriteText _ _ => [Written]
  | EvMarkCommandsProcessed ids => [Marked ids]
  | EvGit ("commit" :: _) => [Committed]
  | EvGit ("push" :: _) => [Pushed]
  | _ => []
  end.

Definition milestones (tr : list event) : list milestone :=
  flat_map milestone_of tr.

(** [m] appends events of the kind [P] to the trace, and nothing else. *)
Definition emits {A} (P : event -> bool) (m : M A) : Prop :=
  forall s, exists evs,
    trace (snd (m s)) = trace s ++ evs /\ forallb P evs = true.

(** ** A run for examples

    No zsh history, a bash history of one command, no tracked
    repository; no API key; every git command succeeds and prints
    nothing; the working tree does not exist yet. *)
Definition quiet_world : Ai.world := Ai.keyless_world.

Definition quiet_env : env :=
  Env (fun n => 1709800000000 + Z.of_nat n)%Z
      (Ai.Date 2024 3 7)
      None
      (Some (Collector.bytes_of "make test"))
      Collector.decode_ascii
      []
      quiet_world
      ""
      (fun _ _ _ => "")
      (fun _ => Raise JSONDecodeError)
      "https://github.com/dev/devlog-brain.git"
      ""
      (fun _ _ => CompletedProcess 0 "" "")
      None
      true
      999.

Definition fresh_state : state := State None false [].

(** ** What a computation leaves as it is *)

(** [m] takes every state to a state that [I] relates to it. *)
Definition keeps {A} (I : state -> state -> Prop) (m : M A) : Prop :=
  forall s, I s (snd (m s)).

(** The database file is not touched, and a working tree that exists
    still exists. *)
Definition same_db (s s' : state) : Prop :=
  db s' = db s
  /\ (repo_dir_exists s = true -> repo_dir_exists s' = true).

(** [m] always returns. *)
Definition returns {A} (m : M A) : Prop :=
  forall s, exists a, fst (m s) = Ok a.

(** Not [git remote], [git pull] or [git push]. *)
Definition is_local (ev : event) : bool :=
  negb (is_git ["remote"; "pull"; "push"] ev).

(** Not a call of [db.store_raw_command] with a text in which
    [SENSITIVE_PATTERN] finds something. *)
Definition stores_clean (ev : event) : bool :=
  match ev with
  | EvStoreRawCommand _ cmd =>
      negb (Collector.search Collector.SENSITIVE_PATTERN cmd)
  | _ => true
  end.

(** The text [cmd] is in an unprocessed row of the database file. *)
Definition queued (cmd : string) (s : state) : Prop :=
  In cmd (Db.unprocessed_texts (Db.init_db (db s))).

(** The run for examples with no remote configured. *)
Definition offline_env : env :=
  Env (clock quiet_env) (today quiet_env) (zsh_history quiet_env)
      (bash_history quiet_env) (decode quiet_env) (git_logs quiet_env)
      (ai_world quiet_env) (system_prompt quiet_env)
      (user_prompt_template quiet_env) (loads_utf8 quiet_env)
      "" "" (git quiet_env)
      (lookup_fault quiet_env) (git_on_path quiet_env)
      (variable_limit quiet_env).

(** The machine [e] with another raw remote URL. *)
Definition with_raw_url (raw_url : string) (e : env) : env :=
  Env (clock e) (today e) (zsh_history e) (bash_history e) (decode e)
      (git_logs e) (ai_world e) (system_prompt e) (user_prompt_template e)
      (loads_utf8 e) raw_url (GITHUB_TOKEN e) (git e)
      (lookup_fault e) (git_on_path e) (variable_limit e).

(** The machine [e] with another git: whether it can be started and
    what it answers. *)
Definition with_git (on_path : bool)
           (answers : list string -> nat -> completed_process) (e : env)
  : env :=
  Env (clock e) (today e) (zsh_history e) (bash_history e) (decode e)
      (git_logs e) (ai_world e) (system_prompt e) (user_prompt_template e)
      (loads_utf8 e) (GITHUB_URL e) (GITHUB_TOKEN e) answers
      (lookup_fault e) on_path (variable_limit e).

(** The machine [e] on which the lookups of the remote URL raise [x]. *)
Definition with_lookup_fault (x : exn) (e : env) : env :=
  Env (clock e) (today e) (zsh_history e) (bash_history e) (decode e)
      (git_logs e) (ai_world e) (system_prompt e) (user_prompt_template e)
      (loads_utf8 e) (GITHUB_URL e) (GITHUB_TOKEN e) (git e)
      (Some x) (git_on_path e) (variable_limit e).

(** The machine [e] with another SQLite library. *)
Definition with_variable_limit (limit : Z) (e : env) : env :=
  Env (clock e) (today e) (zsh_history e) (bash_history e) (decode e)
      (git_logs e) (ai_world e) (system_prompt e) (user_prompt_template e)
      (loads_utf8 e) (GITHUB_URL e) (GITHUB_TOKEN e) (git e)
      (lookup_fault e) (git_on_path e) limit.

(** A git whose [add] exits with status 1; every other command
    succeeds. *)
Definition git_add_fails (args : list string) (n : nat)
  : completed_process :=
  match args with
  | "add" :: _ => CompletedProcess 1 "" "fatal: unable to add"
  | _ => CompletedProcess 0 "" ""
  end.

End GithubSync.

(* ================================================================== *)
(** * The word wrap of [print_box] ([src/utils.py]) *)
(* ================================================================== *)

Module Utils.
Import Py.

(** [width] of [print_box] *)
Definition width : nat := 60.

(** The body of the loop [for word in words], on the pair of [lines]
    and [current_line]. *)
Definition wrap_step (st : list string * string) (word : string)
  : list string * string :=
  let (lines, current_line) := st in
  if (width - 4 <? String.length current_line + String.length word + 1)%nat
  then (lines ++ [current_line], word)
  else (lines,
        if truthy current_line
        then (current_line ++ " " ++ word)%string
        else word).

(** The list [lines] of [print_box(title, content, tags)] when its rows
    are printed: [content.split()] wrapped, then the line in hand when
    it is not empty. *)
Definition print_box_lines (content : string) : list string :=
  let words := split content in
  let (lines, current_line) := fold_left wrap_step words ([], "") in
  if truthy current_line then lines ++ [current_line] else lines.

(** [s.ljust(w)] *)
Definition ljust (w : nat) (s : string) : string :=
  s ++ str (repeat " "%char (w - String.length s)).

(** [padded_line] for each of the lines: the texts between the side
    borders of the box. *)
Definition print_box_rows (content : string) : list string :=
  map (ljust (width - 4)) (print_box_lines content).

(** A word: not empty, no blank in it. *)
Definition is_word (w : string) : Prop :=
  w <> "" /\ forallb nonspace (chars w) = true.

(** What the loop keeps true of [current_line]: it is empty, or a word,
    or words joined by single blanks that fit the box. *)
Definition fits (words : list string) (line : string) : Prop :=
  (String.length line <= width - 4)%nat \/ In line words.

End Utils.

(* ================================================================== *)
(** * The [quiz] command ([devlog.py]) *)
(* ================================================================== *)

Module CliQuiz.
Import Py.

(** What a handler writes to the terminal, in order. *)
Inductive printed : Type :=
| Line (text : string)
| Box (title content tags : string)
| Prompt (text : string)
| Failure (prefix : string) (e : exn).

Definition BOLD : string := Cli.escape ++ "[1m".

(** The sparkles U+2728 as the terminal receives them (UTF-8). *)
Definition sparkles : string :=
  String (ascii_of_nat 226) (String (ascii_of_nat 156)
    (String (ascii_of_nat 168) "")).

Definition caught_up : string :=
  newline ++ sparkles ++ " " ++ Cli.GREEN
    ++ "No learnings are due for review. You're all caught up!"
    ++ Cli.ENDC ++ " " ++ sparkles ++ newline.

Definition press_enter : string :=
  "  " ++ BOLD ++ "Press Enter to mark as reviewed..." ++ Cli.ENDC.

Definition marked : string :=
  "  " ++ Cli.check_mark ++ " " ++ Cli.GREEN
    ++ "Marked as reviewed. Keep it up!" ++ Cli.ENDC ++ newline.

(** The [except Exception as e] branch of [handle_quiz]: silent with
    [--auto], a message and [sys.exit(1)] without. *)
Definition failed (auto : bool) (st : Db.store) (out : list printed)
           (e : exn) : Cli.exit_status * Db.store * list printed :=
  if auto then (Cli.Returned, st, out)
  else (Cli.SystemExit 1, st, out ++ [Failure "Failed to load quiz: " e]).

Section Quiz.
(** [json.loads(tags)] as [", ".join] reads it: the strings to join, or
    the exception that [json.loads] or [join] raises. *)
Variable tags_of : string -> result (list string).

(** [handle_quiz(args)] with [args.auto = auto]: the flashcard is chosen
    at the instant [now] and marked at the instant [later]; [input] is
    what [input(...)] does.  The answer is how the handler ends, the
    database file it leaves and what it printed. *)
Definition handle_quiz (auto : bool) (now later : Z) (input : result unit)
           (db : option Db.store)
  : Cli.exit_status * Db.store * list printed :=
  let st := Db.init_db db in
  match Db.get_due_flashcard now st with
  | None => (Cli.Returned, st, if auto then [] else [Line caught_up])
  | Some flashcard =>
      match (if truthy (Db.l_tags flashcard)
             then tags_of (Db.l_tags flashcard)
             else Ok []) with
      | Raise e => failed auto st [] e
      | Ok tags_list =>
          let tags_str := join ", " tags_list in
          let out := [Box "DevLog Flashcard" (Db.l_content flashcard)
                          tags_str] in
          if auto
          then (Cli.Returned,
                Db.mark_flashcard_reviewed later (Db.l_id flashcard) st,
                out)
          else
            match input with
            | Raise e => failed auto st (out ++ [Prompt press_enter]) e
            | Ok _ =>
                (Cli.Returned,
                 Db.mark_flashcard_reviewed later (Db.l_id flashcard) st,
                 out ++ [Prompt press_enter; Line marked])
            end
      end
  end.
End Quiz.

(** [json.loads] on the tag lists the store writes. *)
Definition loads_tags (tags : string) : result (list string) :=
  match Json.loads tags with
  | Some l => Ok l
  | None => Raise JSONDecodeError
  end.

(** A store for examples: one learning, added at the epoch. *)
Definition one_learning : Db.store :=
  snd (Db.add_learning 0 "rebase before merge" None Db.empty_store).

End CliQuiz.

(* ================================================================== *)
(** * Properties of the Python and JSON helpers *)
(* ================================================================== *)

Module JsonFacts.
Import Py Json.

Lemma chars_str l : chars (str l) = l.
Proof. apply list_ascii_of_string_of_list_ascii. Qed.

Lemma str_chars s : str (chars s) = s.
Proof. apply string_of_list_ascii_of_string. Qed.

(** Reading back the escape of one character appends that character. *)
Lemma run_escape_char done acc c rest :
  run (done, PStr acc) (escape_char c ++ rest)
  = run (done, PStr (c :: acc)) rest.
Proof.
  destruct c as [[] [] [] [] [] [] [] []]; reflexivity.
Qed.

Lemma run_escaped done cs : forall acc rest,
  run (done, PStr acc) (flat_map escape_char cs ++ rest)
  = run (done, PStr (rev cs ++ acc)) rest.
Proof.
  induction cs as [|c cs IH]; intros acc rest; simpl; [reflexivity|].
  rewrite <- app_assoc, run_escape_char, IH, <- app_assoc. reflexivity.
Qed.

Lemma run_encoded done p s rest :
  expects_string p ->
  run (done, p) (encode_basestring_ascii s ++ rest)
  = run (s :: done, PAfterStr) rest.
Proof.
  intros Hp. unfold encode_basestring_ascii.
  assert (H1 : run (done, p) ((dquote :: flat_map escape_char (chars s) ++ [dquote]) ++ rest)
               = run (done, PStr []) (flat_map escape_char (chars s) ++ dquote :: rest)).
  { rewrite <- app_comm_cons, <- app_assoc.
    destruct Hp as [-> | ->]; reflexivity. }
  rewrite H1, run_escaped, app_nil_r. simpl.
  rewrite rev_involutive, str_chars. reflexivity.
Qed.

Lemma run_items l : forall done p,
  l <> [] -> expects_string p ->
  run (done, p) (dumps_items l ++ ["]"%char]) = Some (rev l ++ done, PEnd).
Proof.
  induction l as [|s l IH]; intros done p Hne Hp; [congruence|].
  destruct l as [|s' l].
  - simpl dumps_items. rewrite run_encoded by exact Hp. reflexivity.
  - change (dumps_items (s :: s' :: l))
      with (encode_basestring_ascii s ++ chars ", " ++ dumps_items (s' :: l)).
    rewrite <- !app_assoc, run_encoded by exact Hp.
    change (run (s :: done, PAfterStr)
              (chars ", " ++ dumps_items (s' :: l) ++ ["]"%char]))
      with (run (s :: done, PAfterComma) (dumps_items (s' :: l) ++ ["]"%char])).
    rewrite IH; [| discriminate | right; reflexivity].
    change (rev (s :: s' :: l)) with (rev (s' :: l) ++ [s]).
    rewrite <- app_assoc. reflexivity.
Qed.

(** [json.loads(json.dumps(l)) == l] for every list of strings. *)
Lemma loads_dumps l : loads (dumps l) = Some l.
Proof.
  unfold loads, dumps. rewrite chars_str.
  destruct l as [|s l]; [reflexivity|].
  change (run ([], PStart) ("["%char :: dumps_items (s :: l) ++ ["]"%char]))
    with (run ([], POpen) (dumps_items (s :: l) ++ ["]"%char])).
  rewrite run_items; [| discriminate | left; reflexivity].
  rewrite app_nil_r, rev_involutive. reflexivity.
Qed.

(** X3.  Serialising a tag list and reading it back gives the tag list
    again. *)
Theorem tags_round_trip :
  forall tags, loads (dumps tags) = Some tags
               /\ (loads (dumps tags) = Some [] <-> tags = []).
Proof.
  intros tags. rewrite loads_dumps. split; [reflexivity|].
  split; [intros [= ->]; reflexivity | intros ->; reflexivity].
Qed.

End JsonFacts.

Module PyFacts.
Import Py.
Import JsonFacts.

(** ** [strip] *)

Lemma lstrip_app_nonspace pre c rest :
  isspace c = false ->
  lstrip_chars (pre ++ c :: rest) = lstrip_chars pre ++ c :: rest.
Proof.
  intros Hc. induction pre as [|a pre IH]; simpl.
  - rewrite Hc. reflexivity.
  - destruct (isspace a); [exact IH | reflexivity].
Qed.

Lemma rstrip_app_nonspace pre c post :
  isspace c = false ->
  rstrip_chars (pre ++ c :: post) = pre ++ c :: rstrip_chars post.
Proof.
  intros Hc. unfold rstrip_chars.
  assert (E : rev (pre ++ c :: post) = rev post ++ c :: rev pre).
  { rewrite rev_app_distr. simpl. rewrite <- app_assoc. reflexivity. }
  rewrite E, lstrip_app_nonspace by exact Hc.
  rewrite rev_app_distr. simpl. rewrite rev_involutive, <- app_assoc.
  reflexivity.
Qed.

(** A non-empty block without blanks survives [strip] in place. *)
Lemma strip_keeps_word pre w post :
  w <> [] -> forallb nonspace w = true ->
  strip_chars (pre ++ w ++ post)
  = lstrip_chars pre ++ w ++ rstrip_chars post.
Proof.
  intros Hne Hw. unfold strip_chars.
  destruct w as [|c w']; [congruence|].
  assert (Hc : isspace c = false).
  { simpl in Hw. apply andb_true_iff in Hw as [Hc _].
    apply negb_true_iff in Hc. exact Hc. }
  simpl app. rewrite lstrip_app_nonspace by exact Hc.
  destruct (exists_last (l := c :: w')) as (m & d & E); [discriminate|].
  assert (Hd : isspace d = false).
  { rewrite E, forallb_app in Hw. apply andb_true_iff in Hw as [_ Hd].
    simpl in Hd. rewrite andb_true_r in Hd. apply negb_true_iff in Hd.
    exact Hd. }
  change (lstrip_chars pre ++ c :: w' ++ post)
    with (lstrip_chars pre ++ (c :: w') ++ post).
  change (lstrip_chars pre ++ c :: w' ++ rstrip_chars post)
    with (lstrip_chars pre ++ (c :: w') ++ rstrip_chars post).
  rewrite E.
  replace (lstrip_chars pre ++ (m ++ [d]) ++ post)
    with ((lstrip_chars pre ++ m) ++ d :: post)
    by (rewrite <- !app_assoc; reflexivity).
  rewrite rstrip_app_nonspace by exact Hd.
  rewrite <- !app_assoc. reflexivity.
Qed.

Lemma lstrip_length l : (List.length (lstrip_chars l) <= List.length l)%nat.
Proof.
  induction l as [|a l IH]; simpl; [lia|].
  destruct (isspace a); simpl; lia.
Qed.

Lemma strip_chars_length l :
  (List.length (strip_chars l) <= List.length l)%nat.
Proof.
  unfold strip_chars, rstrip_chars. rewrite length_rev.
  etransitivity; [apply lstrip_length|]. rewrite length_rev.
  apply lstrip_length.
Qed.

Lemma length_str l : String.length (str l) = List.length l.
Proof. induction l as [|a l IH]; simpl; congruence. Qed.

Lemma length_chars s : List.length (chars s) = String.length s.
Proof. induction s as [|a s IH]; simpl; congruence. Qed.

Lemma strip_length s : (String.length (strip s) <= String.length s)%nat.
Proof.
  unfold strip. rewrite length_str, <- length_chars. apply strip_chars_length.
Qed.

(** ** [split] *)

Lemma split_chars_blank cur ws :
  forallb isspace ws = true -> split_chars cur ws = flush cur.
Proof.
  revert cur. induction ws as [|a ws IH]; intros cur H; simpl in *;
    [reflexivity|].
  apply andb_true_iff in H as [Ha Hws]. rewrite Ha.
  destruct cur; rewrite IH by exact Hws; reflexivity.
Qed.

Lemma split_chars_app_blank l : forall cur ws,
  forallb isspace ws = true ->
  split_chars cur (l ++ ws) = split_chars cur l.
Proof.
  induction l as [|a l IH]; intros cur ws H; simpl.
  - apply split_chars_blank. exact H.
  - destruct (isspace a); [destruct cur|]; rewrite ?IH by exact H; reflexivity.
Qed.

Lemma split_chars_lstrip l : split_chars [] (lstrip_chars l) = split_chars [] l.
Proof.
  induction l as [|a l IH]; simpl; [reflexivity|].
  destruct (isspace a) eqn:E; [exact IH|]. simpl. rewrite E. reflexivity.
Qed.

(** What [lstrip] removes is blank. *)
Lemma lstrip_decompose l :
  exists ws, l = ws ++ lstrip_chars l /\ forallb isspace ws = true.
Proof.
  induction l as [|a l (ws & E & H)]; simpl.
  - exists []. split; reflexivity.
  - destruct (isspace a) eqn:Ea.
    + exists (a :: ws). simpl. rewrite Ea, H. split; [congruence|reflexivity].
    + exists []. split; reflexivity.
Qed.

Lemma forallb_rev {A} (p : A -> bool) l : forallb p (rev l) = forallb p l.
Proof.
  induction l as [|a l IH]; simpl; [reflexivity|].
  rewrite forallb_app, IH. simpl. rewrite andb_true_r. apply andb_comm.
Qed.

Lemma rstrip_decompose l :
  exists ws, l = rstrip_chars l ++ ws /\ forallb isspace ws = true.
Proof.
  destruct (lstrip_decompose (rev l)) as (ws & E & H).
  exists (rev ws). split; [| rewrite forallb_rev; exact H].
  unfold rstrip_chars. rewrite <- rev_app_distr, <- E, rev_involutive.
  reflexivity.
Qed.

Lemma split_chars_strip l : split_chars [] (strip_chars l) = split_chars [] l.
Proof.
  unfold strip_chars.
  destruct (rstrip_decompose (lstrip_chars l)) as (ws & E & H).
  rewrite <- (split_chars_lstrip l). rewrite E at 2.
  rewrite split_chars_app_blank by exact H. reflexivity.
Qed.

(** [cmd.strip().split() == cmd.split()] *)
Lemma split_strip s : split (strip s) = split s.
Proof.
  unfold split, strip. rewrite chars_str, split_chars_strip. reflexivity.
Qed.

(** ** Substrings *)

Lemma prefix_chars_spec p l :
  prefix_chars p l = true <-> exists post, l = p ++ post.
Proof.
  revert l. induction p as [|a p IH]; intros l; simpl.
  - split; [intros _; exists l; reflexivity | reflexivity].
  - destruct l as [|b l].
    + split; [discriminate | intros (post & H); discriminate].
    + rewrite andb_true_iff, Ascii.eqb_eq, IH. split.
      * intros (-> & post & ->). exists post. reflexivity.
      * intros (post & H). injection H as -> ->. eauto.
Qed.

Lemma contains_chars_spec p l :
  contains_chars p l = true <-> exists pre post, l = pre ++ p ++ post.
Proof.
  induction l as [|b l IH]; simpl.
  - rewrite orb_false_r, prefix_chars_spec. split.
    + intros (post & H). exists [], post. exact H.
    + intros (pre & post & H). destruct pre; [eauto|discriminate].
  - rewrite orb_true_iff, prefix_chars_spec, IH. split.
    + intros [(post & H) | (pre & post & H)].
      * exists [], post. exact H.
      * exists (b :: pre), post. simpl. congruence.
    + intros (pre & post & H). destruct pre as [|a pre].
      * left. exists post. exact H.
      * right. injection H as -> ->. eauto.
Qed.

(** A blank is its own lower-case form, so no blank matches a letter. *)
Lemma isspace_lower c : isspace c = true -> lower_char c = c.
Proof.
  destruct c as [[] [] [] [] [] [] [] []]; vm_compute; congruence.
Qed.

End PyFacts.

(* ================================================================== *)
(** * More facts about [strip] and [split] *)
(* ================================================================== *)

Module PyMoreFacts.
Import Py PyFacts JsonFacts.

Lemma lstrip_idem l : lstrip_chars (lstrip_chars l) = lstrip_chars l.
Proof.
  induction l as [|c l IH]; simpl; [reflexivity|].
  destruct (isspace c) eqn:E; [exact IH|]. simpl. rewrite E. reflexivity.
Qed.

Lemma rstrip_idem l : rstrip_chars (rstrip_chars l) = rstrip_chars l.
Proof.
  unfold rstrip_chars. rewrite rev_involutive, lstrip_idem. reflexivity.
Qed.

(** [rstrip] leaves a text that [lstrip] leaves alone that way. *)
Lemma lstrip_rstrip l :
  lstrip_chars l = l -> lstrip_chars (rstrip_chars l) = rstrip_chars l.
Proof.
  destruct l as [|c l]; [reflexivity|]. intros H.
  destruct (isspace c) eqn:E.
  - simpl in H. rewrite E in H. pose proof (lstrip_length l) as L.
    rewrite H in L. simpl in L. lia.
  - change (c :: l) with ([] ++ c :: l).
    rewrite (rstrip_app_nonspace [] c l E). simpl. rewrite E. reflexivity.
Qed.

Lemma strip_chars_lstrip l : lstrip_chars (strip_chars l) = strip_chars l.
Proof. unfold strip_chars. apply lstrip_rstrip, lstrip_idem. Qed.

Lemma strip_chars_idem l : strip_chars (strip_chars l) = strip_chars l.
Proof.
  unfold strip_chars at 1. rewrite strip_chars_lstrip.
  unfold strip_chars. apply rstrip_idem.
Qed.

Lemma strip_idem s : strip (strip s) = strip s.
Proof.
  unfold strip, chars, str. rewrite list_ascii_of_string_of_list_ascii.
  fold (strip_chars (list_ascii_of_string s)). rewrite strip_chars_idem.
  reflexivity.
Qed.

Lemma chars_app s t : chars (s ++ t) = (chars s ++ chars t)%list.
Proof.
  induction s as [|c s IH]; simpl; [reflexivity|]. unfold chars in *.
  simpl. rewrite IH. reflexivity.
Qed.

Lemma chars_inj s t : chars s = chars t -> s = t.
Proof.
  intros H. rewrite <- (str_chars s), <- (str_chars t), H. reflexivity.
Qed.

Lemma length_append s t :
  String.length (s ++ t) = (String.length s + String.length t)%nat.
Proof.
  induction s as [|c s IH]; simpl; [reflexivity|]. rewrite IH. reflexivity.
Qed.

End PyMoreFacts.

(* ================================================================== *)
(** * Properties of the local store *)
(* ================================================================== *)

Module DbFacts.
Import Db.
Local Open Scope Z_scope.

(** ** The commands table *)

Lemma existsb_copy_In cmd st :
  existsb (is_unprocessed_copy cmd) (commands st) = true
  <-> In cmd (unprocessed_texts st).
Proof.
  unfold unprocessed_texts, is_unprocessed_copy.
  rewrite existsb_exists, in_map_iff. split.
  - intros (r & Hin & Hr). apply andb_true_iff in Hr as [He Hp].
    apply String.eqb_eq in He. exists r. split; [exact He|].
    apply filter_In. auto.
  - intros (r & He & Hin). apply filter_In in Hin as [Hin Hp].
    exists r. split; [exact Hin|].
    apply andb_true_iff. split; [apply String.eqb_eq; exact He | exact Hp].
Qed.

Lemma In_unprocessed_copies cmd st r :
  In r (unprocessed_copies cmd st)
  <-> In r (commands st) /\ c_command r = cmd /\ c_processed r = false.
Proof.
  unfold unprocessed_copies, is_unprocessed_copy. rewrite filter_In.
  rewrite andb_true_iff, String.eqb_eq, negb_true_iff. tauto.
Qed.

Lemma filter_app_single {A} (p : A -> bool) l x :
  filter p (l ++ [x]) = filter p l ++ (if p x then [x] else []).
Proof. rewrite filter_app. reflexivity. Qed.

(** What an insertion does to the table. *)
Lemma store_raw_command_fresh now source cmd st :
  existsb (is_unprocessed_copy cmd) (commands st) = false ->
  store_raw_command now source cmd st
  = Store (learnings st) (learnings_seq st)
      (commands st
         ++ [Command (commands_seq st + 1) source cmd (CURRENT_TIMESTAMP now) false])
      (commands_seq st + 1).
Proof. intros H. unfold store_raw_command. rewrite H. reflexivity. Qed.

Lemma store_raw_command_present now source cmd st :
  existsb (is_unprocessed_copy cmd) (commands st) = true ->
  store_raw_command now source cmd st = st.
Proof. intros H. unfold store_raw_command. rewrite H. reflexivity. Qed.

Lemma unprocessed_texts_store now source cmd st :
  unprocessed_texts (store_raw_command now source cmd st)
  = if existsb (is_unprocessed_copy cmd) (commands st)
    then unprocessed_texts st
    else unprocessed_texts st ++ [cmd].
Proof.
  destruct (existsb (is_unprocessed_copy cmd) (commands st)) eqn:E.
  - rewrite store_raw_command_present by exact E. reflexivity.
  - rewrite store_raw_command_fresh by exact E.
    unfold unprocessed_texts. simpl.
    rewrite filter_app_single. simpl. rewrite map_app. reflexivity.
Qed.

Lemma NoDup_map_filter {A B} (f : A -> B) (p : A -> bool) l :
  NoDup (map f l) -> NoDup (map f (filter p l)).
Proof.
  induction l as [|x l IH]; simpl; intros H; [constructor|].
  inversion H as [|? ? Hx Hl]; subst.
  destruct (p x); simpl; [|auto].
  constructor; [|auto].
  intros Hin. apply Hx. apply in_map_iff in Hin as (y & Hy & Hin).
  apply filter_In in Hin as [Hin _]. apply in_map_iff. eauto.
Qed.

(** Marking rows only removes texts from the unprocessed ones. *)
Lemma unprocessed_after_mark ids l :
  filter (fun r => negb (c_processed r)) (map (processed ids) l)
  = filter (fun r => negb (mem_Z (c_id r) ids))
      (filter (fun r => negb (c_processed r)) l).
Proof.
  unfold processed. induction l as [|x l IH]; simpl; [reflexivity|].
  destruct (mem_Z (c_id x) ids) eqn:E; simpl.
  - destruct (c_processed x); simpl; rewrite ?E; simpl; exact IH.
  - destruct (c_processed x); simpl; rewrite ?E; simpl; rewrite IH; reflexivity.
Qed.

Lemma unprocessed_texts_mark ids st :
  NoDup (unprocessed_texts st) ->
  NoDup (unprocessed_texts (update_processed ids st)).
Proof.
  intros H. destruct ids as [|i ids]; [exact H|].
  unfold unprocessed_texts, update_processed. cbn [commands].
  rewrite unprocessed_after_mark. apply NoDup_map_filter. exact H.
Qed.

Lemma ids_bounded_store now source cmd st :
  ids_bounded st -> ids_bounded (store_raw_command now source cmd st).
Proof.
  intros H. unfold store_raw_command.
  destruct (existsb _ _); [exact H|].
  intros r Hin. simpl in *. apply in_app_iff in Hin as [Hin|[<-|[]]].
  - apply H in Hin. lia.
  - simpl. lia.
Qed.

Lemma ids_bounded_mark ids st :
  ids_bounded st -> ids_bounded (update_processed ids st).
Proof.
  intros H. destruct ids as [|i ids]; [exact H|].
  intros r Hin. cbn [update_processed commands commands_seq] in *.
  apply in_map_iff in Hin as (r0 & <- & Hin).
  apply H in Hin. unfold processed. destruct (mem_Z _ _); simpl; exact Hin.
Qed.

(** When [mark_commands_processed] returns, the [UPDATE] has run. *)
Lemma mark_commands_processed_Ok limit ids st st' :
  mark_commands_processed limit ids st = Py.Ok st' ->
  st' = update_processed ids st.
Proof.
  unfold mark_commands_processed. destruct ids as [|i ids].
  - intros H. injection H as <-. reflexivity.
  - destruct (limit <? _); [discriminate|].
    destruct (forallb int64 (i :: ids)); [|discriminate].
    intros H. injection H as <-. reflexivity.
Qed.

(** It returns for identifiers of 64 bits that are not too many. *)
Lemma mark_commands_processed_returns limit ids st :
  Z.of_nat (List.length ids) <= limit ->
  forallb int64 ids = true ->
  mark_commands_processed limit ids st = Py.Ok (update_processed ids st).
Proof.
  intros Hl Hi. unfold mark_commands_processed. destruct ids as [|i ids];
    [reflexivity|].
  rewrite Hi. destruct (limit <? _) eqn:E; [|reflexivity].
  apply Z.ltb_lt in E. lia.
Qed.

Lemma reachable_commands_inv st : reachable st -> commands_inv st.
Proof.
  induction 1 as [| now content tags st _ [IHn IHb]
                  | now lid st _ [IHn IHb]
                  | now source cmd st _ [IHn IHb]
                  | limit ids st st' _ [IHn IHb] Hm];
    [| | | |apply mark_commands_processed_Ok in Hm; subst st'].
  - split; [constructor | intros r []].
  - split; [exact IHn | exact IHb].
  - split; [exact IHn | exact IHb].
  - split; [| apply ids_bounded_store; exact IHb].
    rewrite unprocessed_texts_store.
    destruct (existsb _ _) eqn:E; [exact IHn|].
    apply NoDup_app; [exact IHn | repeat constructor; intros [] |].
    intros x Hx [<-|[]].
    apply existsb_copy_In in Hx. congruence.
  - split; [apply unprocessed_texts_mark; exact IHn
           | apply ids_bounded_mark; exact IHb].
Qed.

(** With distinct unprocessed texts, a text has at most one unprocessed
    row. *)
Lemma copies_at_most_one cmd l :
  NoDup (map c_command (filter (fun r => negb (c_processed r)) l)) ->
  (List.length (filter (is_unprocessed_copy cmd) l) <= 1)%nat.
Proof.
  induction l as [|x l IH]; simpl; intros H; [lia|].
  unfold is_unprocessed_copy at 1.
  destruct (c_processed x) eqn:Ep; simpl in H.
  - rewrite andb_false_r. auto.
  - inversion H as [|? ? Hx Hl]; subst.
    destruct (String.eqb_spec (c_command x) cmd) as [He|Hne]; simpl; [|auto].
    assert (Hnil : filter (is_unprocessed_copy cmd) l = []).
    { destruct (filter (is_unprocessed_copy cmd) l) as [|y t] eqn:F; [reflexivity|].
      exfalso. apply Hx.
      assert (Hy : In y (filter (is_unprocessed_copy cmd) l)) by (rewrite F; left; reflexivity).
      apply filter_In in Hy as [Hy Hc].
      apply andb_true_iff in Hc as [Hc1 Hc2].
      apply String.eqb_eq in Hc1.
      apply in_map_iff. exists y. split; [congruence|].
      apply filter_In. auto. }
    rewrite Hnil. simpl. lia.
Qed.

Lemma present_exactly_one cmd st :
  NoDup (unprocessed_texts st) ->
  In cmd (unprocessed_texts st) ->
  exists r, unprocessed_copies cmd st = [r].
Proof.
  intros Hn Hin.
  pose proof (copies_at_most_one cmd (commands st) Hn) as Hle.
  apply existsb_copy_In in Hin. apply existsb_exists in Hin as (r & Hr & Hc).
  assert (Hi : In r (unprocessed_copies cmd st)) by (apply filter_In; auto).
  unfold unprocessed_copies in *.
  destruct (filter (is_unprocessed_copy cmd) (commands st)) as [|a [|b t]];
    simpl in *; [contradiction | eauto | lia].
Qed.

Lemma present_after_store now source cmd st :
  In cmd (unprocessed_texts (store_raw_command now source cmd st)).
Proof.
  rewrite unprocessed_texts_store.
  destruct (existsb _ _) eqn:E.
  - apply existsb_copy_In. exact E.
  - apply in_app_iff. right. left. reflexivity.
Qed.

Lemma no_copy_after_mark cmd ids st r :
  unprocessed_copies cmd st = [r] ->
  In (c_id r) ids ->
  unprocessed_copies cmd (update_processed ids st) = [].
Proof.
  intros Hone Hid.
  destruct (unprocessed_copies cmd (update_processed ids st))
    as [|y t] eqn:F; [reflexivity|exfalso].
  assert (Hy : In y (unprocessed_copies cmd (update_processed ids st)))
    by (rewrite F; left; reflexivity).
  apply In_unprocessed_copies in Hy as (Hin & Hc & Hp).
  destruct ids as [|i ids]; [contradiction|].
  cbn [update_processed commands] in Hin.
  apply in_map_iff in Hin as (r0 & Hr0 & Hin0). unfold processed in Hr0.
  destruct (mem_Z (c_id r0) (i :: ids)) eqn:Em.
  - subst y. simpl in Hp. discriminate.
  - subst y.
    assert (H0 : In r0 (unprocessed_copies cmd st))
      by (apply In_unprocessed_copies; auto).
    rewrite Hone in H0. destruct H0 as [<-|[]].
    unfold mem_Z in Em.
    assert (Ht : existsb (Z.eqb (c_id r)) (i :: ids) = true).
    { apply existsb_exists. exists (c_id r). split; [exact Hid | apply Z.eqb_refl]. }
    congruence.
Qed.

Lemma copies_nil_existsb cmd st :
  unprocessed_copies cmd st = [] ->
  existsb (is_unprocessed_copy cmd) (commands st) = false.
Proof.
  intros H. destruct (existsb _ _) eqn:E; [|reflexivity].
  apply existsb_exists in E as (r & Hin & Hr).
  assert (Hi : In r (unprocessed_copies cmd st)) by (apply filter_In; auto).
  rewrite H in Hi. contradiction.
Qed.

(** A rowid of a reachable one-row table fits 64 bits: what is needed
    to mark one row. *)
Lemma reachable_one_processed : reachable one_processed.
Proof.
  apply (reach_mark_commands_processed 999 [1] one_collected).
  - apply reach_store_raw_command. apply reach_init.
  - reflexivity.
Qed.

(** C1.  In every reachable state of the store the unprocessed rows of
    the commands table carry pairwise distinct command texts.  Storing
    the same text twice leaves the table as the first call left it, with
    exactly one unprocessed row for the text; once that row is marked
    processed (the store [mark_commands_processed] leaves whenever it
    returns), storing the text again appends a new unprocessed row under
    a rowid no row of the table has. *)
Theorem store_raw_command_dedup :
  forall st, reachable st ->
    NoDup (unprocessed_texts st)
    /\ forall now1 now2 now3 src1 src2 src3 cmd,
        let st1 := store_raw_command now1 src1 cmd st in
        let st2 := store_raw_command now2 src2 cmd st1 in
        st2 = st1
        /\ exists r,
            unprocessed_copies cmd st2 = [r]
            /\ forall ids, In (c_id r) ids ->
                let st3 := update_processed ids st2 in
                let row := Command (commands_seq st3 + 1) src3 cmd
                                   (CURRENT_TIMESTAMP now3) false in
                (forall limit st',
                    mark_commands_processed limit ids st2 = Py.Ok st' ->
                    st' = st3)
                /\ (forall limit,
                       Z.of_nat (List.length ids) <= limit ->
                       forallb int64 ids = true ->
                       mark_commands_processed limit ids st2 = Py.Ok st3)
                /\ unprocessed_copies cmd st3 = []
                /\ commands (store_raw_command now3 src3 cmd st3)
                   = commands st3 ++ [row]
                /\ (forall r', In r' (commands st3) -> c_id r' <> c_id row)
                /\ unprocessed_copies cmd (store_raw_command now3 src3 cmd st3)
                   = [row].
Proof.
  intros st Hreach.
  split; [apply reachable_commands_inv; exact Hreach|].
  intros now1 now2 now3 src1 src2 src3 cmd st1 st2.
  assert (R1 : reachable st1) by (apply reach_store_raw_command; exact Hreach).
  destruct (reachable_commands_inv _ R1) as [Hn1 Hb1].
  assert (Hin1 : In cmd (unprocessed_texts st1)) by apply present_after_store.
  assert (E21 : st2 = st1).
  { apply store_raw_command_present. apply existsb_copy_In. exact Hin1. }
  split; [exact E21|].
  destruct (present_exactly_one cmd st1 Hn1 Hin1) as (r & Hr).
  exists r. rewrite E21. split; [exact Hr|].
  intros ids Hid st3 row.
  split; [intros limit st' Hm; apply (mark_commands_processed_Ok _ _ _ _ Hm)|].
  split; [intros limit Hl Hi; apply mark_commands_processed_returns; assumption|].
  pose proof (ids_bounded_mark ids st1 Hb1) as Hb3. fold st3 in Hb3.
  assert (Hnil : unprocessed_copies cmd st3 = [])
    by (eapply no_copy_after_mark; eauto).
  pose proof (copies_nil_existsb _ _ Hnil) as Hex.
  rewrite (store_raw_command_fresh now3 src3 _ _ Hex).
  simpl commands.
  repeat split.
  - exact Hnil.
  - intros r' Hin' Heq. apply Hb3 in Hin'. subst row. simpl in Heq. lia.
  - unfold unprocessed_copies in *. simpl commands.
    rewrite filter_app_single. rewrite Hnil. simpl.
    unfold is_unprocessed_copy. simpl. rewrite String.eqb_refl. reflexivity.
Qed.

(** [store_raw_command_dedup] at a store that holds one processed row. *)
Lemma store_raw_command_dedup_witness :
  reachable one_processed
  /\ NoDup (unprocessed_texts one_processed)
  /\ store_raw_command 3000 "bash_history" "make test"
       (store_raw_command 2000 "zsh_history" "make test" one_processed)
     = store_raw_command 2000 "zsh_history" "make test" one_processed.
Proof.
  pose proof reachable_one_processed as R.
  destruct (store_raw_command_dedup one_processed R) as [H1 H2].
  split; [exact R|]. split; [exact H1|].
  exact (proj1 (H2 2000 3000 4000 "zsh_history" "bash_history" "zsh_history"
                   "make test")).
Defined.


(** ** [ORDER BY] *)

Section Sorting.
Context {A : Type} (before : A -> A -> bool).
Hypothesis before_total : forall x y, before x y = false -> before y x = true.
Hypothesis before_trans :
  forall x y z, before x y = true -> before y z = true -> before x z = true.

Let R (x y : A) : Prop := before x y = true.

Lemma insert_by_perm x l : Permutation (insert_by before x l) (x :: l).
Proof.
  induction l as [|y l IH]; simpl; [reflexivity|].
  destruct (before x y); [reflexivity|].
  rewrite IH. apply perm_swap.
Qed.

Lemma sort_by_perm l : Permutation (sort_by before l) l.
Proof.
  induction l as [|x l IH]; simpl; [reflexivity|].
  rewrite insert_by_perm. constructor. exact IH.
Qed.

Lemma sort_by_In x l : In x (sort_by before l) <-> In x l.
Proof.
  split; apply Permutation_in; [|symmetry]; apply sort_by_perm.
Qed.

Lemma insert_by_sorted x l :
  StronglySorted R l -> StronglySorted R (insert_by before x l).
Proof.
  induction 1 as [|y l Hs IH Hall]; simpl.
  - constructor; constructor.
  - destruct (before x y) eqn:E.
    + constructor; [constructor; assumption|].
      constructor; [exact E|].
      eapply Forall_impl; [|exact Hall].
      intros z Hz. eapply before_trans; eassumption.
    + constructor; [exact IH|].
      eapply Permutation_Forall; [symmetry; apply insert_by_perm|].
      constructor; [apply before_total; exact E | exact Hall].
Qed.

Lemma sort_by_sorted l : StronglySorted R (sort_by before l).
Proof.
  induction l as [|x l IH]; simpl; [constructor|].
  apply insert_by_sorted. exact IH.
Qed.
End Sorting.

Lemma asc_sorted {A} (key : A -> Z) l :
  StronglySorted (fun x y => key x <= key y) (sort_by (asc key) l).
Proof.
  eapply StronglySorted_ind with
    (P := StronglySorted (fun x y => key x <= key y));
    [constructor | | apply (sort_by_sorted (asc key))].
  - intros a t _ IH Hall. constructor; [exact IH|].
    eapply Forall_impl; [|exact Hall]. intros b Hb. apply Z.leb_le. exact Hb.
  - unfold asc. intros x y H. apply Z.leb_le. apply Z.leb_gt in H. lia.
  - unfold asc. intros x y z H1 H2. apply Z.leb_le.
    apply Z.leb_le in H1, H2. lia.
Qed.

Lemma desc_sorted {A} (key : A -> Z) l :
  StronglySorted (fun x y => key y <= key x) (sort_by (desc key) l).
Proof.
  eapply StronglySorted_ind with
    (P := StronglySorted (fun x y => key y <= key x));
    [constructor | | apply (sort_by_sorted (desc key))].
  - intros a t _ IH Hall. constructor; [exact IH|].
    eapply Forall_impl; [|exact Hall]. intros b Hb. apply Z.leb_le. exact Hb.
  - unfold desc. intros x y H. apply Z.leb_le. apply Z.leb_gt in H. lia.
  - unfold desc. intros x y z H1 H2. apply Z.leb_le.
    apply Z.leb_le in H1, H2. lia.
Qed.

(** ** Flashcards *)

Lemma older_than_spec now t d :
  older_than now t d = true <-> d * ms_per_day < now - t.
Proof. unfold older_than. rewrite Z.gtb_lt. reflexivity. Qed.

Lemma within_spec now t d :
  within now t d = true <-> now - t <= d * ms_per_day.
Proof. unfold within. apply Z.leb_le. Qed.

Lemma In_due now st l :
  In l (due now st)
  <-> In l (learnings st) /\ 3 * ms_per_day < now - l_last_reviewed l.
Proof. unfold due. rewrite filter_In, older_than_spec. reflexivity. Qed.

Lemma get_due_flashcard_some now st r :
  get_due_flashcard now st = Some r ->
  In r (due now st)
  /\ forall l, In l (due now st) -> l_last_reviewed r <= l_last_reviewed l.
Proof.
  unfold get_due_flashcard. fold (due now st).
  pose proof (asc_sorted l_last_reviewed (due now st)) as Hs.
  pose proof (sort_by_In (asc l_last_reviewed)) as HIn.
  destruct (sort_by (asc l_last_reviewed) (due now st)) as [|h t] eqn:E;
    simpl; [discriminate|].
  intros [= <-]. split.
  - apply (HIn h (due now st)). rewrite E. left. reflexivity.
  - intros l Hl. apply (HIn l (due now st)) in Hl. rewrite E in Hl.
    inversion Hs as [|? ? _ Hall]; subst.
    destruct Hl as [<-|Hl]; [lia|].
    rewrite Forall_forall in Hall. apply Hall. exact Hl.
Qed.

Lemma get_due_flashcard_none now st :
  get_due_flashcard now st = None -> due now st = [].
Proof.
  unfold get_due_flashcard. fold (due now st). intros H.
  destruct (due now st) as [|x l] eqn:E; [reflexivity|exfalso].
  pose proof (sort_by_In (asc l_last_reviewed) x (x :: l)) as HIn.
  destruct (sort_by (asc l_last_reviewed) (x :: l)); [|discriminate].
  apply HIn. left. reflexivity.
Qed.

(** C2.  [get_due_flashcard] answers [None] when every learning was
    reviewed within three days of now.  Otherwise it answers one
    learning of the table, reviewed more than three days ago, and no
    learning reviewed more than three days ago has an older
    last-reviewed instant.  Whatever it answers was reviewed more than
    three days ago. *)
Theorem get_due_flashcard_spec :
  forall now st,
    ((forall l, In l (learnings st) ->
                now - l_last_reviewed l <= 3 * ms_per_day) ->
     get_due_flashcard now st = None)
    /\ ((exists l, In l (learnings st)
                   /\ 3 * ms_per_day < now - l_last_reviewed l) ->
        exists r, get_due_flashcard now st = Some r
                  /\ In r (learnings st)
                  /\ 3 * ms_per_day < now - l_last_reviewed r
                  /\ forall l, In l (learnings st) ->
                               3 * ms_per_day < now - l_last_reviewed l ->
                               l_last_reviewed r <= l_last_reviewed l)
    /\ (forall r, get_due_flashcard now st = Some r ->
                  In r (learnings st)
                  /\ 3 * ms_per_day < now - l_last_reviewed r).
Proof.
  intros now st. split; [|split].
  - intros Hall. destruct (get_due_flashcard now st) as [r|] eqn:E; [|reflexivity].
    apply get_due_flashcard_some in E as [Hr _].
    apply In_due in Hr as [Hin Hold]. apply Hall in Hin. lia.
  - intros (l & Hin & Hold).
    destruct (get_due_flashcard now st) as [r|] eqn:E.
    + exists r. apply get_due_flashcard_some in E as [Hr Hmin].
      apply In_due in Hr as [Hrin Hrold].
      repeat split; try assumption.
      intros l' Hin' Hold'. apply Hmin. apply In_due. auto.
    + apply get_due_flashcard_none in E.
      assert (Hd : In l (due now st)) by (apply In_due; auto).
      rewrite E in Hd. contradiction.
  - intros r E. apply get_due_flashcard_some in E as [Hr _].
    apply In_due in Hr. exact Hr.
Qed.

(** The row a review leaves in place of [l]. *)
Lemma mark_flashcard_reviewed_learnings now learning_id st :
  learnings (mark_flashcard_reviewed now learning_id st)
  = map (reviewed now learning_id) (learnings st).
Proof. reflexivity. Qed.

(** X4.  [mark_flashcard_reviewed] rewrites the rows in place: a row with
    the given identifier gets the current timestamp as its last-reviewed
    instant and a review count larger by one, every other row and the
    commands table stay as they are, and the store does not change at all
    when no row has the identifier. *)
Theorem mark_flashcard_reviewed_spec :
  forall now learning_id st,
    let st' := mark_flashcard_reviewed now learning_id st in
    learnings st' = map (reviewed now learning_id) (learnings st)
    /\ (forall l, l_id l = learning_id ->
                  l_last_reviewed (reviewed now learning_id l)
                  = CURRENT_TIMESTAMP now
                  /\ l_review_count (reviewed now learning_id l)
                     = l_review_count l + 1
                  /\ l_id (reviewed now learning_id l) = l_id l
                  /\ l_content (reviewed now learning_id l) = l_content l
                  /\ l_tags (reviewed now learning_id l) = l_tags l
                  /\ l_timestamp (reviewed now learning_id l) = l_timestamp l)
    /\ (forall l, l_id l <> learning_id -> reviewed now learning_id l = l)
    /\ commands st' = commands st
    /\ ((forall l, In l (learnings st) -> l_id l <> learning_id) -> st' = st).
Proof.
  intros now learning_id st st'. split; [reflexivity|].
  split; [|split; [|split; [reflexivity|]]].
  - intros l Hl. unfold reviewed. apply Z.eqb_eq in Hl. rewrite Hl.
    repeat split.
  - intros l Hl. unfold reviewed. apply Z.eqb_neq in Hl. rewrite Hl.
    reflexivity.
  - intros Hnone. subst st'. unfold mark_flashcard_reviewed.
    destruct st as [ls lseq cs cseq]. simpl in *. f_equal.
    induction ls as [|l ls IH]; [reflexivity|]. simpl.
    rewrite IH by (intros l' Hl'; apply Hnone; right; exact Hl').
    unfold reviewed.
    assert (Hl : l_id l <> learning_id) by (apply Hnone; left; reflexivity).
    apply Z.eqb_neq in Hl. rewrite Hl. reflexivity.
Qed.

(** ** Learnings *)

Lemma learnings_since_In now days st l :
  In l (learnings_since now days st)
  <-> In l (learnings st) /\ now - l_timestamp l <= days * ms_per_day.
Proof.
  unfold learnings_since.
  rewrite (sort_by_In (desc l_timestamp)), filter_In, within_spec.
  reflexivity.
Qed.

Lemma learnings_since_sorted now days st :
  StronglySorted (fun a b => l_timestamp b <= l_timestamp a)
                 (learnings_since now days st).
Proof. apply desc_sorted. Qed.

Lemma int64_spec n : int64 n = true <-> - 2 ^ 63 <= n < 2 ^ 63.
Proof. unfold int64. rewrite andb_true_iff, Z.leb_le, Z.ltb_lt. tauto. Qed.

Lemma get_learnings_since_Ok now days st :
  - 2 ^ 63 <= days < 2 ^ 63 ->
  get_learnings_since now days st = Py.Ok (learnings_since now days st).
Proof.
  intros H. apply int64_spec in H. unfold get_learnings_since.
  rewrite H. reflexivity.
Qed.

(** C3, as the code has it.  Once [add_learning] has returned, when
    [days] fits 64 bits and the query runs no later than [days] days
    after the creation timestamp the insertion stored,
    [get_learnings_since days] returns, and its answer holds the
    inserted row: its content is the input content and its tags decode
    to the input tag list.  The answer is in descending order of
    creation timestamp.  For a [days] beyond 64 bits the query raises
    [OverflowError], whatever the store holds. *)
Theorem add_learning_then_get_learnings_since :
  forall st content tags now_add now_get days,
    let row_id := fst (add_learning now_add content (Some tags) st) in
    let st' := snd (add_learning now_add content (Some tags) st) in
    (- 2 ^ 63 <= days < 2 ^ 63 ->
     now_get - CURRENT_TIMESTAMP now_add <= days * ms_per_day ->
     exists rows,
       get_learnings_since now_get days st' = Py.Ok rows
       /\ (exists r, In r rows
                     /\ l_id r = row_id
                     /\ l_content r = content
                     /\ Json.loads (l_tags r) = Some tags)
       /\ StronglySorted (fun a b => l_timestamp b <= l_timestamp a) rows)
    /\ (days < - 2 ^ 63 \/ 2 ^ 63 <= days ->
        get_learnings_since now_get days st' = Py.Raise Py.OverflowError).
Proof.
  intros st content tags now_add now_get days row_id st'. split.
  - intros Hd Hwin. exists (learnings_since now_get days st').
    split; [apply get_learnings_since_Ok; exact Hd|].
    split; [|apply learnings_since_sorted].
    exists (Learning row_id content (CURRENT_TIMESTAMP now_add)
                     (Json.dumps tags) (CURRENT_TIMESTAMP now_add) 0).
    split; [|repeat split; simpl; apply JsonFacts.loads_dumps].
    apply learnings_since_In. split; [|exact Hwin].
    subst st'. simpl. apply in_app_iff. right. left. reflexivity.
  - intros Hd. unfold get_learnings_since.
    destruct (int64 days) eqn:E; [|reflexivity].
    apply int64_spec in E. lia.
Qed.

Lemma add_learning_then_get_learnings_since_witness :
  (exists rows,
      get_learnings_since 1510 1
        (snd (add_learning 1500 "rebase before merge"
                (Some ["git"; "workflow"]) empty_store))
      = Py.Ok rows
      /\ exists r,
          In r rows
          /\ l_id r = 1
          /\ l_content r = "rebase before merge"
          /\ Json.loads (l_tags r) = Some ["git"; "workflow"])
  /\ get_learnings_since 1510 (2 ^ 63)
       (snd (add_learning 1500 "rebase before merge"
               (Some ["git"; "workflow"]) empty_store))
     = Py.Raise Py.OverflowError.
Proof.
  destruct (add_learning_then_get_learnings_since
              empty_store "rebase before merge" ["git"; "workflow"]
              1500 1510 1) as [H _].
  destruct (H ltac:(lia) ltac:(vm_compute; discriminate))
    as (rows & E & R & _).
  split; [exists rows; split; [exact E | exact R]|].
  exact (proj2 (add_learning_then_get_learnings_since
                  empty_store "rebase before merge" ["git"; "workflow"]
                  1500 1510 (2 ^ 63)) ltac:(lia)).
Defined.

(** C3 as the specification words it fails for [days = 0]: the creation
    timestamp is cut to the second, the query reads the clock to the
    millisecond, so a row inserted at 1.500 s is already 500 ms old
    when it is looked up 10 ms later. *)
Lemma get_learnings_since_zero_days_misses_new_row :
  get_learnings_since 1510 0
    (snd (add_learning 1500 "rebase before merge"
            (Some ["git"; "workflow"]) empty_store))
  = Py.Ok [].
Proof. reflexivity. Qed.

End DbFacts.

(* ================================================================== *)
(** * More properties of the local store *)
(* ================================================================== *)

Module DbMoreFacts.
Import Db DbFacts.
Local Open Scope Z_scope.

(** ** Rowids *)

Lemma rowids_S n : rowids (S n) = rowids n ++ [Z.of_nat (S n)].
Proof. unfold rowids. rewrite seq_S, map_app. reflexivity. Qed.

Lemma rowids_NoDup n : NoDup (rowids n).
Proof.
  unfold rowids. apply Finite.Injective_map_NoDup; [|apply seq_NoDup].
  intros a b H. apply Nat2Z.inj. exact H.
Qed.

Lemma map_l_id_reviewed now learning_id l :
  map l_id (map (reviewed now learning_id) l) = map l_id l.
Proof.
  rewrite map_map. apply map_ext. intros a. unfold reviewed.
  destruct (l_id a =? learning_id); reflexivity.
Qed.

Lemma map_c_id_processed ids l :
  map c_id (map (processed ids) l) = map c_id l.
Proof.
  rewrite map_map. apply map_ext. intros a. unfold processed.
  destruct (mem_Z (c_id a) ids); reflexivity.
Qed.

(** The rowids of both tables, as [AUTOINCREMENT] hands them out. *)
Definition numbered (st : store) : Prop :=
  map l_id (learnings st) = rowids (List.length (learnings st))
  /\ learnings_seq st = Z.of_nat (List.length (learnings st))
  /\ map c_id (commands st) = rowids (List.length (commands st))
  /\ commands_seq st = Z.of_nat (List.length (commands st)).

Lemma reachable_numbered st : reachable st -> numbered st.
Proof.
  induction 1 as [| now content tags st _ (L1 & L2 & C1 & C2)
                  | now lid st _ (L1 & L2 & C1 & C2)
                  | now source cmd st _ (L1 & L2 & C1 & C2)
                  | limit ids st st' _ (L1 & L2 & C1 & C2) Hm];
    unfold numbered.
  - repeat split.
  - cbn [add_learning snd learnings learnings_seq commands commands_seq].
    rewrite map_app, length_app, L1. simpl List.length.
    replace (List.length (learnings st) + 1)%nat
      with (S (List.length (learnings st))) by lia.
    rewrite rowids_S, L2. simpl map.
    repeat split; try assumption.
    + do 2 f_equal. lia.
    + lia.
  - cbn [mark_flashcard_reviewed learnings learnings_seq commands commands_seq].
    rewrite map_l_id_reviewed, length_map. auto.
  - unfold store_raw_command. destruct (existsb _ _); [unfold numbered; auto|].
    cbn [learnings learnings_seq commands commands_seq].
    rewrite map_app, length_app, C1. simpl List.length.
    replace (List.length (commands st) + 1)%nat
      with (S (List.length (commands st))) by lia.
    rewrite rowids_S, C2. simpl map.
    repeat split; try assumption.
    + do 2 f_equal. lia.
    + lia.
  - apply mark_commands_processed_Ok in Hm. subst st'.
    destruct ids as [|i ids]; [unfold numbered; auto|].
    cbn [update_processed learnings learnings_seq commands commands_seq].
    rewrite map_c_id_processed, length_map. auto.
Qed.

(** X6.  In every reachable store the learnings carry the rowids 1, 2,
    ..., in table order, and so do the commands; the counters equal the
    numbers of rows.  No two rows of a table share a rowid, and a rowid is
    never handed out twice. *)
Theorem rowids_of_reachable_store :
  forall st, reachable st ->
    map l_id (learnings st) = rowids (List.length (learnings st))
    /\ learnings_seq st = Z.of_nat (List.length (learnings st))
    /\ map c_id (commands st) = rowids (List.length (commands st))
    /\ commands_seq st = Z.of_nat (List.length (commands st))
    /\ NoDup (map l_id (learnings st))
    /\ NoDup (map c_id (commands st)).
Proof.
  intros st H. destruct (reachable_numbered st H) as (L1 & L2 & C1 & C2).
  repeat split; try assumption.
  - rewrite L1. apply rowids_NoDup.
  - rewrite C1. apply rowids_NoDup.
Qed.

Lemma rowids_of_reachable_store_witness :
  reachable one_processed
  /\ map c_id (commands one_processed) = rowids 1
  /\ commands_seq one_processed = 1.
Proof.
  pose proof reachable_one_processed as R.
  destruct (rowids_of_reachable_store one_processed R)
    as (_ & _ & C1 & C2 & _).
  split; [exact R|]. split; [exact C1 | exact C2].
Defined.

(** ** Nothing is deleted or rewritten *)

Section Continues.
Context {A B : Type} (facts : A -> B) (keeps : A -> A -> Prop).
Hypothesis keeps_refl : forall x, keeps x x.
Hypothesis keeps_trans : forall x y z, keeps x y -> keeps y z -> keeps x z.

Lemma continues_app l more : continues facts keeps l (l ++ more).
Proof.
  induction l as [|x l IH]; simpl; constructor; auto.
Qed.

Lemma continues_refl l : continues facts keeps l l.
Proof. rewrite <- (app_nil_r l) at 2. apply continues_app. Qed.

Lemma continues_map (f : A -> A) l :
  (forall x, facts x = facts (f x)) -> (forall x, keeps x (f x)) ->
  continues facts keeps l (map f l).
Proof.
  intros Hf Hk. induction l as [|x l IH]; simpl; constructor; auto.
Qed.

Lemma continues_trans l1 l2 l3 :
  continues facts keeps l1 l2 -> continues facts keeps l2 l3 ->
  continues facts keeps l1 l3.
Proof.
  intros H. revert l3. induction H as [more | x x' l l' Hf Hk _ IH];
    intros l3 H2.
  - constructor.
  - inversion H2 as [|y y' m m' Hf' Hk' Hc]; subst.
    constructor; [congruence | eauto | auto].
Qed.

(** The facts of the old rows are the facts of the first new rows. *)
Lemma continues_facts l l' :
  continues facts keeps l l' ->
  exists more, map facts l' = map facts l ++ more.
Proof.
  induction 1 as [more | x x' l l' Hf _ _ (more & IH)].
  - exists (map facts more). reflexivity.
  - exists more. simpl. rewrite IH, Hf. reflexivity.
Qed.
End Continues.

Lemma review_grows_refl l : review_grows l l.
Proof. unfold review_grows. lia. Qed.

Lemma review_grows_trans a b c :
  review_grows a b -> review_grows b c -> review_grows a c.
Proof. unfold review_grows. lia. Qed.

Lemma stays_processed_refl r : stays_processed r r.
Proof. unfold stays_processed. auto. Qed.

Lemma stays_processed_trans a b c :
  stays_processed a b -> stays_processed b c -> stays_processed a c.
Proof. unfold stays_processed. auto. Qed.

Lemma grows_refl st : grows st st.
Proof.
  split; apply continues_refl;
    [apply review_grows_refl | apply stays_processed_refl].
Qed.

Lemma grows_trans st1 st2 st3 : grows st1 st2 -> grows st2 st3 -> grows st1 st3.
Proof.
  intros [L1 C1] [L2 C2]. split.
  - eapply continues_trans; [apply review_grows_trans | exact L1 | exact L2].
  - eapply continues_trans; [apply stays_processed_trans | exact C1 | exact C2].
Qed.

Lemma step_grows st st' : write st st' -> grows st st'.
Proof.
  destruct 1 as [now content tags st | now lid st | now source cmd st
                | limit ids st st' Hm].
  - split; cbn [add_learning snd learnings commands].
    + apply continues_app. apply review_grows_refl.
    + apply continues_refl. apply stays_processed_refl.
  - split; cbn [mark_flashcard_reviewed learnings commands].
    + apply continues_map; intros x; unfold reviewed, review_grows;
        destruct (l_id x =? lid); simpl; try reflexivity; lia.
    + apply continues_refl. apply stays_processed_refl.
  - unfold store_raw_command. destruct (existsb _ _); [apply grows_refl|].
    split; cbn [learnings commands].
    + apply continues_refl. apply review_grows_refl.
    + apply continues_app. apply stays_processed_refl.
  - apply mark_commands_processed_Ok in Hm. subst st'.
    destruct ids as [|i ids]; [apply grows_refl|].
    split; cbn [update_processed learnings commands].
    + apply continues_refl. apply review_grows_refl.
    + apply continues_map; intros x; unfold processed, stays_processed;
        destruct (mem_Z (c_id x) (i :: ids)); simpl; auto.
Qed.

(** X7.  Whatever sequence of writing operations leads from one store to
    another, no row is deleted, moved or rewritten: the old learnings are
    the first learnings of the new store with the same rowid, content,
    creation timestamp and tags, and a review count that is not smaller;
    the old commands are the first commands of the new store with the
    same rowid, source, text and timestamp, and a command that was
    processed is still processed. *)
Theorem writes_keep_rows :
  forall st st', writes st st' ->
    continues learning_facts review_grows (learnings st) (learnings st')
    /\ continues command_facts stays_processed (commands st) (commands st')
    /\ (exists more,
          map learning_facts (learnings st')
          = map learning_facts (learnings st) ++ more)
    /\ (exists more,
          map command_facts (commands st')
          = map command_facts (commands st) ++ more).
Proof.
  intros st st' H.
  assert (G : grows st st').
  { induction H as [st | st1 st2 st3 _ IH Hs]; [apply grows_refl|].
    eapply grows_trans; [exact IH | apply step_grows; exact Hs]. }
  destruct G as [L C]. repeat split; try assumption.
  - eapply continues_facts. exact L.
  - eapply continues_facts. exact C.
Qed.

(** The store for examples five operations later. *)
Lemma writes_busy_later : writes busy_store later_store.
Proof.
  unfold later_store.
  eapply writes_step; [|apply write_store_raw_command].
  eapply writes_step;
    [|apply (write_mark_commands_processed 999 [1]); reflexivity].
  eapply writes_step; [apply writes_refl|].
  apply write_mark_flashcard_reviewed.
Qed.

Lemma writes_keep_rows_witness :
  writes busy_store later_store
  /\ continues learning_facts review_grows
       (learnings busy_store) (learnings later_store)
  /\ continues command_facts stays_processed
       (commands busy_store) (commands later_store)
  /\ map l_review_count (learnings busy_store) = [0]
  /\ map l_review_count (learnings later_store) = [1]
  /\ map c_processed (commands busy_store) = [false; false]
  /\ map c_processed (commands later_store) = [true; false; false]
  /\ map command_facts (commands later_store)
     = map command_facts (commands busy_store)
         ++ [(3, "zsh_history", "make test", 9000)].
Proof.
  pose proof writes_busy_later as S.
  destruct (writes_keep_rows busy_store later_store S) as (L & C & _).
  split; [exact S|]. split; [exact L|]. split; [exact C|].
  repeat split; reflexivity.
Defined.

Lemma writes_trans st1 st2 st3 : writes st1 st2 -> writes st2 st3 -> writes st1 st3.
Proof.
  intros H12 H23. induction H23 as [|st2 st3 st4 _ IH Hs]; [exact H12|].
  eapply writes_step; [apply IH; exact H12 | exact Hs].
Qed.

(** ** Emptying the queue of unprocessed commands *)

Lemma get_unprocessed_commands_In st r :
  In r (get_unprocessed_commands st)
  <-> In r (commands st) /\ c_processed r = false.
Proof.
  unfold get_unprocessed_commands.
  rewrite (sort_by_In (asc c_timestamp)), filter_In, negb_true_iff.
  reflexivity.
Qed.

Lemma filter_none {A} (p : A -> bool) l :
  (forall x, In x l -> p x = false) -> filter p l = [].
Proof.
  induction l as [|x l IH]; simpl; intros H; [reflexivity|].
  rewrite (H x) by (left; reflexivity). apply IH. intros y Hy. apply H.
  right. exact Hy.
Qed.

Lemma mark_all_leaves_none st :
  filter (fun r => negb (c_processed r))
    (commands (update_processed
                 (map c_id (get_unprocessed_commands st)) st)) = [].
Proof.
  destruct (map c_id (get_unprocessed_commands st)) as [|i ids] eqn:E.
  - simpl. apply filter_none. intros r Hr. apply negb_false_iff.
    destruct (c_processed r) eqn:P; [reflexivity|exfalso].
    assert (Hin : In r (get_unprocessed_commands st))
      by (apply get_unprocessed_commands_In; auto).
    apply (in_map c_id) in Hin. rewrite E in Hin. exact Hin.
  - cbn [update_processed commands]. rewrite unprocessed_after_mark.
    apply filter_none. intros r Hr. apply filter_In in Hr as [Hr Hp].
    apply negb_true_iff in Hp. apply negb_false_iff.
    apply existsb_exists. exists (c_id r). split; [|apply Z.eqb_refl].
    rewrite <- E. apply in_map. apply get_unprocessed_commands_In. auto.
Qed.

(** More identifiers than SQLite takes variables: the statement is
    refused. *)
Lemma mark_commands_processed_too_many limit ids st :
  0 <= limit -> limit < Z.of_nat (List.length ids) ->
  mark_commands_processed limit ids st = Py.Raise Py.OperationalError.
Proof.
  intros H0 Hl. unfold mark_commands_processed.
  destruct ids as [|i ids]; [simpl in Hl; lia|].
  destruct (limit <? _) eqn:E; [reflexivity|].
  apply Z.ltb_ge in E. lia.
Qed.

(** X8.  Marking the rowids of the commands that
    [get_unprocessed_commands] answers.  When the queue is not longer
    than [SQLITE_LIMIT_VARIABLE_NUMBER] and its rowids fit 64 bits,
    [mark_commands_processed] returns and the queue is empty:
    [get_unprocessed_commands] then answers nothing, and the next
    [store_raw_command] appends a row whatever its text, also a text that
    is already in the table.  When the queue is longer than the limit,
    it raises [OperationalError] and the store is as it was: the queue
    is as long as before. *)
Theorem mark_all_unprocessed_empties_queue :
  forall limit st,
    let ids := map c_id (get_unprocessed_commands st) in
    (Z.of_nat (List.length ids) <= limit ->
     forallb int64 ids = true ->
     exists st',
       mark_commands_processed limit ids st = Py.Ok st'
       /\ get_unprocessed_commands st' = []
       /\ forall now source cmd,
           commands (store_raw_command now source cmd st')
           = commands st'
               ++ [Command (commands_seq st' + 1) source cmd
                           (CURRENT_TIMESTAMP now) false])
    /\ (0 <= limit -> limit < Z.of_nat (List.length ids) ->
        mark_commands_processed limit ids st = Py.Raise Py.OperationalError
        /\ forall st', mark_commands_processed limit ids st <> Py.Ok st').
Proof.
  intros limit st ids. split.
  - intros Hl Hi. exists (update_processed ids st).
    split; [apply mark_commands_processed_returns; assumption|].
    pose proof (mark_all_leaves_none st) as H. fold ids in H.
    set (st' := update_processed ids st) in *. split.
    + unfold get_unprocessed_commands. rewrite H. reflexivity.
    + intros now source cmd. rewrite store_raw_command_fresh; [reflexivity|].
      destruct (existsb (is_unprocessed_copy cmd) (commands st')) eqn:E;
        [|reflexivity].
      apply existsb_exists in E as (r & Hr & Hc).
      unfold is_unprocessed_copy in Hc. apply andb_true_iff in Hc as [_ Hp].
      assert (Hin : In r (filter (fun r => negb (c_processed r))
                            (commands st')))
        by (apply filter_In; auto).
      rewrite H in Hin. contradiction.
  - intros H0 Hl.
    rewrite (mark_commands_processed_too_many limit ids st H0 Hl).
    split; [reflexivity | discriminate].
Qed.

Lemma mark_all_unprocessed_empties_queue_witness :
  (exists st',
      mark_commands_processed 2 [1; 2] busy_store = Py.Ok st'
      /\ get_unprocessed_commands st' = [])
  /\ mark_commands_processed 1 [1; 2] busy_store
     = Py.Raise Py.OperationalError.
Proof.
  destruct (mark_all_unprocessed_empties_queue 2 busy_store) as [H _].
  destruct (H ltac:(vm_compute; discriminate) eq_refl) as (st' & M & Q & _).
  split; [exists st'; split; [exact M | exact Q]|].
  destruct (mark_all_unprocessed_empties_queue 1 busy_store) as [_ H'].
  exact (proj1 (H' ltac:(lia) ltac:(vm_compute; reflexivity))).
Defined.

(** A queue of two commands: a library that takes two variables marks
    both, one that takes a single variable refuses the statement. *)
Lemma mark_all_unprocessed_examples :
  map c_id (get_unprocessed_commands busy_store) = [1; 2]
  /\ mark_commands_processed 2 [1; 2] busy_store
     = Py.Ok (update_processed [1; 2] busy_store)
  /\ get_unprocessed_commands (update_processed [1; 2] busy_store) = []
  /\ mark_commands_processed 1 [1; 2] busy_store
     = Py.Raise Py.OperationalError
  /\ mark_commands_processed 999 [1; 2 ^ 63] busy_store
     = Py.Raise Py.OverflowError.
Proof. repeat split; reflexivity. Qed.

(** ** Searching *)

Lemma like_percent_alone t : like [percent] t = true.
Proof.
  cbn [like]. rewrite Ascii.eqb_refl.
  induction t as [|c t IH]; simpl; [reflexivity | exact IH].
Qed.

Lemma like_percent_cons p t : like (percent :: p) t = like_any (like p) t.
Proof. cbn [like]. rewrite Ascii.eqb_refl. reflexivity. Qed.

Lemma like_any_true f t : (forall x, f x = true) -> like_any f t = true.
Proof. intros H. destruct t; simpl; rewrite H; reflexivity. Qed.

Lemma like_any_ext f g t :
  (forall x, f x = g x) -> like_any f t = like_any g t.
Proof.
  intros H. induction t as [|c t IH]; simpl; rewrite H; [reflexivity|].
  rewrite IH. reflexivity.
Qed.

Lemma like_any_prefix needle t :
  like_any (prefix_nocase needle) t = contains_nocase needle t.
Proof.
  induction t as [|c t IH]; simpl; [reflexivity|]. rewrite IH. reflexivity.
Qed.

Lemma like_plain k :
  forallb plain_char k = true ->
  forall t, like (k ++ [percent]) t = prefix_nocase k t.
Proof.
  induction k as [|c k IH]; intros Hk t.
  - apply like_percent_alone.
  - simpl in Hk. apply andb_true_iff in Hk as [Hc Hk].
    unfold plain_char in Hc. apply andb_true_iff in Hc as [Hc _].
    apply andb_true_iff in Hc as [Hp Hu].
    apply negb_true_iff in Hp, Hu.
    cbn [app like]. rewrite Hp. destruct t as [|d t]; [reflexivity|].
    rewrite Hu, IH by exact Hk. reflexivity.
Qed.

Lemma c_string_plain k :
  forallb plain_char k = true -> c_string k = k.
Proof.
  induction k as [|c k IH]; simpl; intros H; [reflexivity|].
  apply andb_true_iff in H as [Hc Hk]. unfold plain_char in Hc.
  apply andb_true_iff in Hc as [_ Hz]. apply negb_true_iff in Hz.
  rewrite Hz, IH by exact Hk. reflexivity.
Qed.

Lemma c_string_app_plain k rest :
  forallb plain_char k = true -> c_string (k ++ rest) = k ++ c_string rest.
Proof.
  induction k as [|c k IH]; simpl; intros H; [reflexivity|].
  apply andb_true_iff in H as [Hc Hk]. unfold plain_char in Hc.
  apply andb_true_iff in Hc as [_ Hz]. apply negb_true_iff in Hz.
  rewrite Hz, IH by exact Hk. reflexivity.
Qed.

Lemma matches_plain_keyword keyword l :
  forallb plain_char (Py.chars keyword) = true ->
  matches_keyword keyword l
  = contains_nocase (Py.chars keyword) (c_string (Py.chars (l_content l))).
Proof.
  intros Hk. unfold matches_keyword.
  change (c_string (percent :: Py.chars keyword ++ [percent]))
    with (percent :: c_string (Py.chars keyword ++ [percent])).
  rewrite c_string_app_plain by exact Hk.
  change (c_string [percent]) with [percent].
  cbn [like]. rewrite Ascii.eqb_refl.
  rewrite (like_any_ext _ (prefix_nocase (Py.chars keyword)))
    by (apply like_plain; exact Hk).
  apply like_any_prefix.
Qed.

Lemma search_learnings_within_limit keyword st :
  pattern_too_long keyword = false ->
  search_learnings keyword st
  = Some (sort_by (desc l_timestamp)
            (filter (matches_keyword keyword) (learnings st))).
Proof.
  intros H. unfold search_learnings. rewrite H.
  destruct (learnings st); reflexivity.
Qed.

(** X9.  For a keyword with no [%], no [_] and no NUL character, whose
    pattern is within the length limit of [LIKE], [search_learnings]
    answers exactly the learnings whose content (up to its first NUL
    character) holds the keyword, the case of ASCII letters ignored, in
    descending order of creation timestamp. *)
Theorem search_learnings_plain_keyword :
  forall keyword st,
    forallb plain_char (Py.chars keyword) = true ->
    pattern_too_long keyword = false ->
    exists found,
      search_learnings keyword st = Some found
      /\ found
         = sort_by (desc l_timestamp)
             (filter (fun l => contains_nocase (Py.chars keyword)
                                 (c_string (Py.chars (l_content l))))
                     (learnings st))
      /\ (forall l, In l found
                    <-> In l (learnings st)
                        /\ contains_nocase (Py.chars keyword)
                             (c_string (Py.chars (l_content l))) = true)
      /\ StronglySorted (fun a b => l_timestamp b <= l_timestamp a) found.
Proof.
  intros keyword st Hk Hl.
  eexists. split; [apply search_learnings_within_limit; exact Hl|].
  assert (E : sort_by (desc l_timestamp)
                (filter (matches_keyword keyword) (learnings st))
              = sort_by (desc l_timestamp)
                  (filter (fun l => contains_nocase (Py.chars keyword)
                                      (c_string (Py.chars (l_content l))))
                          (learnings st))).
  { f_equal. apply filter_ext.
    intros l. apply matches_plain_keyword. exact Hk. }
  split; [exact E|]. split.
  - intros l. rewrite E, (sort_by_In (desc l_timestamp)), filter_In.
    reflexivity.
  - apply desc_sorted.
Qed.

Lemma search_learnings_plain_keyword_witness :
  exists found,
    search_learnings "REBASE"
      (snd (add_learning 1500 "rebase before merge" None empty_store))
    = Some found
    /\ found
       = sort_by (desc l_timestamp)
           (filter (fun l => contains_nocase (Py.chars "REBASE")
                               (c_string (Py.chars (l_content l))))
                   (learnings
                      (snd (add_learning 1500 "rebase before merge" None
                              empty_store)))).
Proof.
  destruct (search_learnings_plain_keyword "REBASE"
              (snd (add_learning 1500 "rebase before merge" None
                      empty_store)) eq_refl eq_refl)
    as (found & H1 & H2 & _).
  exists found. split; [exact H1 | exact H2].
Defined.

(** X10.  The characters [%] and [_] of a keyword act as wildcards: the
    keyword [%] and the empty keyword find every learning, and the keyword
    [_] finds every learning whose content is not empty. *)
Theorem search_learnings_wildcards :
  forall st,
    (exists found, search_learnings "" st = Some found
                   /\ forall l, In l found <-> In l (learnings st))
    /\ (exists found, search_learnings "%" st = Some found
                      /\ forall l, In l found <-> In l (learnings st))
    /\ (exists found,
          search_learnings "_" st = Some found
          /\ forall l, In l found
                       <-> In l (learnings st)
                           /\ c_string (Py.chars (l_content l)) <> []).
Proof.
  intros st.
  assert (All : forall t, like (Py.chars "%%") t = true).
  { intros t. change (Py.chars "%%") with [percent; percent].
    rewrite like_percent_cons. apply like_any_true.
    apply like_percent_alone. }
  assert (All3 : forall t, like (Py.chars "%%%") t = true).
  { intros t. change (Py.chars "%%%") with (percent :: Py.chars "%%").
    rewrite like_percent_cons. apply like_any_true. exact All. }
  assert (One : forall t, like (Py.chars "%_%") t
                          = match t with [] => false | _ => true end).
  { intros t. change (Py.chars "%_%") with [percent; underscore; percent].
    rewrite like_percent_cons. destruct t as [|c t]; [reflexivity|].
    cbn [like_any]. replace (like [underscore; percent] (c :: t)) with true;
      [reflexivity|].
    symmetry. exact (like_percent_alone t). }
  split; [|split]; eexists;
    (split; [apply search_learnings_within_limit; reflexivity|]);
    intros l; rewrite (sort_by_In (desc l_timestamp)), filter_In;
    unfold matches_keyword.
  - change (c_string (percent :: Py.chars "" ++ [percent])) with (Py.chars "%%").
    rewrite All. tauto.
  - change (c_string (percent :: Py.chars "%" ++ [percent])) with (Py.chars "%%%").
    rewrite All3. tauto.
  - change (c_string (percent :: Py.chars "_" ++ [percent])) with (Py.chars "%_%").
    rewrite One.
    destruct (c_string (Py.chars (l_content l))); simpl; split;
      intros [H1 H2]; split; try assumption; try discriminate; congruence.
Qed.

(** ** The history by calendar day *)

Lemma distinct_In l x : In x (distinct l) <-> In x l.
Proof.
  induction l as [|a l IH]; simpl; [tauto|].
  rewrite filter_In, IH, negb_true_iff, String.eqb_neq.
  destruct (String.eqb_spec x a) as [->|Hne]; [tauto|].
  split; [intros [H|[H _]]; auto | intros [H|H]; auto].
Qed.

Lemma distinct_NoDup l : NoDup (distinct l).
Proof.
  induction l as [|a l IH]; simpl; constructor.
  - rewrite filter_In, negb_true_iff, String.eqb_neq. intros [_ H]. congruence.
  - apply NoDup_filter. exact IH.
Qed.

(** In a list without repetition that holds [x], one element is [x]. *)
Lemma count_in_NoDup (x : string) ks :
  NoDup ks -> In x ks ->
  list_sum (map (fun d => if (x =? d)%string then 1%nat else 0%nat) ks) = 1%nat.
Proof.
  induction 1 as [|k ks Hk _ IH]; intros Hin; [contradiction|]. simpl.
  destruct (String.eqb_spec x k) as [->|Hne].
  - assert (Z0 : list_sum (map (fun d => if (k =? d)%string then 1%nat else 0%nat) ks) = 0%nat).
    { clear IH Hin. induction ks as [|a ks IH]; simpl; [reflexivity|].
      destruct (String.eqb_spec k a) as [->|_].
      - exfalso. apply Hk. left. reflexivity.
      - apply IH. intros H. apply Hk. right. exact H. }
    rewrite Z0. reflexivity.
  - destruct Hin as [->|Hin]; [congruence|]. rewrite IH by exact Hin.
    reflexivity.
Qed.

Lemma list_sum_cons a l : list_sum (a :: l) = (a + list_sum l)%nat.
Proof. reflexivity. Qed.

(** Sorting the rows by key into the classes [ks] loses and repeats no
    row. *)
Lemma classes_cover {A} (key : A -> string) ks l :
  NoDup ks -> (forall x, In x l -> In (key x) ks) ->
  list_sum (map (fun d => List.length (filter (fun x => (key x =? d)%string) l)) ks)
  = List.length l.
Proof.
  intros Hks. induction l as [|x l IH]; intros Hin.
  - clear. induction ks as [|k ks IHk]; simpl; [reflexivity | exact IHk].
  - assert (E : list_sum (map (fun d => List.length
                   (filter (fun y => (key y =? d)%string) (x :: l))) ks)
                = (list_sum (map (fun d => if (key x =? d)%string
                                           then 1%nat else 0%nat) ks)
                   + list_sum (map (fun d => List.length
                       (filter (fun y => (key y =? d)%string) l)) ks))%nat).
    { clear. induction ks as [|k ks IHk]; [reflexivity|].
      rewrite !map_cons, !list_sum_cons, IHk. cbn [filter].
      destruct (key x =? k)%string; simpl; lia. }
    rewrite E, IH by (intros y Hy; apply Hin; right; exact Hy).
    rewrite (count_in_NoDup (key x) ks Hks)
      by (apply Hin; left; reflexivity).
    reflexivity.
Qed.

Lemma list_sum_perm l l' : Permutation l l' -> list_sum l = list_sum l'.
Proof. induction 1; simpl; lia. Qed.

(** X11.  The history by calendar day loses no learning and repeats none:
    [get_all_logged_dates] lists each date once, a date is listed exactly
    when a learning was created on it, [get_learnings_by_date] answers
    exactly the learnings created on the date (none for a text that is no
    listed date), and the numbers of learnings over the listed dates add
    up to the number of learnings. *)
Theorem history_by_date_covers_learnings :
  forall st,
    NoDup (get_all_logged_dates st)
    /\ (forall d, In d (get_all_logged_dates st)
                  <-> exists l, In l (learnings st)
                                /\ date_of (l_timestamp l) = d)
    /\ (forall d l, In l (get_learnings_by_date d st)
                    <-> In l (learnings st) /\ date_of (l_timestamp l) = d)
    /\ (forall d, In d (get_all_logged_dates st)
                  <-> get_learnings_by_date d st <> [])
    /\ list_sum (map (fun d => List.length (get_learnings_by_date d st))
                     (get_all_logged_dates st))
       = List.length (learnings st).
Proof.
  intros st.
  set (keys := map (fun l => date_of (l_timestamp l)) (learnings st)).
  assert (P : Permutation (get_all_logged_dates st) (distinct keys))
    by apply sort_by_perm.
  assert (Hd : forall d, In d (get_all_logged_dates st)
                         <-> exists l, In l (learnings st)
                                       /\ date_of (l_timestamp l) = d).
  { intros d. split.
    - intros H. apply (Permutation_in _ P), distinct_In, in_map_iff in H.
      destruct H as (l & E & Hl). eauto.
    - intros (l & Hl & E). apply (Permutation_in _ (Permutation_sym P)).
      apply distinct_In, in_map_iff. eauto. }
  assert (Hb : forall d l, In l (get_learnings_by_date d st)
                           <-> In l (learnings st) /\ date_of (l_timestamp l) = d).
  { intros d l. unfold get_learnings_by_date.
    rewrite (sort_by_In (asc l_timestamp)), filter_In, String.eqb_eq.
    reflexivity. }
  split; [|split; [exact Hd|split; [exact Hb|split]]].
  - eapply Permutation_NoDup; [symmetry; exact P | apply distinct_NoDup].
  - intros d. rewrite Hd. split.
    + intros (l & Hl & E) Hnil.
      assert (Hin : In l (get_learnings_by_date d st)) by (apply Hb; auto).
      rewrite Hnil in Hin. contradiction.
    + intros Hne. destruct (get_learnings_by_date d st) as [|l r] eqn:E;
        [congruence|].
      exists l. apply Hb. rewrite E. left. reflexivity.
  - rewrite (list_sum_perm _ _ (Permutation_map _ P)).
    rewrite <- (classes_cover (fun l => date_of (l_timestamp l)) (distinct keys)
                  (learnings st)).
    + f_equal. apply map_ext. intros d. unfold get_learnings_by_date.
      apply Permutation_length. apply sort_by_perm.
    + apply distinct_NoDup.
    + intros l Hl. apply distinct_In. unfold keys.
      apply (in_map (fun l => date_of (l_timestamp l))). exact Hl.
Qed.

End DbMoreFacts.

(* ================================================================== *)
(** * Properties of the collector *)
(* ================================================================== *)

Module CollectorFacts.
Import Py Collector PyFacts JsonFacts.

(** ** The sensitive pattern *)

Lemma match_literal_sound lit : forall prev rest prev' rest',
  match_literal lit prev rest = Some (prev', rest') ->
  exists w, rest = w ++ rest' /\ Forall2 ci lit w.
Proof.
  induction lit as [|p lit IH]; intros prev rest prev' rest' H; simpl in H.
  - injection H as _ <-. exists []. split; [reflexivity|constructor].
  - destruct rest as [|c rest]; [discriminate|].
    destruct (ci_eq p c) eqn:E; [|discriminate].
    apply IH in H as (w & -> & Hw).
    exists (c :: w). split; [reflexivity|]. constructor; assumption.
Qed.

Lemma match_literal_complete lit w :
  Forall2 ci lit w ->
  forall prev rest, exists prev', match_literal lit prev (w ++ rest) = Some (prev', rest).
Proof.
  induction 1 as [|p c lit w Hpc _ IH]; intros prev rest; simpl.
  - eauto.
  - rewrite Hpc. apply IH.
Qed.

Lemma keyword_alternative k :
  In k keywords -> In (Alt false k false) SENSITIVE_PATTERN.
Proof.
  unfold keywords, SENSITIVE_PATTERN. simpl.
  intros H. repeat (destruct H as [<-|H]; [auto 12|]). contradiction.
Qed.

(** Every alternative of the pattern holds a keyword. *)
Lemma alternative_keyword a :
  In a SENSITIVE_PATTERN ->
  exists k x y, In k keywords /\ chars (literal a) = x ++ chars k ++ y.
Proof.
  unfold SENSITIVE_PATTERN. simpl. intros H.
  repeat (destruct H as [<-|H];
          [ first
              [ exists "password", [], []; split; [simpl; tauto | reflexivity]
              | exists "secret", [], []; split; [simpl; tauto | reflexivity]
              | exists "key", [], []; split; [simpl; tauto | reflexivity]
              | exists "token", [], []; split; [simpl; tauto | reflexivity]
              | exists "auth", [], []; split; [simpl; tauto | reflexivity]
              | exists "bearer", [], []; split; [simpl; tauto | reflexivity]
              | exists "credentials", [], []; split; [simpl; tauto | reflexivity]
              | exists "key", (chars "aws_access_"), (chars "_id");
                split; [simpl; tauto | reflexivity]
              | exists "key", (chars "aws_secret_access_"), [];
                split; [simpl; tauto | reflexivity] ]
          | ]).
  contradiction.
Qed.

Lemma search_from_keyword l : forall prev,
  search_from SENSITIVE_PATTERN prev l = true -> has_keyword l.
Proof.
  assert (Hhere : forall prev rest,
             existsb (fun a => match_alternative a prev rest) SENSITIVE_PATTERN = true ->
             has_keyword rest).
  { intros prev rest H. apply existsb_exists in H as (a & Ha & Hm).
    unfold match_alternative in Hm. apply andb_true_iff in Hm as [_ Hm].
    destruct (match_literal (chars (literal a)) prev rest) as [[prev' rest']|] eqn:E;
      [|discriminate].
    apply match_literal_sound in E as (w & -> & Hw).
    destruct (alternative_keyword a Ha) as (k & x & y & Hk & Hlit).
    rewrite Hlit in Hw.
    apply Forall2_app_inv_l in Hw as (wx & w' & _ & Hw & ->).
    apply Forall2_app_inv_l in Hw as (wk & wy & Hwk & _ & ->).
    exists k, wx, wk, (wy ++ rest'). split; [exact Hk|]. split; [|exact Hwk].
    rewrite <- !app_assoc. reflexivity. }
  induction l as [|c l IH]; intros prev H; simpl in H;
    apply orb_true_iff in H as [H|H].
  - eapply Hhere. exact H.
  - discriminate.
  - eapply Hhere. exact H.
  - apply IH in H as (k & pre & w & post & Hk & -> & Hw).
    exists k, (c :: pre), w, post. auto.
Qed.

Lemma keyword_search_from l : forall prev,
  has_keyword l -> search_from SENSITIVE_PATTERN prev l = true.
Proof.
  intros prev (k & pre & w & post & Hk & -> & Hw). revert prev.
  induction pre as [|c pre IH]; intros prev.
  - assert (Hm : existsb (fun a => match_alternative a prev (w ++ post))
                        SENSITIVE_PATTERN = true).
    { apply existsb_exists. exists (Alt false k false).
      split; [apply keyword_alternative; exact Hk|].
      unfold match_alternative. simpl.
      destruct (match_literal_complete _ _ Hw prev post) as (prev' & ->).
      reflexivity. }
    destruct (w ++ post); simpl; simpl in Hm; rewrite Hm; reflexivity.
  - simpl. rewrite IH. apply orb_true_r.
Qed.

Lemma keywords_plain k :
  In k keywords -> forallb plain (chars k) = true /\ chars k <> [].
Proof.
  unfold keywords. simpl. intros H.
  repeat (destruct H as [<-|H]; [split; [reflexivity|discriminate]|]).
  contradiction.
Qed.

Lemma ci_plain_nonspace p c : plain p = true -> ci p c -> nonspace c = true.
Proof.
  unfold plain, ci, ci_eq, nonspace. intros Hp Hc.
  apply andb_true_iff in Hp as [Hp1 Hp2].
  apply Ascii.eqb_eq in Hp2, Hc. rewrite Hp2 in Hc.
  destruct (isspace c) eqn:E; [|reflexivity].
  pose proof (isspace_lower c E) as El. rewrite El in Hc. subst c.
  rewrite E in Hp1. discriminate.
Qed.

Lemma ci_word_nonspace lit w :
  Forall2 ci lit w -> forallb plain lit = true ->
  forallb nonspace w = true /\ (lit <> [] -> w <> []).
Proof.
  induction 1 as [|p c lit w Hpc _ IH]; simpl; intros H.
  - split; [reflexivity | congruence].
  - apply andb_true_iff in H as [Hp Hl].
    rewrite (ci_plain_nonspace p c Hp Hpc). destruct (IH Hl) as [-> _].
    split; [reflexivity | discriminate].
Qed.

Lemma has_keyword_strip l : has_keyword l -> has_keyword (strip_chars l).
Proof.
  intros (k & pre & w & post & Hk & -> & Hw).
  destruct (keywords_plain k Hk) as [Hplain Hne].
  destruct (ci_word_nonspace _ _ Hw Hplain) as [Hns Hwne].
  rewrite strip_keeps_word by auto.
  exists k, (lstrip_chars pre), w, (rstrip_chars post). auto.
Qed.

(** What matches in a command matches in the stripped command. *)
Lemma search_strip s :
  search SENSITIVE_PATTERN s = true ->
  search SENSITIVE_PATTERN (strip s) = true.
Proof.
  unfold search, strip. intros H. rewrite chars_str.
  apply keyword_search_from, has_keyword_strip.
  eapply search_from_keyword. exact H.
Qed.

(** [needle in cmd.lower()] finds a block that matches [needle] when
    case is ignored. *)
Lemma contains_lower_keyword k s :
  In k keywords -> contains k (lower s) = true -> has_keyword (chars s).
Proof.
  intros Hk H. unfold contains, lower in H. rewrite chars_str in H.
  apply contains_chars_spec in H as (pre & post & H).
  apply map_eq_app in H as (pre' & r & -> & _ & H).
  apply map_eq_app in H as (w & post' & -> & Hw & _).
  exists k, pre', w, post'. split; [exact Hk|]. split; [reflexivity|].
  destruct (keywords_plain k Hk) as [Hplain _].
  revert Hplain Hw. generalize (chars k). intros lit. revert lit.
  induction w as [|c w IH]; intros lit Hplain Hw; destruct lit as [|p lit];
    try discriminate; constructor.
  - simpl in Hw, Hplain. injection Hw as Hc _.
    apply andb_true_iff in Hplain as [Hp _].
    unfold plain in Hp. apply andb_true_iff in Hp as [_ Hp].
    apply Ascii.eqb_eq in Hp.
    unfold ci, ci_eq. apply Ascii.eqb_eq. congruence.
  - simpl in Hw, Hplain. injection Hw as _ Hw.
    apply andb_true_iff in Hplain as [_ Hl]. apply IH; assumption.
Qed.

(** X2.  The sensitive pattern matches in a string exactly when the
    string holds one of the seven keywords in any case: the two
    alternatives between word boundaries add nothing, since both hold
    [key]. *)
Theorem sensitive_search_is_keyword_search :
  forall s, search SENSITIVE_PATTERN s = true <-> has_keyword (chars s).
Proof.
  intros s. unfold search. split.
  - apply search_from_keyword.
  - apply keyword_search_from.
Qed.

(** ** The validity filter *)

Lemma is_valid_command_sensitive cmd :
  search SENSITIVE_PATTERN (strip cmd) = true -> is_valid_command cmd = false.
Proof.
  intros H. unfold is_valid_command. rewrite H.
  destruct (negb (truthy (strip cmd)) || (String.length (strip cmd) <? 3)%nat);
    [reflexivity|].
  destruct (str_in _ NOISE_COMMANDS && _); reflexivity.
Qed.

(** C7.  The validity filter of the collector rejects every string of
    fewer than three characters, before or after stripping (the empty
    string among them), every
    command made of a single word that is one of the no-op commands in
    any case ([ls], [cd], [clear], [exit], ...), every string in which
    the sensitive pattern matches, and in particular every string that
    holds [password] in any case; it accepts
    [kubectl apply -f deploy.yaml --force]. *)
Theorem is_valid_command_filter :
  (forall cmd,
      (String.length cmd < 3)%nat \/ (String.length (strip cmd) < 3)%nat ->
      is_valid_command cmd = false)
  /\ is_valid_command "" = false
  /\ (forall cmd word,
        split cmd = [word] -> str_in (lower word) NOISE_COMMANDS = true ->
        is_valid_command cmd = false)
  /\ is_valid_command "ls" = false
  /\ is_valid_command "cd" = false
  /\ is_valid_command "clear" = false
  /\ is_valid_command "exit" = false
  /\ (forall cmd, search SENSITIVE_PATTERN cmd = true ->
                  is_valid_command cmd = false)
  /\ (forall cmd, contains "password" (lower cmd) = true ->
                  is_valid_command cmd = false)
  /\ is_valid_command "kubectl apply -f deploy.yaml --force" = true.
Proof.
  repeat split; try reflexivity.
  - intros cmd Hlen. unfold is_valid_command.
    assert (H : (String.length (strip cmd) <? 3)%nat = true).
    { apply Nat.ltb_lt. pose proof (strip_length cmd). lia. }
    rewrite H, orb_true_r. reflexivity.
  - intros cmd word Hsplit Hnoise. unfold is_valid_command.
    rewrite split_strip, Hsplit, Hnoise. simpl.
    destruct (negb (truthy (strip cmd)) || (String.length (strip cmd) <? 3)%nat);
      reflexivity.
  - intros cmd H. apply is_valid_command_sensitive, search_strip. exact H.
  - intros cmd H. apply is_valid_command_sensitive, search_strip.
    apply keyword_search_from.
    apply (contains_lower_keyword "password"); [simpl; tauto | exact H].
Qed.

End CollectorFacts.

(* ================================================================== *)
(** * The history reader *)
(* ================================================================== *)

Module TailFacts.
Import Collector TailSpec.

Lemma segments_nonempty l : segments l <> [].
Proof.
  destruct l as [|b l]; simpl; [discriminate|].
  destruct (Byte.eqb b newline_byte); [discriminate|].
  destruct (segments l); discriminate.
Qed.

Lemma segments_plain l :
  forallb not_newline l = true -> segments l = [l].
Proof.
  induction l as [|b l IH]; simpl; [reflexivity|]. intros H.
  apply andb_true_iff in H as [Hb Hl]. unfold not_newline in Hb.
  apply negb_true_iff in Hb. rewrite Hb, (IH Hl). reflexivity.
Qed.

(** Cutting at a newline byte cuts the list of segments. *)
Lemma segments_app_newline l1 l2 :
  segments (l1 ++ newline_byte :: l2) = segments l1 ++ segments l2.
Proof.
  induction l1 as [|b l1 IH]; simpl.
  - reflexivity.
  - destruct (Byte.eqb b newline_byte).
    + rewrite IH. reflexivity.
    + rewrite IH. pose proof (segments_nonempty l1) as Hne.
      destruct (segments l1); [congruence|reflexivity].
Qed.

Lemma drop_empty_first_app l x :
  l <> [] -> drop_empty_first (l ++ [x]) = drop_empty_first l ++ [x].
Proof.
  destruct l as [|[|b s] t]; [congruence| |]; reflexivity.
Qed.

Lemma read_at_inside content p :
  (p < List.length content)%nat ->
  exists b, read_at content p = [b]
            /\ firstn (S p) content = firstn p content ++ [b].
Proof.
  revert p. induction content as [|a content IH]; intros p Hp; simpl in Hp;
    [lia|].
  destruct p as [|p].
  - exists a. split; reflexivity.
  - destruct (IH p) as (b & Hr & Hf); [lia|].
    exists b. split; [exact Hr|].
    change (firstn (S (S p)) (a :: content)) with (a :: firstn (S p) content).
    rewrite Hf. reflexivity.
Qed.

Lemma read_at_end content p :
  (List.length content <= p)%nat -> read_at content p = [].
Proof.
  intros Hp. unfold read_at. rewrite skipn_all2 by exact Hp. reflexivity.
Qed.

Lemma is_newline_single b : is_newline [b] = Byte.eqb b newline_byte.
Proof. reflexivity. Qed.

Section Loop.
Variable decode : list Byte.byte -> string.
Variable content : list Byte.byte.
Variable lines_to_read : Z.

Lemma tail_loop_spec : forall k buffer lines,
  (k <= List.length content)%nat ->
  forallb not_newline buffer = true ->
  (Z.of_nat (List.length lines) < lines_to_read)%Z \/ buffer = [] ->
  flush_buffer decode (tail_loop decode content k lines_to_read buffer lines)
  = lines ++ map decode (firstn (room lines_to_read lines) (pending content k buffer)).
Proof.
  induction k as [|p IH]; intros buffer lines Hk Hbuf Hpre.
  - unfold pending. cbn [tail_loop firstn app].
    destruct buffer as [|b buffer].
    + simpl. rewrite firstn_nil, app_nil_r. reflexivity.
    + unfold flush_buffer. cbn [fst snd].
      remember (rev (b :: buffer)) as x eqn:Ex.
      assert (Hx : segments x = [x]).
      { apply segments_plain. subst x. rewrite PyFacts.forallb_rev.
        exact Hbuf. }
      assert (Hne : x <> []).
      { intros E. rewrite E in Ex. apply (f_equal (@List.length _)) in Ex.
        rewrite length_rev in Ex. discriminate. }
      rewrite Hx.
      assert (Hd : drop_empty_first [x] = [x])
        by (destruct x; [congruence|reflexivity]).
      rewrite Hd.
      destruct Hpre as [Hlt|E]; [|discriminate].
      unfold room.
      destruct (Z.to_nat (lines_to_read - Z.of_nat (List.length lines)))
        as [|n] eqn:En; [lia|].
      simpl. rewrite firstn_nil. reflexivity.
  - simpl tail_loop.
    destruct (Z.of_nat (List.length lines) <? lines_to_read)%Z eqn:Elt.
    + apply Z.ltb_lt in Elt.
      destruct (read_at_inside content p) as (b & Hr & Hf); [lia|].
      rewrite Hr, is_newline_single.
      assert (Hroom : room lines_to_read lines
                       = S (room lines_to_read (lines ++ [decode (rev buffer)]))).
      { unfold room. rewrite length_app. simpl. lia. }
      destruct (Byte.eqb b newline_byte) eqn:Eb.
      * apply Byte.byte_dec_bl in Eb. subst b.
        rewrite IH; [| lia | reflexivity | right; reflexivity].
        unfold pending. rewrite Hf. cbn [rev app]. rewrite app_nil_r.
        replace ((firstn p content ++ [newline_byte]) ++ rev buffer)
          with (firstn p content ++ newline_byte :: rev buffer)
          by (rewrite <- app_assoc; reflexivity).
        rewrite segments_app_newline.
        rewrite segments_plain with (l := rev buffer)
          by (rewrite PyFacts.forallb_rev; exact Hbuf).
        rewrite drop_empty_first_app by apply segments_nonempty.
        rewrite rev_app_distr, Hroom. cbn [rev app firstn map].
        rewrite <- app_assoc. reflexivity.
      * rewrite IH; [| lia | | left; exact Elt].
        -- unfold pending. rewrite Hf, rev_app_distr, <- app_assoc.
           reflexivity.
        -- rewrite forallb_app, Hbuf. simpl. unfold not_newline.
           rewrite Eb. reflexivity.
    + apply Z.ltb_ge in Elt.
      destruct Hpre as [Hlt| ->]; [lia|].
      unfold flush_buffer, room. simpl.
      replace (Z.to_nat (lines_to_read - Z.of_nat (List.length lines)))
        with 0%nat by lia.
      simpl. rewrite app_nil_r. reflexivity.
Qed.

(** The answer of the reader, for every content and every count. *)
Lemma tail_lines_segments :
  tail_lines decode content lines_to_read
  = map decode
      (firstn (Z.to_nat lines_to_read)
              (rev (drop_empty_first (segments content)))).
Proof.
  unfold tail_lines. simpl tail_loop. simpl List.length.
  destruct (0 <? lines_to_read)%Z eqn:E.
  - rewrite read_at_end by lia. cbn [is_newline app].
    rewrite tail_loop_spec; [| lia | reflexivity | right; reflexivity].
    unfold pending, room. simpl. rewrite firstn_all, app_nil_r, Z.sub_0_r.
    reflexivity.
  - apply Z.ltb_ge in E.
    replace (Z.to_nat lines_to_read) with 0%nat by lia. reflexivity.
Qed.
End Loop.

(** Without a newline at the end, the segments are the lines. *)
Lemma file_lines_eq_segments content :
  ends_with_newline content = false -> content <> [] ->
  file_lines content = segments content.
Proof.
  destruct content as [|a content]; [congruence|]. intros H _.
  revert a H.
  induction content as [|b content IH]; intros a H.
  - simpl in *. rewrite H. reflexivity.
  - change (ends_with_newline (a :: b :: content))
      with (ends_with_newline (b :: content)) in H.
    specialize (IH b H).
    change (file_lines (a :: b :: content))
      with (if Byte.eqb a newline_byte
            then [] :: file_lines (b :: content)
            else match file_lines (b :: content) with
                 | s :: t => (a :: s) :: t
                 | [] => [[a]]
                 end).
    change (segments (a :: b :: content))
      with (if Byte.eqb a newline_byte
            then [] :: segments (b :: content)
            else match segments (b :: content) with
                 | s :: t => (a :: s) :: t
                 | [] => [[a]]
                 end).
    rewrite IH. reflexivity.
Qed.

Lemma file_lines_segments content :
  ends_with_newline content = false ->
  drop_empty_first (file_lines content) = drop_empty_first (segments content).
Proof.
  destruct content as [|a content]; [reflexivity|].
  intros H. rewrite file_lines_eq_segments; [reflexivity|exact H|discriminate].
Qed.

Lemma drop_empty_first_started content :
  starts_with_newline content = false ->
  drop_empty_first (file_lines content) = file_lines content.
Proof.
  destruct content as [|a content]; [reflexivity|]. simpl. intros H.
  rewrite H. destruct (file_lines content); reflexivity.
Qed.

Lemma file_lines_nonempty b content : file_lines (b :: content) <> [].
Proof.
  simpl. destruct (Byte.eqb b newline_byte); [discriminate|].
  destruct (file_lines content); discriminate.
Qed.

(** The runs of bytes between newline bytes are the lines of the file,
    and one more empty run for a file that ends with a newline byte. *)
Lemma segments_file_lines b content :
  segments (b :: content)
  = file_lines (b :: content)
      ++ (if ends_with_newline (b :: content) then [[]] else []).
Proof.
  revert b. induction content as [|c content IH]; intros b.
  - simpl. destruct (Byte.eqb b newline_byte); reflexivity.
  - change (ends_with_newline (b :: c :: content))
      with (ends_with_newline (c :: content)).
    change (segments (b :: c :: content))
      with (if Byte.eqb b newline_byte
            then [] :: segments (c :: content)
            else match segments (c :: content) with
                 | s :: t => (b :: s) :: t
                 | [] => [[b]]
                 end).
    change (file_lines (b :: c :: content))
      with (if Byte.eqb b newline_byte
            then [] :: file_lines (c :: content)
            else match file_lines (c :: content) with
                 | s :: t => (b :: s) :: t
                 | [] => [[b]]
                 end).
    rewrite (IH c). pose proof (file_lines_nonempty c content) as Hne.
    destruct (Byte.eqb b newline_byte); [reflexivity|].
    destruct (file_lines (c :: content)); [congruence|reflexivity].
Qed.

Lemma segments_lines content :
  drop_empty_first (segments content)
  = drop_empty_first
      (file_lines content
         ++ (if ends_with_newline content then [[]] else [])).
Proof.
  destruct content as [|b content]; [reflexivity|].
  rewrite segments_file_lines. reflexivity.
Qed.

Lemma ends_with_newline_nonempty content :
  ends_with_newline content = true -> file_lines content <> [].
Proof.
  destruct content as [|b content]; [discriminate|].
  intros _. apply file_lines_nonempty.
Qed.

(** C8, as the code has it.  For every file and every count [n] the
    history reader answers, most recent first and decoded one by one,
    the last [n] of these: the lines of the file, followed by one empty
    line when the file ends with a newline byte, and with the first
    line of the file left out when it is empty.  So for a file that
    neither ends with a newline byte nor starts with one this is exactly
    the last [n] lines; for a file that ends with a newline byte the
    answer starts with the empty text, followed by the last lines of
    the file. *)
Theorem tail_lines_last_lines :
  forall decode content n,
    tail_lines decode content n
    = map decode
        (firstn (Z.to_nat n)
           (rev (drop_empty_first
                   (file_lines content
                      ++ (if ends_with_newline content then [[]] else [])))))
    /\ (List.length (tail_lines decode content n) <= Z.to_nat n)%nat
    /\ (ends_with_newline content = false ->
        tail_lines decode content n
        = map decode
            (firstn (Z.to_nat n)
                    (rev (drop_empty_first (file_lines content))))
        /\ (starts_with_newline content = false ->
            tail_lines decode content n
            = map decode (last_lines_reversed n content)))
    /\ (ends_with_newline content = true ->
        tail_lines decode content n
        = map decode
            (firstn (Z.to_nat n)
                    ([] :: rev (drop_empty_first (file_lines content))))).
Proof.
  intros decode content n.
  assert (H : tail_lines decode content n
              = map decode
                  (firstn (Z.to_nat n)
                     (rev (drop_empty_first
                             (file_lines content
                                ++ (if ends_with_newline content
                                    then [[]] else [])))))).
  { rewrite tail_lines_segments, segments_lines. reflexivity. }
  split; [exact H|]. split; [|split].
  - rewrite H, length_map. apply firstn_le_length.
  - intros Hend. rewrite Hend, app_nil_r in H. split; [exact H|].
    intros Hstart. rewrite H, drop_empty_first_started by exact Hstart.
    reflexivity.
  - intros Hend. rewrite Hend in H.
    rewrite drop_empty_first_app in H
      by (apply ends_with_newline_nonempty; exact Hend).
    rewrite rev_app_distr in H. exact H.
Qed.

(** A history file of four lines, the second of them empty, that ends
    with a newline byte, read for three lines; the same file without
    its last newline byte; a file that starts with an empty line. *)
Lemma tail_lines_last_lines_witness :
  tail_lines decode_ascii
    (bytes_of ("a" ++ Py.newline ++ Py.newline ++ "bb" ++ Py.newline
                 ++ "ccc" ++ Py.newline)) 3
  = [""; "ccc"; "bb"]
  /\ tail_lines decode_ascii
       (bytes_of ("a" ++ Py.newline ++ Py.newline ++ "bb" ++ Py.newline
                    ++ "ccc")) 3
     = ["ccc"; "bb"; ""]
  /\ tail_lines decode_ascii
       (bytes_of (Py.newline ++ "a" ++ Py.newline ++ "bb")) 200
     = ["bb"; "a"]
  /\ tail_lines decode_ascii (bytes_of "make test") 0 = [].
Proof.
  split; [|split; [|split]].
  - rewrite (proj1 (tail_lines_last_lines decode_ascii _ 3)). reflexivity.
  - rewrite (proj1 (tail_lines_last_lines decode_ascii _ 3)). reflexivity.
  - rewrite (proj1 (tail_lines_last_lines decode_ascii _ 200)). reflexivity.
  - rewrite (proj1 (tail_lines_last_lines decode_ascii _ 0)). reflexivity.
Defined.

(** C8 as the specification words it fails on a file whose first line is
    empty: the file [\nb] has the two lines [""] and ["b"], and the
    reader asked for two lines answers ["b"] alone. *)
Lemma tail_lines_leaves_out_empty_first_line :
  tail_lines decode_ascii [Byte.x0a; Byte.x62] 2 = ["b"]
  /\ map decode_ascii (last_lines_reversed 2 [Byte.x0a; Byte.x62]) = ["b"; ""].
Proof. split; reflexivity. Qed.

(** The text after the last newline byte counts as a line of its own:
    on [a\nb\nc\n] the reader asked for two lines answers the empty text
    and ["c"], where the last two lines are ["c"] and ["b"]. *)
Lemma tail_lines_after_final_newline :
  tail_lines decode_ascii (bytes_of ("a" ++ Py.newline ++ "b" ++ Py.newline
                                       ++ "c" ++ Py.newline)) 2
  = [""; "c"]
  /\ map decode_ascii
       (last_lines_reversed 2
          (bytes_of ("a" ++ Py.newline ++ "b" ++ Py.newline
                       ++ "c" ++ Py.newline)))
     = ["c"; "b"].
Proof. split; reflexivity. Qed.

(** X1.  For every file and every count, the history reader answers the
    last [n] runs of bytes between newline bytes, most recent first and
    decoded one by one, where the run before the first newline byte is
    left out when it is empty.  The run after the last newline byte counts
    also when it is empty, so the answer for a file that ends with a
    newline byte starts with the empty text.  The answer never has more
    than [n] entries. *)
Theorem tail_lines_all_files :
  forall decode content n,
    tail_lines decode content n
    = map decode
        (firstn (Z.to_nat n) (rev (drop_empty_first (segments content))))
    /\ (List.length (tail_lines decode content n) <= Z.to_nat n)%nat.
Proof.
  intros decode content n. rewrite tail_lines_segments. split; [reflexivity|].
  rewrite length_map. apply firstn_le_length.
Qed.

End TailFacts.

(* ================================================================== *)
(** * What the collectors hand to the store *)
(* ================================================================== *)

Module CollectorMoreFacts.
Import Py PyFacts PyMoreFacts JsonFacts Collector CollectorFacts.

(** ** A keyword does not reach over a blank *)

Lemma word_in_front {X} (P : X -> bool) (w : list X) :
  forall A s C post,
    w ++ post = A ++ s :: C -> P s = false -> forallb P w = true ->
    exists post', A = w ++ post'.
Proof.
  induction w as [|x w IH]; intros A s C post E Hs Hw.
  - exists A. reflexivity.
  - simpl in Hw. apply andb_true_iff in Hw as [Hx Hw].
    destruct A as [|a A]; simpl in E.
    + injection E as -> _. congruence.
    + injection E as -> E. destruct (IH A s C post E Hs Hw) as (post' & ->).
      exists post'. reflexivity.
Qed.

Lemma word_beside {X} (P : X -> bool) (A : list X) :
  forall C pre w post s,
    A ++ s :: C = pre ++ w ++ post -> P s = false -> forallb P w = true ->
    (exists post', A = pre ++ w ++ post')
    \/ (exists pre', C = pre' ++ w ++ post).
Proof.
  induction A as [|a A IH]; intros C pre w post s E Hs Hw.
  - destruct pre as [|p pre]; simpl in E.
    + destruct w as [|x w]; simpl in E.
      * left. exists []. reflexivity.
      * injection E as <- _. simpl in Hw. apply andb_true_iff in Hw as [Hx _].
        congruence.
    + injection E as _ ->. right. exists pre. reflexivity.
  - destruct pre as [|p pre].
    + left. simpl in E. symmetry in E.
      destruct (word_in_front P w (a :: A) s C post E Hs Hw) as (post' & ->).
      exists post'. reflexivity.
    + simpl in E. injection E as -> E.
      destruct (IH C pre w post s E Hs Hw) as [(post' & ->) | (pre' & ->)].
      * left. exists post'. reflexivity.
      * right. exists pre'. reflexivity.
Qed.

Lemma has_keyword_beside_blank A s C :
  isspace s = true -> has_keyword (A ++ s :: C) ->
  has_keyword A \/ has_keyword C.
Proof.
  intros Hs (k & pre & w & post & Hk & E & Hw).
  destruct (keywords_plain k Hk) as [Hplain _].
  destruct (ci_word_nonspace _ _ Hw Hplain) as [Hns _].
  assert (Hs' : nonspace s = false) by (unfold nonspace; rewrite Hs; reflexivity).
  destruct (word_beside nonspace A C pre w post s E Hs' Hns)
    as [(post' & ->) | (pre' & ->)].
  - left. exists k, pre, w, post'. auto.
  - right. exists k, pre', w, post. auto.
Qed.

Lemma search_false_no_keyword s :
  search SENSITIVE_PATTERN s = false -> ~ has_keyword (chars s).
Proof.
  intros H K. apply (keyword_search_from _ None) in K. unfold search in H.
  congruence.
Qed.

Lemma no_keyword_search_false s :
  ~ has_keyword (chars s) -> search SENSITIVE_PATTERN s = false.
Proof.
  intros H. destruct (search SENSITIVE_PATTERN s) eqn:E; [|reflexivity].
  exfalso. apply H. exact (search_from_keyword _ None E).
Qed.

(** ** What a valid command is *)

Lemma is_valid_command_true cmd :
  is_valid_command cmd = true ->
  search SENSITIVE_PATTERN (strip cmd) = false
  /\ (3 <= String.length (strip cmd))%nat.
Proof.
  unfold is_valid_command.
  destruct (negb (truthy (strip cmd)) || (String.length (strip cmd) <? 3)%nat)
    eqn:G; [discriminate|].
  apply orb_false_iff in G as [_ L]. apply Nat.ltb_ge in L.
  destruct (str_in _ NOISE_COMMANDS && _); [discriminate|].
  destruct (search SENSITIVE_PATTERN (strip cmd)); [discriminate|].
  auto.
Qed.

(** ** [clean_zsh_history_line] *)

Lemma after_first_app meta rest :
  forallb no_semicolon meta = true ->
  after_first ";"%char (meta ++ ";"%char :: rest) = Some rest.
Proof.
  induction meta as [|c meta IH]; simpl; intros H; [reflexivity|].
  apply andb_true_iff in H as [Hc H]. unfold no_semicolon in Hc.
  apply negb_true_iff in Hc. rewrite Hc. exact (IH H).
Qed.

Lemma clean_zsh_history_line_stripped line :
  strip (clean_zsh_history_line line) = clean_zsh_history_line line.
Proof.
  unfold clean_zsh_history_line.
  destruct (startswith ": " line); [|apply strip_idem].
  destruct (after_first _ _); apply strip_idem.
Qed.

(** X12.  [clean_zsh_history_line] takes the command out of a line of
    the extended zsh history format: of [": " + meta + ";" + command],
    where [meta] (the start time and the duration) holds no semicolon, it
    answers the command without the blanks around it, whatever semicolons
    the command holds.  Its answer never begins or ends with a blank. *)
Theorem clean_zsh_history_line_extended_format :
  forall meta cmd,
    forallb no_semicolon (chars meta) = true ->
    clean_zsh_history_line (": " ++ meta ++ ";" ++ cmd) = strip cmd
    /\ forall line,
        strip (clean_zsh_history_line line) = clean_zsh_history_line line.
Proof.
  intros meta cmd H. split; [|apply clean_zsh_history_line_stripped].
  unfold clean_zsh_history_line.
  change (": " ++ meta ++ ";" ++ cmd)%string
    with (String ":" (String " " (meta ++ String ";" cmd))).
  change (startswith ": " (String ":" (String " " (meta ++ String ";" cmd))))
    with true.
  change (chars (String ":" (String " " (meta ++ String ";" cmd))))
    with (":"%char :: " "%char :: chars (meta ++ String ";" cmd)).
  cbn [after_first]. change (Ascii.eqb ":" ";") with false.
  change (Ascii.eqb " " ";") with false. cbn iota.
  rewrite chars_app. change (chars (String ";" cmd)) with (";"%char :: chars cmd).
  rewrite after_first_app by exact H. unfold strip. rewrite str_chars.
  reflexivity.
Qed.

Lemma clean_zsh_history_line_extended_format_witness :
  clean_zsh_history_line ": 1678901234:0;make test; make install"
  = "make test; make install".
Proof.
  exact (proj1 (clean_zsh_history_line_extended_format
                  "1678901234:0" "make test; make install" eq_refl)).
Defined.

(** ** The calls of the collectors *)

Lemma clean_call_of_stripped source cmd :
  strip cmd = cmd -> is_valid_command cmd = true ->
  clean_call source (source, cmd).
Proof.
  intros Hs Hv. destruct (is_valid_command_true cmd Hv) as [H1 H2].
  rewrite Hs in H1, H2. repeat split; assumption.
Qed.

Lemma length_flat_map_le {A B} (f : A -> list B) l :
  (forall x, List.length (f x) <= 1)%nat ->
  (List.length (flat_map f l) <= List.length l)%nat.
Proof.
  intros H. induction l as [|x l IH]; simpl; [lia|].
  rewrite length_app. specialize (H x). lia.
Qed.

Lemma collect_shell_history_clean :
  forall decode shell_name history_file lines_to_read,
    Forall (clean_call (shell_name ++ "_history"))
           (collect_shell_history decode shell_name history_file
                                  lines_to_read)
    /\ (List.length
          (collect_shell_history decode shell_name history_file
                                 lines_to_read)
        <= Z.to_nat lines_to_read)%nat.
Proof.
  intros decode shell_name history_file lines_to_read.
  destruct history_file as [content|]; simpl; [|split; [constructor|lia]].
  split.
  - apply Forall_forall. intros call Hin. apply in_flat_map in Hin.
    destruct Hin as (line & _ & Hin).
    destruct (negb (truthy (strip line))); [contradiction|].
    destruct (shell_name =? "zsh")%string.
    + destruct (is_valid_command (clean_zsh_history_line (strip line))) eqn:V;
        [|contradiction].
      destruct Hin as [<-|[]]. apply clean_call_of_stripped; [|exact V].
      apply clean_zsh_history_line_stripped.
    + destruct (is_valid_command (strip line)) eqn:V; [|contradiction].
      destruct Hin as [<-|[]]. apply clean_call_of_stripped; [|exact V].
      apply strip_idem.
  - etransitivity; [apply length_flat_map_le|].
    + intros line. destruct (negb _); [simpl; lia|].
      destruct (is_valid_command _); simpl; lia.
    + rewrite TailFacts.tail_lines_segments, length_map.
      apply firstn_le_length.
Qed.

(** Every call comes from a line that the reader has answered. *)
Lemma collect_shell_history_lines decode shell_name content lines_to_read call :
  In call (collect_shell_history decode shell_name (Some content)
                                 lines_to_read) ->
  exists line,
    In line (tail_lines decode content lines_to_read)
    /\ snd call = (if (shell_name =? "zsh")%string
                   then clean_zsh_history_line (strip line)
                   else strip line).
Proof.
  unfold collect_shell_history. intros Hin. apply in_flat_map in Hin.
  destruct Hin as (line & Hl & Hin). exists line. split; [exact Hl|].
  destruct (negb (truthy (strip line))); [contradiction|].
  destruct (shell_name =? "zsh")%string.
  - destruct (is_valid_command (clean_zsh_history_line (strip line)));
      [|contradiction].
    destruct Hin as [<-|[]]. reflexivity.
  - destruct (is_valid_command (strip line)); [|contradiction].
    destruct Hin as [<-|[]]. reflexivity.
Qed.

(** X13.  [collect_shell_history] makes no call of
    [db.store_raw_command] when the history file does not exist.
    Otherwise every call it makes names the history of the shell as its
    source and stores a command that [is_valid_command] accepts, that
    has no blank at either end, that has at least three characters and
    in which [SENSITIVE_PATTERN] finds nothing; the command is a line
    that the reader has answered, without the blanks around it and, for
    zsh, without the timestamp before it; and there are at most
    [lines_to_read] calls. *)
Theorem collect_shell_history_calls :
  forall decode shell_name history_file lines_to_read,
    collect_shell_history decode shell_name None lines_to_read = []
    /\ Forall (clean_call (shell_name ++ "_history"))
              (collect_shell_history decode shell_name history_file
                                     lines_to_read)
    /\ (List.length
          (collect_shell_history decode shell_name history_file
                                 lines_to_read)
        <= Z.to_nat lines_to_read)%nat
    /\ (forall content call,
          history_file = Some content ->
          In call (collect_shell_history decode shell_name history_file
                                         lines_to_read) ->
          exists line,
            In line (tail_lines decode content lines_to_read)
            /\ snd call = (if (shell_name =? "zsh")%string
                           then clean_zsh_history_line (strip line)
                           else strip line)).
Proof.
  intros decode shell_name history_file lines_to_read.
  split; [reflexivity|].
  destruct (collect_shell_history_clean decode shell_name history_file
              lines_to_read) as [F L].
  split; [exact F|]. split; [exact L|].
  intros content call -> Hin.
  apply (collect_shell_history_lines _ _ _ _ _ Hin).
Qed.

(** A bash history of three lines: the bare [ls] and the line that
    names a password are not stored; no file, no call. *)
Lemma collect_shell_history_examples :
  collect_shell_history decode_ascii "bash"
    (Some (bytes_of ("make test" ++ Py.newline ++ "ls" ++ Py.newline
                       ++ "export PASSWORD=x" ++ Py.newline)))
    200
  = [("bash_history", "make test")]
  /\ collect_shell_history decode_ascii "bash" None 200 = [].
Proof. split; vm_compute; reflexivity. Qed.

Lemma git_commit_text_clean commit :
  search SENSITIVE_PATTERN commit = false ->
  search SENSITIVE_PATTERN ("git commit: " ++ commit) = false.
Proof.
  intros H. apply no_keyword_search_false. intros K.
  rewrite chars_app in K.
  apply (has_keyword_beside_blank (chars "git commit:") " "%char) in K;
    [|reflexivity].
  destruct K as [K|K].
  - apply (keyword_search_from _ None) in K. vm_compute in K. discriminate.
  - exact (search_false_no_keyword _ H K).
Qed.

Lemma collect_git_logs_clean :
  forall repos,
    Forall (fun call =>
              exists name stdout commit,
                In (name, Some stdout) repos
                /\ fst call = ("git:" ++ name)%string
                /\ snd call = ("git commit: " ++ commit)%string
                /\ is_valid_command commit = true
                /\ strip commit = commit
                /\ search SENSITIVE_PATTERN (snd call) = false)
           (collect_git_logs repos).
Proof.
  intros repos. apply Forall_forall. intros call Hin.
  unfold collect_git_logs in Hin. apply in_flat_map in Hin.
  destruct Hin as ([name out] & Hrepo & Hin). simpl in Hin.
  destruct out as [stdout|]; [|contradiction].
  destruct (truthy stdout); [|contradiction].
  apply in_flat_map in Hin. destruct Hin as (line & _ & Hin).
  destruct (is_valid_command (strip line)) eqn:V; [|contradiction].
  destruct Hin as [<-|[]]. exists name, stdout, (strip line).
  destruct (is_valid_command_true _ V) as [H1 _]. rewrite strip_idem in H1.
  repeat split; try assumption; try apply strip_idem.
  simpl snd. apply git_commit_text_clean. exact H1.
Qed.

(** X14.  Every call of [db.store_raw_command] that [collect_git_logs]
    makes is for a tracked repository whose [git log] succeeded, names
    [git:] and the repository as its source, and stores [git commit: ]
    followed by a commit subject that [is_valid_command] accepts and that
    has no blank at either end; [SENSITIVE_PATTERN] finds nothing in the
    stored text. *)
Theorem collect_git_logs_calls :
  forall repos,
    Forall (fun call =>
              exists name stdout commit,
                In (name, Some stdout) repos
                /\ fst call = ("git:" ++ name)%string
                /\ snd call = ("git commit: " ++ commit)%string
                /\ is_valid_command commit = true
                /\ strip commit = commit
                /\ search SENSITIVE_PATTERN (snd call) = false)
           (collect_git_logs repos).
Proof. exact collect_git_logs_clean. Qed.

End CollectorMoreFacts.

(* ================================================================== *)
(** * Properties of the summariser *)
(* ================================================================== *)

Module AiFacts.
Import Py Ai PyFacts.

(** ** The noise filter *)

Lemma filter_drop {A} (p : A -> bool) l1 x l2 :
  p x = false -> filter p (l1 ++ x :: l2) = filter p (l1 ++ l2).
Proof.
  intros H. rewrite !filter_app. simpl. rewrite H. reflexivity.
Qed.

Lemma full_base_of_tokens cmd a b rest :
  split cmd = a :: b :: rest -> full_base_of cmd = (a ++ " " ++ b)%string.
Proof.
  intros H. unfold full_base_of. rewrite split_strip, H. reflexivity.
Qed.

Lemma is_noise_full_base cmd :
  str_in (full_base_of cmd) _NOISE_COMMANDS = true -> is_noise cmd = true.
Proof. intros H. unfold is_noise. rewrite H. apply orb_true_r. Qed.

Lemma In_last_n {A} n (l : list A) x : In x (last_n n l) -> In x l.
Proof.
  unfold last_n. intros H. rewrite <- (firstn_skipn (List.length l - n) l).
  apply in_app_iff. right. exact H.
Qed.

(** C10.  The command filter of the summariser drops every command
    whose first two words, joined by one space, are an entry of its
    noise set, whatever words follow: such a command leaves no trace in
    the output, and no command of the output has such a start.
    [git log --oneline --graph] and
    [docker ps -a --filter status=running] are dropped, while the
    validity filter of the collector accepts both. *)
Theorem _filter_commands_drops_noise_prefix :
  (forall cmd a b rest before after,
      split cmd = a :: b :: rest ->
      str_in (a ++ " " ++ b) _NOISE_COMMANDS = true ->
      _filter_commands (before ++ cmd :: after)
      = _filter_commands (before ++ after))
  /\ (forall commands c,
        In c (_filter_commands commands) ->
        exists cmd, In cmd commands /\ c = strip cmd
                    /\ str_in (full_base_of cmd) _NOISE_COMMANDS = false)
  /\ _filter_commands ["git log --oneline --graph"] = []
  /\ _filter_commands ["docker ps -a --filter status=running"] = []
  /\ Collector.is_valid_command "git log --oneline --graph" = true
  /\ Collector.is_valid_command "docker ps -a --filter status=running" = true.
Proof.
  repeat split; try reflexivity.
  - intros cmd a b rest before after Hsplit Hnoise.
    unfold _filter_commands. rewrite filter_drop; [reflexivity|].
    apply negb_false_iff, is_noise_full_base.
    rewrite (full_base_of_tokens cmd a b rest Hsplit). exact Hnoise.
  - intros commands c Hin. unfold _filter_commands in Hin.
    apply In_last_n, in_map_iff in Hin as (cmd & <- & Hin).
    apply filter_In in Hin as [Hin Hkeep].
    exists cmd. repeat split; [exact Hin|].
    apply negb_true_iff in Hkeep.
    destruct (str_in (full_base_of cmd) _NOISE_COMMANDS) eqn:E; [|reflexivity].
    rewrite (is_noise_full_base cmd E) in Hkeep. discriminate.
Qed.

(** ** The fallback renderer *)

(** C6.  With no command and no learning the fallback summary is the
    heading with the current date, an empty line, and the line
    [_Nothing recorded today._]; it has no other line. *)
Theorem _generate_fallback_summary_empty :
  forall today,
    _generate_fallback_summary today [] []
    = ("# " ++ strftime_B_d_Y today ++ newline ++ newline
         ++ "_Nothing recorded today._")%string
    /\ _generate_fallback_summary (Date 2024 3 7) [] []
       = ("# March 07, 2024" ++ newline ++ newline
            ++ "_Nothing recorded today._")%string.
Proof.
  intros today. split; reflexivity.
Qed.

(** ** The summariser *)

Section Summary.
Variable system_prompt : string.
Variable user_prompt_template : string -> string -> string -> string.
Variable loads_utf8 : list Byte.byte -> result json.

Abbreviation generate :=
  (generate_daily_summary system_prompt user_prompt_template loads_utf8).
Abbreviation request_of := (build_request system_prompt user_prompt_template).

Lemma truthy_empty s : truthy s = false <-> s = "".
Proof.
  unfold truthy. rewrite negb_false_iff. apply String.eqb_eq.
Qed.

Lemma nonempty_false {A} (l : list A) : nonempty l = false <-> l = [].
Proof. destruct l; simpl; split; congruence. Qed.

(** The lookup of the key raises exactly when the environment holds no
    key, nothing is cached and the [.env] file that is found cannot be
    read. *)
Lemma _get_gemini_api_key_raises w e :
  _get_gemini_api_key w = Raise e
  <-> (forall v, Env.environ (env_world w) "GEMINI_API_KEY" = Some v ->
                 v = "")
      /\ env_cache w = None
      /\ Env._find_env_file (env_world w) = Some (Raise e).
Proof.
  unfold _get_gemini_api_key, Env.get, Env.load.
  destruct (Env.environ (env_world w) "GEMINI_API_KEY") as [[|c v]|];
    cbn [truthy negb String.eqb fst bind];
    try (split; [discriminate | intros (H & _); discriminate (H _ eq_refl)]);
    (destruct (env_cache w) as [d|];
     [cbn [fst bind];
      destruct (truthy _);
      (split; [discriminate | intros (_ & H & _); discriminate])|]);
    (destruct (Env._find_env_file (env_world w)) as [[text|x]|];
     cbn [fst bind]; try destruct (truthy _);
     try (split; [discriminate | intros (_ & _ & H); discriminate]));
    (split;
     [intros H; injection H as ->; repeat split; congruence
     |intros (_ & _ & H); congruence]).
Qed.

(** Past the lookup of the key nothing is raised. *)
Lemma generate_daily_summary_with_key w api_key commands manual_learnings :
  _get_gemini_api_key w = Ok api_key ->
  let r := generate w commands manual_learnings in
  let fallback := fallback_of w commands manual_learnings in
  let req :=
    request_of w api_key (_filter_commands commands) manual_learnings in
  (exists v, fst r = Ok v)
  /\ (api_key = "" -> r = (fallback, []))
  /\ (_filter_commands commands = [] -> manual_learnings = [] ->
      r = (fallback, []))
  /\ (forall e, urlopen w req = Raise e -> fst r = fallback)
  /\ (forall body e,
        urlopen w req = Ok body -> loads_utf8 body = Raise e ->
        fst r = fallback)
  /\ (forall body reply e,
        urlopen w req = Ok body -> loads_utf8 body = Ok reply ->
        extract_text reply = Raise e ->
        fst r = fallback)
  /\ (snd r = [] \/ snd r = [req])
  /\ method req = "POST"
  /\ timeout_s req = 20%Z
  /\ startswith "https://" (url req) = true.
Proof.
  intros K r fallback req.
  subst r. unfold generate_daily_summary. rewrite K. fold fallback.
  fold (request_of w api_key (_filter_commands commands) manual_learnings).
  fold req.
  destruct (truthy api_key) eqn:Ekey; cbn [negb].
  - destruct (negb (nonempty (_filter_commands commands))
              && negb (nonempty manual_learnings)) eqn:Eempty.
    + repeat split; try reflexivity; eauto.
      exists (JStr (_generate_fallback_summary (date_at_fallback w)
                      commands manual_learnings)). reflexivity.
    + cbn [fst snd]. repeat split; try reflexivity.
      * destruct (urlopen w req) as [body|e]; cbn [bind try_except];
          [|eexists; reflexivity].
        destruct (loads_utf8 body) as [reply|e]; cbn [bind try_except];
          [|eexists; reflexivity].
        destruct (extract_text reply) as [v|e]; cbn [try_except];
          eexists; reflexivity.
      * intros Hkey. apply truthy_empty in Hkey. congruence.
      * intros Hc Hl. rewrite Hc, Hl in Eempty. discriminate.
      * intros e He. rewrite He. reflexivity.
      * intros body e Hb He. rewrite Hb. cbn [bind]. rewrite He.
        reflexivity.
      * intros body reply e Hb Hr He. rewrite Hb. cbn [bind].
        rewrite Hr. cbn [bind]. rewrite He. reflexivity.
      * right. reflexivity.
  - repeat split; try reflexivity; eauto.
    exists (JStr (_generate_fallback_summary (date_at_fallback w)
                    commands manual_learnings)). reflexivity.
Qed.

(** C5, as the code has it.  [generate_daily_summary] resolves the API
    key before its [try] statement.  When that lookup raises, which it
    does exactly when the environment holds no key, nothing is cached
    and the [.env] file that is found cannot be read, the exception
    leaves [generate_daily_summary] and nothing is sent.  When the
    lookup answers, [generate_daily_summary] returns a value for every
    input and every answer of the outside world.  It returns the
    fallback rendering, and sends nothing, when the key is empty and
    when the filter leaves no command and there is no manual learning.
    It returns the fallback rendering when the request raises (no
    route, timeout, a status that is not 2xx), when the body is not JSON
    text, and when the reply lacks the expected path.  It sends at most
    one request, a POST over HTTPS with a timeout of 20 seconds. *)
Theorem generate_daily_summary_raises_only_in_key_lookup :
  forall w commands manual_learnings,
    let r := generate w commands manual_learnings in
    let fallback := fallback_of w commands manual_learnings in
    (forall e,
        _get_gemini_api_key w = Raise e
        <-> (forall v, Env.environ (env_world w) "GEMINI_API_KEY" = Some v ->
                       v = "")
            /\ env_cache w = None
            /\ Env._find_env_file (env_world w) = Some (Raise e))
    /\ (forall e, _get_gemini_api_key w = Raise e -> r = (Raise e, []))
    /\ (forall e, fst r = Raise e -> _get_gemini_api_key w = Raise e)
    /\ (forall api_key,
          _get_gemini_api_key w = Ok api_key ->
          let req :=
            request_of w api_key (_filter_commands commands)
                       manual_learnings in
          (exists v, fst r = Ok v)
          /\ (api_key = "" -> r = (fallback, []))
          /\ (_filter_commands commands = [] -> manual_learnings = [] ->
              r = (fallback, []))
          /\ (forall e, urlopen w req = Raise e -> fst r = fallback)
          /\ (forall body e,
                urlopen w req = Ok body -> loads_utf8 body = Raise e ->
                fst r = fallback)
          /\ (forall body reply e,
                urlopen w req = Ok body -> loads_utf8 body = Ok reply ->
                extract_text reply = Raise e ->
                fst r = fallback)
          /\ (snd r = [] \/ snd r = [req])
          /\ method req = "POST"
          /\ timeout_s req = 20%Z
          /\ startswith "https://" (url req) = true).
Proof.
  intros w commands manual_learnings r fallback.
  split; [intros e; apply _get_gemini_api_key_raises|].
  split; [|split].
  - intros e K. subst r. unfold generate_daily_summary. rewrite K.
    reflexivity.
  - intros e H. destruct (_get_gemini_api_key w) as [api_key|x] eqn:K.
    + destruct (generate_daily_summary_with_key w api_key commands
                  manual_learnings K) as ((v & Hv) & _).
      subst r. rewrite Hv in H. discriminate.
    + subst r. unfold generate_daily_summary in H. rewrite K in H.
      cbn [fst] in H. injection H as ->. reflexivity.
  - intros api_key K.
    exact (generate_daily_summary_with_key w api_key commands
             manual_learnings K).
Qed.

(** X5.  With an API key and something to summarise, a reply of the
    expected shape is returned as it is, whatever its [text] field holds:
    the value need not be a string. *)
Theorem generate_daily_summary_reply
        w api_key commands manual_learnings body reply v :
  _get_gemini_api_key w = Ok api_key ->
  api_key <> "" ->
  _filter_commands commands <> [] \/ manual_learnings <> [] ->
  urlopen w (request_of w api_key (_filter_commands commands)
                        manual_learnings)
  = Ok body ->
  loads_utf8 body = Ok reply ->
  extract_text reply = Ok v ->
  fst (generate w commands manual_learnings) = Ok v.
Proof.
  intros K Hkey Hsome Hb Hr Hv.
  unfold generate_daily_summary. rewrite K.
  destruct (truthy api_key) eqn:Ekey;
    [|apply truthy_empty in Ekey; congruence].
  cbn [negb].
  destruct (negb (nonempty (_filter_commands commands))
            && negb (nonempty manual_learnings)) eqn:Eempty.
  - apply andb_true_iff in Eempty as [E1 E2].
    apply negb_true_iff in E1, E2.
    apply nonempty_false in E1, E2. destruct Hsome; congruence.
  - cbn [fst].
    fold (request_of w api_key (_filter_commands commands) manual_learnings).
    rewrite Hb. cbn [bind]. rewrite Hr. cbn [bind]. rewrite Hv.
    reflexivity.
Qed.
End Summary.

Lemma generate_daily_summary_reply_witness :
  fst (generate_daily_summary "" (fun _ _ _ => "") (fun _ => Ok number_reply)
         (keyed_world (fun _ => Ok [])) ["make test"] [])
  = Ok (JInt 42).
Proof.
  apply (generate_daily_summary_reply "" (fun _ _ _ => "")
           (fun _ => Ok number_reply)
           (keyed_world (fun _ => Ok [])) "k"
           ["make test"] [] [] number_reply (JInt 42)).
  - reflexivity.
  - discriminate.
  - left. discriminate.
  - reflexivity.
  - reflexivity.
  - reflexivity.
Defined.

Lemma generate_daily_summary_raises_only_in_key_lookup_witness :
  (exists v,
      fst (generate_daily_summary "" (fun _ _ _ => "")
             (fun _ => Raise JSONDecodeError)
             (keyed_world (fun _ => Ok [])) ["make test"] [])
      = Ok v)
  /\ fst (generate_daily_summary "" (fun _ _ _ => "")
            (fun _ => Raise JSONDecodeError)
            (keyed_world (fun _ => Ok [])) ["make test"] [])
     = fallback_of (keyed_world (fun _ => Ok [])) ["make test"] []
  /\ generate_daily_summary "" (fun _ _ _ => "")
       (fun _ => Raise JSONDecodeError)
       undecodable_env_world ["make test"] []
     = (Raise UnicodeDecodeError, []).
Proof.
  destruct (generate_daily_summary_raises_only_in_key_lookup
              "" (fun _ _ _ => "") (fun _ => Raise JSONDecodeError)
              (keyed_world (fun _ => Ok [])) ["make test"] [])
    as (_ & _ & _ & H).
  destruct (H "k" eq_refl) as (R & _ & _ & _ & B & _).
  split; [exact R|]. split; [exact (B [] JSONDecodeError eq_refl eq_refl)|].
  destruct (generate_daily_summary_raises_only_in_key_lookup
              "" (fun _ _ _ => "") (fun _ => Raise JSONDecodeError)
              undecodable_env_world ["make test"] [])
    as (_ & H' & _).
  exact (H' UnicodeDecodeError eq_refl).
Defined.

(** C5 as the specification words it fails: with no key in the
    environment and a [.env.local] that is not UTF-8 text the lookup of
    the key raises, and the exception leaves [generate_daily_summary],
    also when [config.yaml] holds a key and the network answers. *)
Lemma generate_daily_summary_raises_on_undecodable_env :
  generate_daily_summary "" (fun _ _ _ => "") (fun _ => Ok number_reply)
    undecodable_env_world ["make test"] ["rebase before merge"]
  = (Raise UnicodeDecodeError, [])
  /\ configured_api_key undecodable_env_world = "k"
  /\ Env.dot_env_local (env_world undecodable_env_world)
     = Some (Raise UnicodeDecodeError).
Proof. repeat split; reflexivity. Qed.

End AiFacts.

(* ================================================================== *)
(** * More properties of the command filter *)
(* ================================================================== *)

Module AiMoreFacts.
Import Py PyFacts PyMoreFacts Ai AiFacts.

Lemma is_noise_strip cmd : is_noise (strip cmd) = is_noise cmd.
Proof.
  unfold is_noise, base_of, full_base_of.
  rewrite !strip_idem, (split_strip cmd). reflexivity.
Qed.

Lemma length_last_n {A} n (l : list A) : (List.length (last_n n l) <= n)%nat.
Proof. unfold last_n. rewrite length_skipn. lia. Qed.

Lemma last_n_all {A} n (l : list A) :
  (List.length l <= n)%nat -> last_n n l = l.
Proof.
  intros H. unfold last_n.
  replace (List.length l - n)%nat with 0%nat by lia. reflexivity.
Qed.

Lemma last_n_suffix {A} n (l : list A) :
  exists dropped, l = dropped ++ last_n n l.
Proof.
  exists (firstn (List.length l - n) l). unfold last_n.
  symmetry. apply firstn_skipn.
Qed.

Lemma filter_all {A} (p : A -> bool) l :
  Forall (fun x => p x = true) l -> filter p l = l.
Proof.
  induction 1 as [|x l Hx _ IH]; simpl; [reflexivity|].
  rewrite Hx, IH. reflexivity.
Qed.

Lemma map_fixed {A} (f : A -> A) l :
  Forall (fun x => f x = x) l -> map f l = l.
Proof.
  induction 1 as [|x l Hx _ IH]; simpl; [reflexivity|].
  rewrite Hx, IH. reflexivity.
Qed.

Lemma _filter_commands_members commands :
  Forall (fun out =>
            strip out = out /\ is_noise out = false
            /\ exists cmd, In cmd commands /\ is_noise cmd = false
                           /\ out = strip cmd)
         (_filter_commands commands).
Proof.
  apply Forall_forall. intros out Hin. unfold _filter_commands in Hin.
  apply In_last_n, in_map_iff in Hin. destruct Hin as (cmd & <- & Hin).
  apply filter_In in Hin as [Hin Hn]. apply negb_true_iff in Hn.
  split; [apply strip_idem|]. split; [rewrite is_noise_strip; exact Hn|].
  exists cmd. auto.
Qed.

Lemma length_last_n_min {A} n (l : list A) :
  List.length (last_n n l) = Nat.min n (List.length l).
Proof. unfold last_n. rewrite length_skipn. lia. Qed.

(** X15.  [_filter_commands] answers the last 80 of the commands that
    are no noise, in their order and each without the blanks around it,
    and all of them when they are 80 or fewer: the answer is the end of
    the list of kept commands, and its length is the smaller of 80 and
    the number of kept commands.  No answer is noise itself, so
    filtering a second time changes nothing. *)
Theorem _filter_commands_bounded_idempotent :
  forall commands,
    let kept := filter (fun cmd => negb (is_noise cmd)) commands in
    (List.length (_filter_commands commands) <= 80)%nat
    /\ List.length (_filter_commands commands)
       = Nat.min 80 (List.length kept)
    /\ (exists dropped,
          map strip kept = dropped ++ _filter_commands commands
          /\ List.length dropped = (List.length kept - 80)%nat)
    /\ ((List.length kept <= 80)%nat ->
        _filter_commands commands = map strip kept)
    /\ Forall (fun out => strip out = out /\ is_noise out = false)
              (_filter_commands commands)
    /\ _filter_commands (_filter_commands commands)
       = _filter_commands commands.
Proof.
  intros commands kept.
  pose proof (_filter_commands_members commands) as M.
  assert (L : (List.length (_filter_commands commands) <= 80)%nat)
    by apply length_last_n.
  assert (E : List.length (_filter_commands commands)
              = Nat.min 80 (List.length kept)).
  { unfold _filter_commands. fold kept.
    rewrite length_last_n_min, length_map. reflexivity. }
  split; [exact L|]. split; [exact E|]. split; [|split; [|split]].
  - destruct (last_n_suffix 80 (map strip kept)) as (dropped & D).
    exists dropped. split; [exact D|].
    apply (f_equal (@List.length string)) in D.
    rewrite length_app, length_map in D.
    rewrite length_last_n_min, length_map in D. lia.
  - intros H. unfold _filter_commands. fold kept.
    apply last_n_all. rewrite length_map. exact H.
  - eapply Forall_impl; [|exact M]. intros out (H1 & H2 & _). auto.
  - unfold _filter_commands at 1.
    rewrite filter_all, map_fixed, last_n_all; try assumption; try reflexivity.
    + eapply Forall_impl; [|exact M]. intros out (H1 & _). exact H1.
    + eapply Forall_impl; [|exact M]. intros out (_ & H2 & _).
      rewrite H2. reflexivity.
Qed.

(** Of three commands, one of them noise, the two others are kept in
    their order and without the blanks around them. *)
Lemma _filter_commands_example :
  _filter_commands ["  make test "; "ls"; "git commit -m wip"]
  = ["make test"; "git commit -m wip"].
Proof. reflexivity. Qed.

End AiMoreFacts.

(* ================================================================== *)
(** * Properties of the [learn] command *)
(* ================================================================== *)

Module CliFacts.
Import Py Cli.

(** [add_learning] has no test of its own: it appends a row for any
    content and answers the rowid of that row. *)
Lemma add_learning_inserts now content tags st :
  Db.add_learning now content (Some tags) st
  = ((Db.learnings_seq st + 1)%Z,
     with_learning (new_learning now content tags st) st).
Proof. reflexivity. Qed.



(** A learning goes in, and a failing [INSERT] is reported: the run
    exits with status 1 and the table is as [init_db] made it. *)
Lemma handle_learn_examples :
  handle_learn 1500 (LearnArgs "use rebase" "git,vcs") None None
  = (Returned,
     Some (Db.Store [Db.Learning 1 "use rebase" 1000 (Json.dumps ["git"; "vcs"])
                       1000 0] 1 [] 0),
     [added 1])
  /\ handle_learn 1500 (LearnArgs "use rebase" "git,vcs")
                  (Some "database is locked") None
     = (SystemExit 1, Some Db.empty_store,
        ["Failed to add learning: database is locked"])
  /\ handle_learn 1500 (LearnArgs "" "git") None None
     = (SystemExit 1, None, [content_required]).
Proof. repeat split; reflexivity. Qed.


End CliFacts.

(* ================================================================== *)
(** * The effects of the daily sync *)
(* ================================================================== *)

Module SyncFacts.
Import Py GithubSync.

Lemma mbind_Ok {A B} (m : M A) (k : A -> M B) s a s1 :
  m s = (Ok a, s1) -> mbind m k s = k a s1.
Proof. intros H. unfold mbind. rewrite H. reflexivity. Qed.

Lemma mbind_Raise {A B} (m : M A) (k : A -> M B) s x s1 :
  m s = (Raise x, s1) -> mbind m k s = (Raise x, s1).
Proof. intros H. unfold mbind. rewrite H. reflexivity. Qed.

(** ** Which events a computation appends *)

Lemma emits_silent {A} P (m : M A) :
  (forall s, trace (snd (m s)) = trace s) -> emits P m.
Proof.
  intros H s. exists []. rewrite app_nil_r. split; [apply H|reflexivity].
Qed.

Lemma emits_ret {A} P (a : A) : emits P (ret a).
Proof. apply emits_silent. reflexivity. Qed.

Lemma emits_raise {A} P x : emits P (@raise A x).
Proof. apply emits_silent. reflexivity. Qed.

Lemma emits_get_state P : emits P get_state.
Proof. apply emits_silent. reflexivity. Qed.

Lemma emits_put_db P st : emits P (put_db st).
Proof. apply emits_silent. reflexivity. Qed.

Lemma emits_set_repo_dir_exists P : emits P set_repo_dir_exists.
Proof. apply emits_silent. reflexivity. Qed.

Lemma emits_emit P ev : P ev = true -> emits P (emit ev).
Proof.
  intros H s. exists [ev]. simpl. rewrite H. split; reflexivity.
Qed.

Lemma emits_bind {A B} P (m : M A) (k : A -> M B) :
  emits P m -> (forall a, emits P (k a)) -> emits P (mbind m k).
Proof.
  intros Hm Hk s. destruct (Hm s) as (evs1 & E1 & F1).
  unfold mbind. destruct (m s) as [[a|x] s1]; simpl in E1.
  - destruct (Hk a s1) as (evs2 & E2 & F2).
    exists (evs1 ++ evs2). rewrite E2, E1, app_assoc, forallb_app, F1, F2.
    split; reflexivity.
  - exists evs1. simpl. auto.
Qed.

Lemma emits_try P (m : M unit) :
  emits P m -> emits P (try_called_process_error m).
Proof.
  intros Hm s. destruct (Hm s) as (evs & E & F).
  exists evs. split; [|exact F].
  unfold try_called_process_error.
  destruct (m s) as [[a|[]] s1]; simpl in *; exact E.
Qed.

Lemma emits_weaken {A} (P Q : event -> bool) (m : M A) :
  (forall ev, P ev = true -> Q ev = true) -> emits P m -> emits Q m.
Proof.
  intros HPQ Hm s. destruct (Hm s) as (evs & E & F).
  exists evs. split; [exact E|].
  rewrite forallb_forall in *. auto.
Qed.

Create HintDb emits.
#[local] Hint Resolve emits_ret emits_raise emits_get_state emits_put_db
  emits_set_repo_dir_exists emits_bind : emits.
#[local] Hint Extern 1 (emits _ (emit _)) =>
  (apply emits_emit; reflexivity) : emits.

(** ** Steps of a computation *)

Lemma run_git_run e check args s :
  git_on_path e = true ->
  run_git e check args s
  = (if check && negb (returncode (git e args (List.length (trace s))) =? 0)%Z
     then Raise (CalledProcessError
                   (returncode (git e args (List.length (trace s)))))
     else Ok (git e args (List.length (trace s))),
     State (db s) (repo_dir_exists s) (trace s ++ [EvGit args])).
Proof.
  intros G. unfold run_git, mbind, get_state, emit. rewrite G. cbn.
  destruct (check && _); reflexivity.
Qed.

Lemma run_git_not_found e check args s :
  git_on_path e = false ->
  run_git e check args s = (Raise FileNotFoundError, s).
Proof. intros G. unfold run_git. rewrite G. reflexivity. Qed.

Lemma authenticated_remote_url_run e s :
  authenticated_remote_url e s
  = (match lookup_fault e with
     | Some x => Raise x
     | None => Ok (_get_authenticated_remote_url e)
     end, s).
Proof.
  unfold authenticated_remote_url. destruct (lookup_fault e); reflexivity.
Qed.

Lemma emits_run_git P e check args :
  P (EvGit args) = true -> emits P (run_git e check args).
Proof.
  intros H. unfold run_git.
  destruct (negb (git_on_path e)); [apply emits_raise|].
  apply emits_bind; [apply emits_get_state|intros s0].
  apply emits_bind; [apply emits_emit; exact H|intros _].
  destruct (check && _); [apply emits_raise|apply emits_ret].
Qed.

Lemma emits_authenticated_remote_url P e :
  emits P (authenticated_remote_url e).
Proof.
  unfold authenticated_remote_url.
  destruct (lookup_fault e); [apply emits_raise|apply emits_ret].
Qed.

Lemma emits_raise_bind {A B} P x (k : A -> M B) :
  emits P (mbind (raise x) k).
Proof. intros s. exists []. rewrite app_nil_r. split; reflexivity. Qed.

Lemma emits_ret_bind {A B} P (a : A) (k : A -> M B) :
  emits P (k a) -> emits P (mbind (ret a) k).
Proof. intros H s. exact (H s). Qed.

Lemma emits_now P e : emits P (now e).
Proof. unfold now. auto with emits. Qed.

Lemma emits_the_store P : emits P the_store.
Proof. unfold the_store. auto with emits. Qed.

Lemma emits_store_all e calls : emits is_gather (store_all e calls).
Proof.
  induction calls as [|[source cmd] calls IH]; simpl; [apply emits_ret|].
  apply emits_bind; [apply emits_now|intros t].
  apply emits_bind; [apply emits_the_store|intros st].
  apply emits_bind; [apply emits_emit; reflexivity|intros _].
  apply emits_bind; [apply emits_put_db|intros _].
  exact IH.
Qed.

Lemma emits_run_collection e : emits is_gather (run_collection e).
Proof.
  unfold run_collection.
  apply emits_bind; [apply emits_the_store|intros st].
  apply emits_bind; [apply emits_put_db|intros _].
  repeat (apply emits_bind; [apply emits_store_all|intros _]).
  apply emits_store_all.
Qed.

Lemma emits__ensure_git_user e : emits is_setup (_ensure_git_user e).
Proof.
  unfold _ensure_git_user.
  apply emits_bind; [apply emits_run_git; reflexivity|intros p].
  destruct (negb _); [|apply emits_ret].
  repeat (apply emits_bind; [apply emits_run_git; reflexivity|intros _]).
  apply emits_ret.
Qed.

Lemma emits_setup_devlog_repo e : emits is_setup (setup_devlog_repo e).
Proof.
  unfold setup_devlog_repo.
  apply emits_bind; [apply emits_authenticated_remote_url|intros remote_url].
  apply emits_bind; [apply emits_get_state|intros s0].
  apply emits_bind.
  { destruct (negb _); [|apply emits_ret].
    apply emits_bind; [apply emits_emit; reflexivity|intros _].
    apply emits_bind; [apply emits_set_repo_dir_exists|intros _].
    repeat (apply emits_bind; [apply emits_run_git; reflexivity|intros _]).
    apply emits_ret. }
  intros _.
  apply emits_bind; [apply emits__ensure_git_user|intros _].
  apply emits_bind; [|intros _; apply emits_ret].
  destruct (truthy _); [|apply emits_ret].
  apply emits_bind; [apply emits_run_git; reflexivity|intros p].
  destruct (str_in _ _);
    (apply emits_bind; [apply emits_run_git; reflexivity|intros _]);
    apply emits_ret.
Qed.

Lemma setup_is_publish ev : is_setup ev = true -> is_publish ev = true.
Proof. intros H. unfold is_publish. rewrite H. reflexivity. Qed.

Lemma emits_git_commit_and_push e : emits is_publish (git_commit_and_push e).
Proof.
  unfold git_commit_and_push.
  apply emits_bind;
    [eapply emits_weaken; [apply setup_is_publish|apply emits_setup_devlog_repo]
    |intros _].
  apply emits_try.
  apply emits_bind; [apply emits_run_git; reflexivity|intros _].
  apply emits_bind; [apply emits_run_git; reflexivity|intros p].
  destruct (negb _ && _); [apply emits_ret|].
  apply emits_bind; [apply emits_authenticated_remote_url|intros remote_url].
  destruct (truthy _); [|apply emits_ret].
  repeat (apply emits_bind; [apply emits_run_git; reflexivity|intros _]).
  apply emits_ret.
Qed.

Lemma emits_emit_all P evs : forallb P evs = true -> emits P (emit_all evs).
Proof.
  induction evs as [|ev evs IH]; simpl; intros H; [apply emits_ret|].
  apply andb_true_iff in H as [H1 H2].
  apply emits_bind; [apply emits_emit; exact H1|intros _]. auto.
Qed.

Lemma emits_generate_daily_summary e commands manual_learnings :
  emits is_gather (generate_daily_summary e commands manual_learnings).
Proof.
  unfold generate_daily_summary.
  destruct (Ai.generate_daily_summary _ _ _ _ _ _) as [answer requests].
  apply emits_bind.
  - apply emits_emit_all. induction requests; simpl; auto.
  - intros _. destruct answer; [apply emits_ret|apply emits_raise].
Qed.

(** ** The shape of the steps around the file *)

(** [save_daily_markdown] prepares the working tree and then, unless it
    raises, writes the file as its last effect. *)
Lemma save_daily_markdown_trace e v s :
  exists setup,
    forallb is_setup setup = true
    /\ ((exists path text,
            fst (save_daily_markdown e v s) = Ok path
            /\ trace (snd (save_daily_markdown e v s))
               = trace s ++ setup ++ [EvWriteText path text]
            /\ v = Ai.JStr text)
        \/ (exists x,
               fst (save_daily_markdown e v s) = Raise x
               /\ trace (snd (save_daily_markdown e v s)) = trace s ++ setup)).
Proof.
  unfold save_daily_markdown.
  destruct (emits_setup_devlog_repo e s) as (evs & E & F).
  destruct (setup_devlog_repo e s) as [[repo|x] s1] eqn:E1; simpl in E.
  - rewrite (mbind_Ok _ _ _ _ _ E1).
    exists (evs ++ [EvMkdir (repo ++ "/" ++ str_of_Z (Ai.year (today e)))%string]).
    split; [rewrite forallb_app, F; reflexivity|].
    destruct v; cbn; rewrite ?E;
      try (right; eexists; split; [reflexivity|];
           rewrite <- app_assoc; reflexivity).
    left. do 2 eexists. split; [reflexivity|]. split; [|reflexivity].
    rewrite <- !app_assoc. reflexivity.
  - rewrite (mbind_Raise _ _ _ _ _ E1). exists evs. split; [exact F|].
    right. exists x. simpl. auto.
Qed.

(** Marking returns with the rows marked and one event, or SQLite
    refuses the statement and nothing has happened. *)
Lemma mark_commands_processed_cases e ids s :
  let st := Db.init_db (db s) in
  (Db.mark_commands_processed (variable_limit e) ids st
   = Ok (Db.update_processed ids st)
   /\ mark_commands_processed e ids s
      = (Ok tt,
         State (match ids with
                | [] => db s
                | _ => Some (Db.update_processed ids st)
                end)
               (repo_dir_exists s) (trace s ++ marking ids)))
  \/ (exists x,
         Db.mark_commands_processed (variable_limit e) ids st = Raise x
         /\ mark_commands_processed e ids s = (Raise x, s)).
Proof.
  intros st. destruct ids as [|i ids].
  - left. split; [reflexivity|]. cbn. rewrite app_nil_r.
    destruct s; reflexivity.
  - unfold mark_commands_processed, the_store, mbind, get_state, ret.
    fold st.
    destruct (Db.mark_commands_processed (variable_limit e) (i :: ids) st)
      as [st'|x] eqn:E.
    + left. apply DbFacts.mark_commands_processed_Ok in E as E'. subst st'.
      split; reflexivity.
    + right. exists x. split; reflexivity.
Qed.

Lemma get_unprocessed_commands_run s :
  get_unprocessed_commands s
  = (Ok (Db.get_unprocessed_commands (Db.init_db (db s))),
     State (db s) (repo_dir_exists s) (trace s ++ [EvGetUnprocessedCommands])).
Proof. reflexivity. Qed.

(** One day fits 64 bits: the query of the sync returns. *)
Lemma get_learnings_since_run e s :
  get_learnings_since e 1 s
  = (Ok (Db.learnings_since (clock e (List.length (trace s))) 1
                            (Db.init_db (db s))),
     State (db s) (repo_dir_exists s) (trace s ++ [EvGetLearningsSince 1])).
Proof. reflexivity. Qed.

End SyncFacts.
(* ================================================================== *)
(** * The daily sync and the database file *)
(* ================================================================== *)

Module SyncMoreFacts.
Import Py GithubSync SyncFacts.

Section Keeps.
Variable I : state -> state -> Prop.
Hypothesis I_refl : forall s, I s s.
Hypothesis I_trans : forall s1 s2 s3, I s1 s2 -> I s2 s3 -> I s1 s3.

Lemma keeps_ret {A} (a : A) : keeps I (ret a).
Proof. intros s. apply I_refl. Qed.

Lemma keeps_raise {A} x : keeps I (@raise A x).
Proof. intros s. apply I_refl. Qed.

Lemma keeps_get_state : keeps I get_state.
Proof. intros s. apply I_refl. Qed.

Lemma keeps_bind {A B} (m : M A) (k : A -> M B) :
  keeps I m -> (forall a, keeps I (k a)) -> keeps I (mbind m k).
Proof.
  intros Hm Hk s. specialize (Hm s). unfold mbind.
  destruct (m s) as [[a|x] s1]; simpl in Hm; [|exact Hm].
  eapply I_trans; [exact Hm | apply Hk].
Qed.

Lemma keeps_try (m : M unit) :
  keeps I m -> keeps I (try_called_process_error m).
Proof.
  intros Hm s. specialize (Hm s). unfold try_called_process_error.
  destruct (m s) as [[a|[]] s1]; exact Hm.
Qed.
End Keeps.

Lemma same_db_refl s : same_db s s.
Proof. split; auto. Qed.

Lemma same_db_trans s1 s2 s3 : same_db s1 s2 -> same_db s2 s3 -> same_db s1 s3.
Proof. intros [D1 R1] [D2 R2]. split; [congruence | auto]. Qed.

Lemma same_db_bind {A B} (m : M A) (k : A -> M B) :
  keeps same_db m -> (forall a, keeps same_db (k a)) ->
  keeps same_db (mbind m k).
Proof. apply keeps_bind. exact same_db_trans. Qed.

Lemma same_db_ret {A} (a : A) : keeps same_db (ret a).
Proof. apply keeps_ret, same_db_refl. Qed.

Lemma same_db_raise {A} x : keeps same_db (@raise A x).
Proof. apply keeps_raise, same_db_refl. Qed.

Lemma same_db_emit ev : keeps same_db (emit ev).
Proof. intros s. split; auto. Qed.

Lemma same_db_set_repo_dir_exists : keeps same_db set_repo_dir_exists.
Proof. intros s. split; auto. Qed.

Lemma same_db_run_git e check args : keeps same_db (run_git e check args).
Proof.
  intros s. destruct (git_on_path e) eqn:G.
  - rewrite run_git_run by exact G. split; auto.
  - rewrite run_git_not_found by exact G. apply same_db_refl.
Qed.

Lemma same_db_authenticated_remote_url e :
  keeps same_db (authenticated_remote_url e).
Proof.
  intros s. rewrite authenticated_remote_url_run. apply same_db_refl.
Qed.

Lemma same_db__ensure_git_user e : keeps same_db (_ensure_git_user e).
Proof.
  unfold _ensure_git_user.
  apply same_db_bind; [apply same_db_run_git|intros p].
  destruct (negb _); [|apply same_db_ret].
  repeat (apply same_db_bind; [apply same_db_run_git|intros _]).
  apply same_db_ret.
Qed.

Lemma same_db_setup_devlog_repo e : keeps same_db (setup_devlog_repo e).
Proof.
  unfold setup_devlog_repo.
  apply same_db_bind;
    [apply same_db_authenticated_remote_url|intros remote_url].
  apply same_db_bind; [apply keeps_get_state, same_db_refl|intros s0].
  apply same_db_bind.
  { destruct (negb _); [|apply same_db_ret].
    apply same_db_bind; [apply same_db_emit|intros _].
    apply same_db_bind; [apply same_db_set_repo_dir_exists|intros _].
    repeat (apply same_db_bind; [apply same_db_run_git|intros _]).
    apply same_db_ret. }
  intros _.
  apply same_db_bind; [apply same_db__ensure_git_user|intros _].
  apply same_db_bind; [|intros _; apply same_db_ret].
  destruct (truthy _); [|apply same_db_ret].
  apply same_db_bind; [apply same_db_run_git|intros p].
  destruct (str_in _ _);
    (apply same_db_bind; [apply same_db_run_git|intros _]);
    apply same_db_ret.
Qed.

Lemma same_db_save_daily_markdown e v : keeps same_db (save_daily_markdown e v).
Proof.
  unfold save_daily_markdown.
  apply same_db_bind; [apply same_db_setup_devlog_repo|intros repo].
  apply same_db_bind; [apply same_db_emit|intros _].
  destruct v; try apply same_db_raise.
  apply same_db_bind; [apply same_db_emit|intros _]. apply same_db_ret.
Qed.

Lemma same_db_git_commit_and_push e : keeps same_db (git_commit_and_push e).
Proof.
  unfold git_commit_and_push.
  apply same_db_bind; [apply same_db_setup_devlog_repo|intros _].
  apply keeps_try.
  apply same_db_bind; [apply same_db_run_git|intros _].
  apply same_db_bind; [apply same_db_run_git|intros p].
  destruct (negb _ && _); [apply same_db_ret|].
  apply same_db_bind;
    [apply same_db_authenticated_remote_url|intros remote_url].
  destruct (truthy _); [|apply same_db_ret].
  repeat (apply same_db_bind; [apply same_db_run_git|intros _]).
  apply same_db_ret.
Qed.

Lemma same_db_emit_all evs : keeps same_db (emit_all evs).
Proof.
  induction evs as [|ev evs IH]; simpl; [apply same_db_ret|].
  apply same_db_bind; [apply same_db_emit|intros _; exact IH].
Qed.

Lemma same_db_generate_daily_summary e commands manual_learnings :
  keeps same_db (generate_daily_summary e commands manual_learnings).
Proof.
  unfold generate_daily_summary.
  destruct (Ai.generate_daily_summary _ _ _ _ _ _) as [answer requests].
  apply same_db_bind; [apply same_db_emit_all|intros _].
  destruct answer; [apply same_db_ret|apply same_db_raise].
Qed.

(** ** Computations that always return *)

Lemma returns_ret {A} (a : A) : returns (ret a).
Proof. intros s. exists a. reflexivity. Qed.

Lemma returns_bind {A B} (m : M A) (k : A -> M B) :
  returns m -> (forall a, returns (k a)) -> returns (mbind m k).
Proof.
  intros Hm Hk s. destruct (Hm s) as (a & Ha). unfold mbind.
  destruct (m s) as [[a'|x] s1]; simpl in Ha; [|discriminate].
  apply Hk.
Qed.

Lemma returns_get_state : returns get_state.
Proof. intros s. exists s. reflexivity. Qed.

Lemma returns_emit ev : returns (emit ev).
Proof. intros s. exists tt. reflexivity. Qed.

Lemma returns_run_git e args :
  git_on_path e = true -> returns (run_git e false args).
Proof. intros G s. rewrite run_git_run by exact G. simpl. eauto. Qed.

Lemma returns__ensure_git_user e :
  git_on_path e = true -> returns (_ensure_git_user e).
Proof.
  intros G. unfold _ensure_git_user.
  apply returns_bind; [apply returns_run_git, G|intros p].
  destruct (negb _); [|apply returns_ret].
  repeat (apply returns_bind; [apply returns_run_git, G|intros _]).
  apply returns_ret.
Qed.

Lemma returns_run {A} (m : M A) s :
  returns m -> keeps same_db m ->
  exists a s', m s = (Ok a, s') /\ same_db s s'.
Proof.
  intros Hr Hk. destruct (Hr s) as (a & Ha). specialize (Hk s).
  destruct (m s) as [r s'] eqn:E. simpl in Ha, Hk. subst r.
  exists a, s'. auto.
Qed.

(** [setup_devlog_repo] past [git init]. *)
Lemma returns_setup_rest e remote_url :
  git_on_path e = true ->
  returns (_ensure_git_user e ;;;
           (if truthy remote_url
            then existing <- run_git e false ["remote"] ;;
                 if str_in "origin" (splitlines (stdout existing))
                 then run_git e false ["remote"; "set-url"; "origin"; remote_url] ;;;
                      ret tt
                 else run_git e false ["remote"; "add"; "origin"; remote_url] ;;;
                      ret tt
            else ret tt) ;;;
           ret repo_dir).
Proof.
  intros G.
  apply returns_bind; [apply returns__ensure_git_user, G|intros _].
  apply returns_bind; [|intros _; apply returns_ret].
  destruct (truthy _); [|apply returns_ret].
  apply returns_bind; [apply returns_run_git, G|intros p].
  destruct (str_in _ _);
    (apply returns_bind; [apply returns_run_git, G|intros _]);
    apply returns_ret.
Qed.

Lemma same_db_setup_rest e remote_url :
  keeps same_db
        (_ensure_git_user e ;;;
         (if truthy remote_url
          then existing <- run_git e false ["remote"] ;;
               if str_in "origin" (splitlines (stdout existing))
               then run_git e false ["remote"; "set-url"; "origin"; remote_url] ;;;
                    ret tt
               else run_git e false ["remote"; "add"; "origin"; remote_url] ;;;
                    ret tt
          else ret tt) ;;;
         ret repo_dir).
Proof.
  apply same_db_bind; [apply same_db__ensure_git_user|intros _].
  apply same_db_bind; [|intros _; apply same_db_ret].
  destruct (truthy _); [|apply same_db_ret].
  apply same_db_bind; [apply same_db_run_git|intros p].
  destruct (str_in _ _);
    (apply same_db_bind; [apply same_db_run_git|intros _]);
    apply same_db_ret.
Qed.

(** [setup_devlog_repo] when the lookups answer. *)
Lemma setup_devlog_repo_unfold e s :
  lookup_fault e = None ->
  setup_devlog_repo e s
  = ((if negb (repo_dir_exists s)
      then emit (EvMkdir repo_dir) ;;;
           set_repo_dir_exists ;;;
           run_git e true ["init"] ;;;
           run_git e false ["checkout"; "-b"; "main"] ;;;
           ret tt
      else ret tt) ;;;
     _ensure_git_user e ;;;
     (if truthy (_get_authenticated_remote_url e)
      then existing <- run_git e false ["remote"] ;;
           if str_in "origin" (splitlines (stdout existing))
           then run_git e false
                  ["remote"; "set-url"; "origin";
                   _get_authenticated_remote_url e] ;;;
                ret tt
           else run_git e false
                  ["remote"; "add"; "origin";
                   _get_authenticated_remote_url e] ;;;
                ret tt
      else ret tt) ;;;
     ret repo_dir) s.
Proof.
  intros L. unfold setup_devlog_repo, authenticated_remote_url.
  rewrite L. reflexivity.
Qed.

(** When the lookups raise, nothing is done. *)
Lemma setup_devlog_repo_fault e s x :
  lookup_fault e = Some x -> setup_devlog_repo e s = (Raise x, s).
Proof.
  intros L. unfold setup_devlog_repo, authenticated_remote_url.
  rewrite L. reflexivity.
Qed.

(** Without git, [setup_devlog_repo] makes the directory when it is
    missing and raises at its first git command. *)
Lemma setup_devlog_repo_not_found e s :
  lookup_fault e = None -> git_on_path e = false ->
  setup_devlog_repo e s
  = (Raise FileNotFoundError,
     if repo_dir_exists s then s
     else State (db s) true (trace s ++ [EvMkdir repo_dir])).
Proof.
  intros L G. rewrite (setup_devlog_repo_unfold e s L).
  destruct (repo_dir_exists s) eqn:R; cbn [negb].
  - rewrite (mbind_Ok _ _ s tt s eq_refl).
    apply mbind_Raise. unfold _ensure_git_user.
    apply mbind_Raise. apply run_git_not_found. exact G.
  - apply mbind_Raise.
    unfold mbind at 1. cbn [emit].
    unfold mbind at 1. cbn [set_repo_dir_exists db repo_dir_exists trace].
    apply mbind_Raise. apply run_git_not_found. exact G.
Qed.

(** With git, [setup_devlog_repo] returns with the working tree in
    place, or it has just made the directory and [git init] failed. *)
Lemma setup_devlog_repo_outcome e s :
  lookup_fault e = None -> git_on_path e = true ->
  (exists a s', setup_devlog_repo e s = (Ok a, s')
                /\ repo_dir_exists s' = true /\ db s' = db s)
  \/ (repo_dir_exists s = false
      /\ exists rc,
          rc <> 0%Z
          /\ setup_devlog_repo e s
             = (Raise (CalledProcessError rc),
                State (db s) true
                      (trace s ++ [EvMkdir repo_dir; EvGit ["init"]]))).
Proof.
  intros L G. rewrite (setup_devlog_repo_unfold e s L).
  pose proof (returns_setup_rest e (_get_authenticated_remote_url e) G) as Hr.
  pose proof (same_db_setup_rest e (_get_authenticated_remote_url e)) as Hk.
  destruct (repo_dir_exists s) eqn:R; cbn [negb].
  - left. rewrite (mbind_Ok _ _ s tt s eq_refl).
    destruct (returns_run _ s Hr Hk) as (a & s' & E & D & F).
    exists a, s'. split; [exact E|]. split; [apply F; exact R | exact D].
  - set (s1 := State (db s) true (trace s ++ [EvMkdir repo_dir])).
    set (s2 := State (db s) true
                     (trace s ++ [EvMkdir repo_dir; EvGit ["init"]])).
    destruct (returncode (git e ["init"] (List.length (trace s1))) =? 0)%Z
      eqn:Gi.
    + left.
      assert (E : exists s3,
                 (emit (EvMkdir repo_dir) ;;;
                  set_repo_dir_exists ;;;
                  run_git e true ["init"] ;;;
                  run_git e false ["checkout"; "-b"; "main"] ;;;
                  ret tt) s = (Ok tt, s3)
                 /\ repo_dir_exists s3 = true /\ db s3 = db s).
      { eexists. unfold mbind at 1. cbn [emit].
        unfold mbind at 1. cbn [set_repo_dir_exists db repo_dir_exists trace].
        fold s1. unfold mbind at 1. rewrite (run_git_run _ _ _ _ G), Gi.
        cbn [andb negb].
        unfold mbind at 1. rewrite (run_git_run _ _ _ _ G). cbn [andb ret].
        split; [reflexivity|]. split; reflexivity. }
      destruct E as (s3 & E & R3 & D3).
      rewrite (mbind_Ok _ _ s tt s3 E).
      destruct (returns_run _ s3 Hr Hk) as (a & s' & E' & D & F).
      exists a, s'. split; [exact E'|]. split; [apply F; exact R3|].
      rewrite D. exact D3.
    + right. split; [reflexivity|].
      exists (returncode (git e ["init"] (List.length (trace s1)))).
      split; [apply Z.eqb_neq; exact Gi|].
      apply mbind_Raise.
      unfold mbind at 1. cbn [emit].
      unfold mbind at 1. cbn [set_repo_dir_exists db repo_dir_exists trace].
      fold s1. unfold mbind at 1. rewrite (run_git_run _ _ _ _ G), Gi.
      cbn [andb negb].
      unfold s1, s2. cbn [db repo_dir_exists trace].
      rewrite <- app_assoc. reflexivity.
Qed.

(** A [setup_devlog_repo] that returns had lookups that answered and a
    git to run. *)
Lemma setup_devlog_repo_Ok e s a s' :
  setup_devlog_repo e s = (Ok a, s') ->
  lookup_fault e = None /\ git_on_path e = true.
Proof.
  intros E. destruct (lookup_fault e) as [x|] eqn:L.
  - rewrite (setup_devlog_repo_fault e s x L) in E. discriminate.
  - split; [reflexivity|]. destruct (git_on_path e) eqn:G; [reflexivity|].
    rewrite (setup_devlog_repo_not_found e s L G) in E. discriminate.
Qed.

(** ** [git_commit_and_push] *)

(** Past [setup_devlog_repo]: [git add]; then [git commit] unless
    [git add] failed; then [git pull] and [git push] when the commit
    did not answer [nothing to commit] and a remote is configured. *)
Lemma publish_run e s :
  lookup_fault e = None -> git_on_path e = true ->
  exists k,
    try_called_process_error
      (run_git e true ["add"; "."] ;;;
       committed <- run_git e false ["commit"; "-m"; commit_msg e] ;;
       if negb (returncode committed =? 0)%Z
          && contains "nothing to commit" (stdout committed)
       then ret tt
       else
         remote_url <- authenticated_remote_url e ;;
         if truthy remote_url
         then run_git e false ["pull"; "--rebase"; "origin"; "main"] ;;;
              run_git e false ["push"; "--set-upstream"; "origin"; "main"] ;;;
              ret tt
         else ret tt) s
    = (Ok tt,
       State (db s) (repo_dir_exists s)
             (trace s ++ firstn k (publish_steps e)))
    /\ (k = 1 \/ k = 2 \/ k = 4)%nat
    /\ (k = 1%nat
        <-> returncode (git e ["add"; "."] (List.length (trace s))) <> 0%Z)
    /\ (k = 4%nat -> truthy (_get_authenticated_remote_url e) = true).
Proof.
  intros L G. unfold try_called_process_error.
  set (p1 := git e ["add"; "."] (List.length (trace s))).
  set (s1 := State (db s) (repo_dir_exists s)
                   (trace s ++ [EvGit ["add"; "."]])).
  assert (R1 : run_git e true ["add"; "."] s
               = (if negb (returncode p1 =? 0)%Z
                  then Raise (CalledProcessError (returncode p1))
                  else Ok p1, s1)).
  { rewrite (run_git_run _ _ _ _ G). reflexivity. }
  destruct (returncode p1 =? 0)%Z eqn:A; cbn [negb] in R1.
  2:{ exists 1%nat. rewrite (mbind_Raise _ _ _ _ _ R1).
      split; [reflexivity|]. split; [auto|]. split.
      - split; [intros _; apply Z.eqb_neq; exact A | reflexivity].
      - discriminate. }
  apply Z.eqb_eq in A.
  rewrite (mbind_Ok _ _ _ _ _ R1).
  set (p2 := git e ["commit"; "-m"; commit_msg e] (List.length (trace s1))).
  set (s2 := State (db s) (repo_dir_exists s)
                   (trace s
                      ++ [EvGit ["add"; "."];
                          EvGit ["commit"; "-m"; commit_msg e]])).
  assert (R2 : run_git e false ["commit"; "-m"; commit_msg e] s1
               = (Ok p2, s2)).
  { rewrite (run_git_run _ _ _ _ G). cbn [andb]. unfold s1, s2.
    cbn [db repo_dir_exists trace]. rewrite <- app_assoc. reflexivity. }
  rewrite (mbind_Ok _ _ _ _ _ R2).
  assert (K2 : (2 = 1)%nat <-> returncode p1 <> 0%Z)
    by (split; [discriminate | intros H; contradiction]).
  destruct (negb (returncode p2 =? 0)%Z
            && contains "nothing to commit" (stdout p2)).
  { exists 2%nat. split; [reflexivity|]. split; [auto|].
    split; [exact K2 | discriminate]. }
  rewrite (mbind_Ok _ _ s2 (_get_authenticated_remote_url e) s2)
    by (rewrite authenticated_remote_url_run, L; reflexivity).
  destruct (truthy (_get_authenticated_remote_url e)) eqn:U.
  2:{ exists 2%nat. split; [reflexivity|]. split; [auto|].
      split; [exact K2 | discriminate]. }
  exists 4%nat. split; [|split; [auto|split; [|reflexivity]]].
  - unfold mbind at 1. rewrite (run_git_run _ _ _ _ G). cbn [andb].
    unfold mbind at 1. rewrite (run_git_run _ _ _ _ G). cbn [andb].
    unfold s2. cbn [db repo_dir_exists trace ret].
    rewrite <- !app_assoc. reflexivity.
  - split; [discriminate | intros H; contradiction].
Qed.

(** What [git_commit_and_push] does, case by case. *)
Lemma git_commit_and_push_cases e s :
  match lookup_fault e with
  | Some x => git_commit_and_push e s = (Raise x, s)
  | None =>
      if git_on_path e
      then (exists setup k,
               git_commit_and_push e s
               = (Ok tt,
                  State (db s) true
                        (trace s ++ setup ++ firstn k (publish_steps e)))
               /\ forallb is_setup setup = true
               /\ (k = 1 \/ k = 2 \/ k = 4)%nat
               /\ (k = 1%nat
                   <-> returncode (git e ["add"; "."]
                                       (List.length (trace s ++ setup)))
                       <> 0%Z)
               /\ (k = 4%nat ->
                   truthy (_get_authenticated_remote_url e) = true))
           \/ (repo_dir_exists s = false
               /\ exists rc,
                   rc <> 0%Z
                   /\ git_commit_and_push e s
                      = (Raise (CalledProcessError rc),
                         State (db s) true
                               (trace s
                                  ++ [EvMkdir repo_dir; EvGit ["init"]])))
      else git_commit_and_push e s
           = (Raise FileNotFoundError,
              if repo_dir_exists s then s
              else State (db s) true (trace s ++ [EvMkdir repo_dir]))
  end.
Proof.
  unfold git_commit_and_push.
  destruct (lookup_fault e) as [x|] eqn:L.
  { apply mbind_Raise. apply setup_devlog_repo_fault. exact L. }
  destruct (git_on_path e) eqn:G.
  2:{ apply mbind_Raise. apply setup_devlog_repo_not_found; assumption. }
  destruct (setup_devlog_repo_outcome e s L G)
    as [(a & s' & E & R & D) | (R & rc & Hrc & E)].
  - left. rewrite (mbind_Ok _ _ _ _ _ E).
    destruct (emits_setup_devlog_repo e s) as (setup & T & F).
    rewrite E in T. cbn [snd] in T.
    destruct (publish_run e s' L G) as (k & P & K & K1 & K4).
    exists setup, k. rewrite P, R, D, T, <- app_assoc.
    split; [reflexivity|]. split; [exact F|]. split; [exact K|].
    split; [|exact K4]. rewrite <- T. exact K1.
  - right. split; [exact R|]. exists rc. split; [exact Hrc|].
    apply mbind_Raise. exact E.
Qed.

(** X16.  [git_commit_and_push] never touches the database file.  When
    the lookups of the remote URL raise, their exception leaves it and
    nothing is done.  When git cannot be started, [FileNotFoundError]
    leaves it; nothing was run, and the directory of the working tree
    was made when it did not exist.  Otherwise it returns normally
    whatever git answers to [add], [commit], [pull] and [push], having
    run [git add], then [git commit] unless [git add] failed, then
    [git pull] and [git push] only with a remote configured, except in
    one case: the directory of the working tree did not exist and
    [git init] failed with some status; then [CalledProcessError] leaves
    it, the directory has been made and nothing but [git init] was
    run. *)
Theorem git_commit_and_push_outcome :
  forall e s,
    db (snd (git_commit_and_push e s)) = db s
    /\ match lookup_fault e with
       | Some x => git_commit_and_push e s = (Raise x, s)
       | None =>
           if git_on_path e
           then (exists setup k,
                    git_commit_and_push e s
                    = (Ok tt,
                       State (db s) true
                             (trace s ++ setup
                                ++ firstn k (publish_steps e)))
                    /\ forallb is_setup setup = true
                    /\ (k = 1 \/ k = 2 \/ k = 4)%nat
                    /\ (k = 1%nat
                        <-> returncode (git e ["add"; "."]
                                            (List.length (trace s ++ setup)))
                            <> 0%Z)
                    /\ (k = 4%nat ->
                        truthy (_get_authenticated_remote_url e) = true))
                \/ (repo_dir_exists s = false
                    /\ exists rc,
                        rc <> 0%Z
                        /\ git_commit_and_push e s
                           = (Raise (CalledProcessError rc),
                              State (db s) true
                                    (trace s
                                       ++ [EvMkdir repo_dir;
                                           EvGit ["init"]])))
           else git_commit_and_push e s
                = (Raise FileNotFoundError,
                   if repo_dir_exists s then s
                   else State (db s) true (trace s ++ [EvMkdir repo_dir]))
       end.
Proof.
  intros e s. split; [apply same_db_git_commit_and_push|].
  apply git_commit_and_push_cases.
Qed.

(** The four outcomes on the machine for examples: a run that pushes;
    no git; a [git init] that fails; lookups that raise. *)
Lemma git_commit_and_push_examples :
  (fst (git_commit_and_push quiet_env fresh_state) = Ok tt
   /\ milestones (trace (snd (git_commit_and_push quiet_env fresh_state)))
      = [Committed; Pushed])
  /\ git_commit_and_push (with_git false (git quiet_env) quiet_env)
                         fresh_state
     = (Raise FileNotFoundError, State None true [EvMkdir repo_dir])
  /\ git_commit_and_push
       (with_git true (fun _ _ => CompletedProcess 128 "" "") quiet_env)
       fresh_state
     = (Raise (CalledProcessError 128),
        State None true [EvMkdir repo_dir; EvGit ["init"]])
  /\ git_commit_and_push (with_lookup_fault AttributeError quiet_env)
                         fresh_state
     = (Raise AttributeError, fresh_state).
Proof. repeat split; vm_compute; reflexivity. Qed.

(** ** The collection *)

Lemma store_all_cons e source cmd calls s :
  store_all e ((source, cmd) :: calls) s
  = store_all e calls
      (State (Some (Db.store_raw_command (clock e (List.length (trace s)))
                      source cmd (Db.init_db (db s))))
             (repo_dir_exists s)
             (trace s ++ [EvStoreRawCommand source cmd])).
Proof. reflexivity. Qed.

Lemma queued_store_raw_command t source cmd st c :
  In c (Db.unprocessed_texts st) ->
  In c (Db.unprocessed_texts (Db.store_raw_command t source cmd st)).
Proof.
  intros H. rewrite DbFacts.unprocessed_texts_store.
  destruct (existsb _ _); [exact H|]. apply in_app_iff. left. exact H.
Qed.

(** What [store_all] leaves: it returns, the working tree is as before,
    the store came about by writing operations that leave the learnings
    alone, and every text it was given is queued. *)
Lemma store_all_run e calls : forall s,
  exists s1,
    store_all e calls s = (Ok tt, s1)
    /\ repo_dir_exists s1 = repo_dir_exists s
    /\ Db.writes (Db.init_db (db s)) (Db.init_db (db s1))
    /\ Db.learnings (Db.init_db (db s1)) = Db.learnings (Db.init_db (db s))
    /\ (forall st, db s = Some st -> exists st1, db s1 = Some st1)
    /\ (forall c, queued c s -> queued c s1)
    /\ Forall (fun call => queued (snd call) s1) calls.
Proof.
  induction calls as [|[source cmd] calls IH]; intros s.
  - exists s. repeat split; auto.
    + apply Db.writes_refl.
    + intros st H. exists st. exact H.
  - rewrite store_all_cons.
    set (st' := Db.store_raw_command _ source cmd (Db.init_db (db s))).
    set (s' := State (Some st') _ _).
    destruct (IH s') as (s1 & E & R & W & L & D & Q & F).
    exists s1. split; [exact E|]. split; [exact R|]. split; [|split; [|split; [|split]]].
    + eapply DbMoreFacts.writes_trans; [|exact W].
      eapply Db.writes_step; [apply Db.writes_refl|].
      apply Db.write_store_raw_command.
    + rewrite L. subst s' st'. cbn [db Db.init_db].
      unfold Db.store_raw_command. destruct (existsb _ _); reflexivity.
    + intros st _. apply (D st'). reflexivity.
    + intros c Hc. apply Q. unfold queued. subst s' st'. cbn [db Db.init_db].
      apply queued_store_raw_command. exact Hc.
    + constructor; [|exact F]. apply Q. unfold queued. subst s' st'.
      cbn [db Db.init_db snd]. apply DbFacts.present_after_store.
Qed.

(** Texts that are queued already are not stored again. *)
Lemma store_all_queued e calls : forall s st,
  db s = Some st ->
  Forall (fun call => queued (snd call) s) calls ->
  db (snd (store_all e calls s)) = Some st.
Proof.
  induction calls as [|[source cmd] calls IH]; intros s st D F.
  - exact D.
  - rewrite store_all_cons. inversion F as [|x l Hq F']; subst.
    unfold queued in Hq. rewrite D in *. cbn [Db.init_db snd] in *.
    rewrite DbFacts.store_raw_command_present
      by (apply DbFacts.existsb_copy_In; exact Hq).
    apply IH; [reflexivity|].
    eapply Forall_impl; [|exact F']. intros call. unfold queued.
    cbn [db]. rewrite D. auto.
Qed.

Lemma run_collection_unfold e s :
  run_collection e s
  = (store_all e (Collector.collect_shell_history (decode e) "zsh"
                    (zsh_history e) 200) ;;;
     store_all e (Collector.collect_shell_history (decode e) "bash"
                    (bash_history e) 200) ;;;
     store_all e (Collector.collect_git_logs (git_logs e)))
      (State (Some (Db.init_db (db s))) (repo_dir_exists s) (trace s)).
Proof. reflexivity. Qed.

(** What [run_collection] leaves. *)
Lemma run_collection_run e s :
  exists s1 st1,
    run_collection e s = (Ok tt, s1)
    /\ db s1 = Some st1
    /\ repo_dir_exists s1 = repo_dir_exists s
    /\ Db.writes (Db.init_db (db s)) st1
    /\ Db.learnings st1 = Db.learnings (Db.init_db (db s))
    /\ Forall (fun call => queued (snd call) s1)
              (Collector.collect_shell_history (decode e) "zsh"
                 (zsh_history e) 200
               ++ Collector.collect_shell_history (decode e) "bash"
                    (bash_history e) 200
               ++ Collector.collect_git_logs (git_logs e)).
Proof.
  rewrite run_collection_unfold.
  set (s0 := State (Some (Db.init_db (db s))) (repo_dir_exists s) (trace s)).
  destruct (store_all_run e (Collector.collect_shell_history (decode e) "zsh"
                               (zsh_history e) 200) s0)
    as (sa & Ea & Ra & Wa & La & Da & Qa & Fa).
  destruct (store_all_run e (Collector.collect_shell_history (decode e) "bash"
                               (bash_history e) 200) sa)
    as (sb & Eb & Rb & Wb & Lb & Db' & Qb & Fb).
  destruct (store_all_run e (Collector.collect_git_logs (git_logs e)) sb)
    as (sc & Ec & Rc & Wc & Lc & Dc & Qc & Fc).
  destruct (Da _ eq_refl) as (sta & Hsta).
  destruct (Db' _ Hsta) as (stb & Hstb).
  destruct (Dc _ Hstb) as (stc & Hstc).
  exists sc, stc.
  rewrite (mbind_Ok _ _ _ _ _ Ea), (mbind_Ok _ _ _ _ _ Eb), Ec.
  rewrite Hstc in *. rewrite Hstb in *. rewrite Hsta in *.
  cbn [Db.init_db db s0] in *.
  repeat split.
  - rewrite Rc, Rb, Ra. reflexivity.
  - eapply DbMoreFacts.writes_trans; [|exact Wc].
    eapply DbMoreFacts.writes_trans; [exact Wa | exact Wb].
  - congruence.
  - rewrite !Forall_app. repeat split.
    + eapply Forall_impl; [|exact Fa]. intros call H. apply Qc, Qb. exact H.
    + eapply Forall_impl; [|exact Fb]. intros call H. apply Qc. exact H.
    + exact Fc.
Qed.

(** X17.  Collecting a second time stores nothing: with the same
    history files and the same [git log] answers, [run_collection] run
    again on the database file it has left leaves that file as it is,
    whatever the clock shows. *)
Theorem run_collection_twice :
  forall e e' s,
    zsh_history e' = zsh_history e ->
    bash_history e' = bash_history e ->
    decode e' = decode e ->
    git_logs e' = git_logs e ->
    db (snd (run_collection e' (snd (run_collection e s))))
    = db (snd (run_collection e s)).
Proof.
  intros e e' s Hz Hb Hd Hg.
  destruct (run_collection_run e s) as (s1 & st1 & E & D & _ & _ & _ & F).
  rewrite E. cbn [snd]. rewrite run_collection_unfold, Hz, Hb, Hd, Hg, D.
  cbn [Db.init_db].
  set (s0 := State (Some st1) (repo_dir_exists s1) (trace s1)).
  assert (Q : forall (calls : list (string * string)) s',
             db s' = Some st1 ->
             Forall (fun call => queued (snd call) s1) calls ->
             Forall (fun call => queued (snd call) s') calls).
  { intros calls s' D' H. eapply Forall_impl; [|exact H].
    intros call. unfold queued. rewrite D, D'. auto. }
  rewrite !Forall_app in F. destruct F as (Fa & Fb & Fc).
  destruct (store_all_run e' (Collector.collect_shell_history (decode e) "zsh"
                                (zsh_history e) 200) s0)
    as (sa & Ea & _).
  pose proof (store_all_queued e' _ s0 st1 eq_refl (Q _ s0 eq_refl Fa)) as Da.
  rewrite Ea in Da. cbn [snd] in Da. rewrite (mbind_Ok _ _ _ _ _ Ea).
  destruct (store_all_run e' (Collector.collect_shell_history (decode e) "bash"
                                (bash_history e) 200) sa)
    as (sb & Eb & _).
  pose proof (store_all_queued e' _ sa st1 Da (Q _ sa Da Fb)) as Db'.
  rewrite Eb in Db'. cbn [snd] in Db'. rewrite (mbind_Ok _ _ _ _ _ Eb).
  apply store_all_queued; [exact Db' | apply Q; assumption].
Qed.

Lemma run_collection_twice_witness :
  db (snd (run_collection quiet_env
             (snd (run_collection quiet_env fresh_state))))
  = db (snd (run_collection quiet_env fresh_state)).
Proof.
  exact (run_collection_twice quiet_env quiet_env fresh_state
           eq_refl eq_refl eq_refl eq_refl).
Defined.

(** ** The database file after a sync *)

Lemma save_daily_markdown_run e v s :
  (exists path s', save_daily_markdown e v s = (Ok path, s')
                   /\ repo_dir_exists s' = true /\ db s' = db s
                   /\ lookup_fault e = None /\ git_on_path e = true)
  \/ (exists x s', save_daily_markdown e v s = (Raise x, s')
                   /\ db s' = db s).
Proof.
  pose proof (same_db_save_daily_markdown e v s) as [D _].
  unfold save_daily_markdown in *.
  destruct (setup_devlog_repo e s) as [[a|x] s'] eqn:E.
  - destruct (setup_devlog_repo_Ok e s a s' E) as [L G].
    destruct (setup_devlog_repo_outcome e s L G)
      as [(a' & s'' & E' & R & D') | (_ & rc & _ & E')];
      rewrite E in E'; [|discriminate].
    injection E' as <- <-.
    rewrite (mbind_Ok _ _ _ _ _ E) in *.
    destruct v;
      try (right; do 2 eexists; split; [reflexivity|]; exact D').
    left. do 2 eexists. split; [reflexivity|]. repeat split; assumption.
  - right. rewrite (mbind_Raise _ _ _ _ _ E) in *. do 2 eexists.
    split; [reflexivity | exact D].
Qed.

(** X18.  What a sync leaves in the database file.  [run_collection]
    leaves a store that came about from the old one by writing
    operations, with the learnings as they were.  If the sync returns
    normally, [mark_commands_processed] has returned: every command
    that was unprocessed after the collection is marked processed, and
    [get_unprocessed_commands] answers nothing.  If the sync raises,
    nothing was marked: the file is as the collection left it.  The
    learnings are never changed. *)
Theorem trigger_daily_sync_store :
  forall e s,
    exists st1 st2,
      db (snd (run_collection e s)) = Some st1
      /\ Db.writes (Db.init_db (db s)) st1
      /\ db (snd (trigger_daily_sync e s)) = Some st2
      /\ Db.learnings st2 = Db.learnings (Db.init_db (db s))
      /\ ((fst (trigger_daily_sync e s) = Ok tt
           /\ st2 = Db.update_processed
                      (map Db.c_id (Db.get_unprocessed_commands st1)) st1
           /\ Db.mark_commands_processed
                (variable_limit e)
                (map Db.c_id (Db.get_unprocessed_commands st1)) st1
              = Ok st2
           /\ Db.get_unprocessed_commands st2 = [])
          \/ (exists x, fst (trigger_daily_sync e s) = Raise x)
             /\ st2 = st1).
Proof.
  intros e s. unfold trigger_daily_sync.
  destruct (run_collection_run e s) as (s1 & st1 & E1 & D1 & _ & W1 & L1 & _).
  rewrite E1. cbn [snd]. rewrite (mbind_Ok _ _ _ _ _ E1).
  rewrite (mbind_Ok _ _ _ _ _ (get_unprocessed_commands_run s1)).
  rewrite D1. cbn [Db.init_db].
  set (raw_commands := Db.get_unprocessed_commands st1).
  set (s2 := State (Some st1) (repo_dir_exists s1)
                   (trace s1 ++ [EvGetUnprocessedCommands])).
  rewrite (mbind_Ok _ _ _ _ _ (get_learnings_since_run e s2)).
  set (learnings := Db.learnings_since _ 1 _).
  set (s3 := State (db s2) (repo_dir_exists s2)
                   (trace s2 ++ [EvGetLearningsSince 1])).
  assert (D3 : db s3 = Some st1) by reflexivity.
  pose proof (same_db_generate_daily_summary e
                (map Db.c_command raw_commands)
                (map Db.l_content learnings) s3) as [D4 _].
  destruct (generate_daily_summary e _ _ s3) as [[v|x] s4] eqn:E4;
    cbn [snd] in D4; rewrite D3 in D4.
  2:{ rewrite (mbind_Raise _ _ _ _ _ E4). exists st1, st1.
      repeat split; auto. right. split; [exists x; reflexivity | reflexivity]. }
  rewrite (mbind_Ok _ _ _ _ _ E4).
  destruct (save_daily_markdown_run e v s4)
    as [(path & s5 & E5 & R5 & D5 & L & G) | (x & s5 & E5 & D5)];
    rewrite D4 in D5.
  2:{ rewrite (mbind_Raise _ _ _ _ _ E5). exists st1, st1.
      repeat split; auto. right. split; [exists x; reflexivity | reflexivity]. }
  rewrite (mbind_Ok _ _ _ _ _ E5).
  set (ids := map Db.c_id raw_commands).
  pose proof (mark_commands_processed_cases e ids s5) as C.
  cbv zeta in C. rewrite D5 in C. cbn [Db.init_db] in C.
  destruct C as [(M & E6) | (x & M & E6)].
  2:{ rewrite (mbind_Raise _ _ _ _ _ E6). exists st1, st1.
      repeat split; auto. right. split; [exists x; reflexivity | reflexivity]. }
  rewrite (mbind_Ok _ _ _ _ _ E6).
  match type of E6 with _ = (_, ?st) => set (s6 := st) in * end.
  assert (D6 : db s6 = Some (Db.update_processed ids st1))
    by (unfold s6; cbn [db]; destruct ids; reflexivity).
  assert (R6 : repo_dir_exists s6 = true) by exact R5.
  pose proof (git_commit_and_push_cases e s6) as P.
  rewrite L, G in P.
  destruct P as [(setup & k & P & _) | (R & _)]; [|congruence].
  rewrite P. cbn [fst snd db].
  exists st1, (Db.update_processed ids st1).
  split; [reflexivity|]. split; [exact W1|].
  split; [exact D6|]. split.
  - rewrite <- L1. destruct ids; reflexivity.
  - left. split; [reflexivity|]. split; [reflexivity|]. split; [exact M|].
    unfold Db.get_unprocessed_commands at 1.
    unfold ids, raw_commands. rewrite DbMoreFacts.mark_all_leaves_none.
    reflexivity.
Qed.

(** A sync on a machine whose SQLite takes no variable at all: the
    statement of [mark_commands_processed] is refused, the sync raises
    after the file is written and the command is still unprocessed. *)
Lemma trigger_daily_sync_refused_marking :
  fst (trigger_daily_sync (with_variable_limit 0 quiet_env) fresh_state)
  = Raise OperationalError
  /\ milestones
       (trace (snd (trigger_daily_sync (with_variable_limit 0 quiet_env)
                      fresh_state)))
     = [Written]
  /\ option_map Db.unprocessed_texts
       (db (snd (trigger_daily_sync (with_variable_limit 0 quiet_env)
                   fresh_state)))
     = Some ["make test"].
Proof. repeat split; vm_compute; reflexivity. Qed.

(** ** What a sync stores and where it goes *)

Lemma emits_get_unprocessed_commands P :
  P EvGetUnprocessedCommands = true -> emits P get_unprocessed_commands.
Proof.
  intros H s. exists [EvGetUnprocessedCommands]. simpl. rewrite H.
  split; reflexivity.
Qed.

Lemma emits_get_learnings_since P e days :
  P (EvGetLearningsSince days) = true -> emits P (get_learnings_since e days).
Proof.
  intros H. unfold get_learnings_since.
  apply emits_bind; [apply emits_now|intros t].
  apply emits_bind; [apply emits_the_store|intros st].
  apply emits_bind; [apply emits_emit; exact H|intros _].
  destruct (Db.get_learnings_since t days st);
    [apply emits_ret|apply emits_raise].
Qed.

Lemma emits_mark_commands_processed P e ids :
  (forall l, P (EvMarkCommandsProcessed l) = true) ->
  emits P (mark_commands_processed e ids).
Proof.
  intros H. unfold mark_commands_processed.
  destruct ids as [|i ids]; [apply emits_ret|].
  apply emits_bind; [apply emits_the_store|intros st].
  destruct (Db.mark_commands_processed _ _ st); [|apply emits_raise].
  apply emits_bind; [apply emits_emit, H|intros _]. apply emits_put_db.
Qed.

Lemma emits_save_daily_markdown P e v :
  emits P (setup_devlog_repo e) ->
  (forall path, P (EvMkdir path) = true) ->
  (forall path text, P (EvWriteText path text) = true) ->
  emits P (save_daily_markdown e v).
Proof.
  intros Hs Hm Hw. unfold save_daily_markdown.
  apply emits_bind; [exact Hs|intros repo].
  apply emits_bind; [apply emits_emit, Hm|intros _].
  destruct v; try apply emits_raise.
  apply emits_bind; [apply emits_emit, Hw|intros _]. apply emits_ret.
Qed.

(** The whole sync, from its parts. *)
Lemma emits_trigger_daily_sync P e :
  emits P (run_collection e) ->
  emits P (setup_devlog_repo e) ->
  emits P (git_commit_and_push e) ->
  (forall ev, is_gather ev = true ->
              match ev with EvStoreRawCommand _ _ => True | _ => P ev = true end) ->
  (forall path, P (EvMkdir path) = true) ->
  (forall path text, P (EvWriteText path text) = true) ->
  (forall l, P (EvMarkCommandsProcessed l) = true) ->
  emits P (trigger_daily_sync e).
Proof.
  intros Hc Hs Hp Hg Hm Hw Hk. unfold trigger_daily_sync.
  apply emits_bind; [exact Hc|intros _].
  apply emits_bind;
    [apply emits_get_unprocessed_commands;
     exact (Hg EvGetUnprocessedCommands eq_refl)|intros raw_commands].
  apply emits_bind;
    [apply emits_get_learnings_since;
     exact (Hg (EvGetLearningsSince 1) eq_refl)|intros learnings].
  apply emits_bind.
  { unfold generate_daily_summary.
    destruct (Ai.generate_daily_summary _ _ _ _ _ _) as [answer requests].
    apply emits_bind.
    - apply emits_emit_all. induction requests as [|r requests IH]; simpl;
        [reflexivity|].
      rewrite (Hg (EvHttp r) eq_refl). exact IH.
    - intros _. destruct answer; [apply emits_ret|apply emits_raise]. }
  intros summary_md.
  apply emits_bind; [apply emits_save_daily_markdown; assumption|intros _].
  apply emits_bind; [apply emits_mark_commands_processed, Hk|intros _].
  exact Hp.
Qed.

Lemma emits_store_all_clean e calls :
  Forall (fun call =>
            Collector.search Collector.SENSITIVE_PATTERN (snd call) = false)
         calls ->
  emits stores_clean (store_all e calls).
Proof.
  induction 1 as [|[source cmd] calls Hc _ IH]; simpl; [apply emits_ret|].
  apply emits_bind; [apply emits_now|intros t].
  apply emits_bind; [apply emits_the_store|intros st].
  apply emits_bind.
  { apply emits_emit. simpl in *. rewrite Hc. reflexivity. }
  intros _. apply emits_bind; [apply emits_put_db|intros _].
  exact IH.
Qed.

Lemma publish_stores_clean ev : is_publish ev = true -> stores_clean ev = true.
Proof. destruct ev; simpl; auto; discriminate. Qed.

(** X19.  A sync hands to [db.store_raw_command] only texts in which
    [SENSITIVE_PATTERN] finds nothing, whatever the history files and
    the [git log] answers hold. *)
Theorem trigger_daily_sync_clean_texts :
  forall e s,
    exists evs,
      trace (snd (trigger_daily_sync e s)) = trace s ++ evs
      /\ forallb stores_clean evs = true.
Proof.
  intros e. apply emits_trigger_daily_sync; try reflexivity.
  - unfold run_collection.
    apply emits_bind; [apply emits_the_store|intros st].
    apply emits_bind; [apply emits_put_db|intros _].
    apply emits_bind; [|intros _; apply emits_bind; [|intros _]];
      apply emits_store_all_clean.
    + eapply Forall_impl;
        [|apply (CollectorMoreFacts.collect_shell_history_clean
                   (decode e) "zsh" (zsh_history e) 200)].
      intros call (_ & _ & _ & H & _). exact H.
    + eapply Forall_impl;
        [|apply (CollectorMoreFacts.collect_shell_history_clean
                   (decode e) "bash" (bash_history e) 200)].
      intros call (_ & _ & _ & H & _). exact H.
    + eapply Forall_impl;
        [|apply (CollectorMoreFacts.collect_git_logs_clean (git_logs e))].
      intros call (name & stdout & commit & _ & _ & _ & _ & _ & H). exact H.
  - eapply emits_weaken; [|apply emits_setup_devlog_repo].
    intros ev H. apply publish_stores_clean, setup_is_publish, H.
  - eapply emits_weaken; [apply publish_stores_clean|].
    apply emits_git_commit_and_push.
  - intros ev H. destruct ev; try exact I; reflexivity.
Qed.

Lemma gather_is_local ev : is_gather ev = true -> is_local ev = true.
Proof. destruct ev; simpl; auto; discriminate. Qed.

Lemma local__ensure_git_user e : emits is_local (_ensure_git_user e).
Proof.
  unfold _ensure_git_user.
  apply emits_bind; [apply emits_run_git; reflexivity|intros p].
  destruct (negb _); [|apply emits_ret].
  repeat (apply emits_bind; [apply emits_run_git; reflexivity|intros _]).
  apply emits_ret.
Qed.

Lemma local_setup_devlog_repo e :
  truthy (_get_authenticated_remote_url e) = false ->
  emits is_local (setup_devlog_repo e).
Proof.
  intros H. unfold setup_devlog_repo, authenticated_remote_url.
  destruct (lookup_fault e); [apply emits_raise_bind|].
  apply emits_ret_bind. rewrite H.
  apply emits_bind; [apply emits_get_state|intros s0].
  apply emits_bind.
  { destruct (negb _); [|apply emits_ret].
    apply emits_bind; [apply emits_emit; reflexivity|intros _].
    apply emits_bind; [apply emits_set_repo_dir_exists|intros _].
    repeat (apply emits_bind; [apply emits_run_git; reflexivity|intros _]).
    apply emits_ret. }
  intros _.
  apply emits_bind; [apply local__ensure_git_user|intros _].
  apply emits_bind; intros; apply emits_ret.
Qed.

Lemma local_git_commit_and_push e :
  truthy (_get_authenticated_remote_url e) = false ->
  emits is_local (git_commit_and_push e).
Proof.
  intros H. unfold git_commit_and_push.
  apply emits_bind; [apply local_setup_devlog_repo; exact H|intros _].
  apply emits_try.
  apply emits_bind; [apply emits_run_git; reflexivity|intros _].
  apply emits_bind; [apply emits_run_git; reflexivity|intros p].
  destruct (negb _ && _); [apply emits_ret|].
  unfold authenticated_remote_url.
  destruct (lookup_fault e); [apply emits_raise_bind|].
  apply emits_ret_bind. rewrite H. apply emits_ret.
Qed.

Lemma no_remote_url e :
  GITHUB_URL e = "" -> truthy (_get_authenticated_remote_url e) = false.
Proof.
  intros H. unfold _get_authenticated_remote_url. rewrite H. reflexivity.
Qed.

(** X20.  With no remote configured a sync stays on the machine: it
    runs no [git remote], no [git pull] and no [git push]. *)
Theorem trigger_daily_sync_without_remote :
  forall e s,
    GITHUB_URL e = "" ->
    exists evs,
      trace (snd (trigger_daily_sync e s)) = trace s ++ evs
      /\ forallb is_local evs = true.
Proof.
  intros e s H. revert s. apply no_remote_url in H.
  apply emits_trigger_daily_sync; try reflexivity.
  - eapply emits_weaken; [apply gather_is_local|apply emits_run_collection].
  - apply local_setup_devlog_repo. exact H.
  - apply local_git_commit_and_push. exact H.
  - intros ev Hg. destruct ev; try exact I; try discriminate; reflexivity.
Qed.

Lemma trigger_daily_sync_without_remote_witness :
  exists evs,
    trace (snd (trigger_daily_sync offline_env fresh_state))
    = trace fresh_state ++ evs
    /\ forallb is_local evs = true.
Proof.
  exact (trigger_daily_sync_without_remote offline_env fresh_state eq_refl).
Defined.

(** ** The remote URL *)

Lemma contains_chars_here p pre post :
  contains_chars p (pre ++ p ++ post) = true.
Proof. apply PyFacts.contains_chars_spec. eauto. Qed.

Lemma truthy_append s t : truthy s = true -> truthy (s ++ t) = true.
Proof. destruct s; [discriminate|reflexivity]. Qed.

Lemma _get_authenticated_remote_url_cases e :
  (GITHUB_URL e = "" /\ _get_authenticated_remote_url e = "")
  \/ (truthy (GITHUB_URL e) = true
      /\ exists rest,
          GITHUB_URL e = ("https://" ++ rest)%string
          /\ _get_authenticated_remote_url e
             = ("https://" ++ GITHUB_TOKEN e ++ "@" ++ rest)%string)
  \/ (truthy (GITHUB_URL e) = true
      /\ truthy (GITHUB_TOKEN e) && startswith "https://" (GITHUB_URL e)
         && negb (contains "@" (GITHUB_URL e)) = false
      /\ _get_authenticated_remote_url e = GITHUB_URL e).
Proof.
  unfold _get_authenticated_remote_url.
  destruct (truthy (GITHUB_URL e)) eqn:U; cbn [negb].
  2:{ left. split; [|reflexivity].
      destruct (GITHUB_URL e); [reflexivity|discriminate]. }
  right.
  destruct (truthy (GITHUB_TOKEN e) && startswith "https://" (GITHUB_URL e)
            && negb (contains "@" (GITHUB_URL e))) eqn:C.
  - left. split; [reflexivity|].
    apply andb_true_iff in C as [C _]. apply andb_true_iff in C as [_ P].
    unfold startswith in P. apply PyFacts.prefix_chars_spec in P.
    destruct P as (post & P). exists (str post). rewrite P. split.
    + apply PyMoreFacts.chars_inj.
      rewrite PyMoreFacts.chars_app, JsonFacts.chars_str. exact P.
    + reflexivity.
  - right. auto.
Qed.

(** X27.  [_get_authenticated_remote_url] puts the token into the URL
    once: handed its own answer as the raw URL it answers it unchanged,
    whatever the token.  Its answer is empty exactly when the raw URL is
    empty, and when it differs from the raw URL it is [https://], the
    token, [@] and the raw URL without its [https://]. *)
Theorem _get_authenticated_remote_url_once :
  forall e,
    _get_authenticated_remote_url
      (with_raw_url (_get_authenticated_remote_url e) e)
    = _get_authenticated_remote_url e
    /\ truthy (_get_authenticated_remote_url e) = truthy (GITHUB_URL e)
    /\ (_get_authenticated_remote_url e = GITHUB_URL e
        \/ exists rest,
            GITHUB_URL e = ("https://" ++ rest)%string
            /\ _get_authenticated_remote_url e
               = ("https://" ++ GITHUB_TOKEN e ++ "@" ++ rest)%string).
Proof.
  intros e.
  destruct (_get_authenticated_remote_url_cases e)
    as [(U & ->) | [(U & rest & R & ->) | (U & C & ->)]].
  - rewrite U. repeat split. left. reflexivity.
  - rewrite U. split; [|split; [reflexivity|right; exists rest; auto]].
    unfold _get_authenticated_remote_url.
    cbn [with_raw_url GITHUB_URL GITHUB_TOKEN].
    replace (truthy ("https://" ++ GITHUB_TOKEN e ++ "@" ++ rest))
      with true by reflexivity.
    cbn [negb].
    replace (contains "@" ("https://" ++ GITHUB_TOKEN e ++ "@" ++ rest))
      with true; [rewrite !andb_false_r; reflexivity|].
    symmetry. unfold contains.
    rewrite !PyMoreFacts.chars_app, app_assoc.
    apply contains_chars_here.
  - split; [|split; [reflexivity|left; reflexivity]].
    unfold _get_authenticated_remote_url.
    cbn [with_raw_url GITHUB_URL GITHUB_TOKEN]. rewrite U, C. reflexivity.
Qed.

End SyncMoreFacts.





(* ================================================================== *)
(** * The order of effects in the daily sync *)
(* ================================================================== *)

Module SyncOrderFacts.
Import Py GithubSync SyncFacts SyncMoreFacts.

(** C9, as the code has it.  A run of the daily sync appends to the
    trace, in this order: the events of collecting, reading the store
    and asking for the summary; the events of preparing the working
    tree; the write of the markdown file; the marking of the commands
    that were read as unprocessed after the collection; the events of
    preparing the working tree once more; [git add]; [git commit],
    unless [git add] failed; [git pull] and [git push], which need a
    remote.  The marking follows the write at once and precedes
    [git add], the commit and the push.  A run that returns has gone
    through all of this up to [git add] at least: its last step is a
    git command, never the marking.  A run that raises has stopped
    before the write, or right after the write because SQLite refused
    the marking; nothing is marked then. *)
Theorem trigger_daily_sync_order :
  forall e s,
    let st1 := Db.init_db (db (snd (run_collection e s))) in
    let ids := map Db.c_id (Db.get_unprocessed_commands st1) in
    exists gather setup tail,
      trace (snd (trigger_daily_sync e s)) = trace s ++ gather ++ setup ++ tail
      /\ forallb is_gather gather = true
      /\ forallb is_setup setup = true
      /\ ((tail = [] /\ exists x, fst (trigger_daily_sync e s) = Raise x)
          \/ (exists path text x,
                 tail = [EvWriteText path text]
                 /\ fst (trigger_daily_sync e s) = Raise x
                 /\ Db.mark_commands_processed (variable_limit e) ids st1
                    = Raise x)
          \/ (exists path text setup2 k,
                 tail = EvWriteText path text :: marking ids ++ setup2
                          ++ firstn k (publish_steps e)
                 /\ fst (trigger_daily_sync e s) = Ok tt
                 /\ Db.mark_commands_processed (variable_limit e) ids st1
                    = Ok (Db.update_processed ids st1)
                 /\ forallb is_setup setup2 = true
                 /\ (k = 1 \/ k = 2 \/ k = 4)%nat
                 /\ (k = 1%nat
                     <-> returncode
                           (git e ["add"; "."]
                                (List.length
                                   (trace s ++ gather ++ setup
                                      ++ EvWriteText path text
                                      :: marking ids ++ setup2)))
                         <> 0%Z)
                 /\ (k = 4%nat ->
                     truthy (_get_authenticated_remote_url e) = true))).
Proof.
  intros e s st1 ids. unfold trigger_daily_sync.
  (* collecting *)
  destruct (emits_run_collection e s) as (ev1 & E1 & F1).
  destruct (run_collection_run e s) as (s1 & st1' & R1 & D1 & _).
  subst st1 ids. rewrite R1 in *. cbn [snd] in *.
  rewrite D1. cbn [Db.init_db].
  rewrite (mbind_Ok _ _ _ _ _ R1).
  (* reading the store *)
  rewrite (mbind_Ok _ _ _ _ _ (get_unprocessed_commands_run s1)).
  rewrite D1. cbn [Db.init_db].
  set (raw_commands := Db.get_unprocessed_commands st1').
  set (ids := map Db.c_id raw_commands).
  set (s2 := State (Some st1') (repo_dir_exists s1)
                   (trace s1 ++ [EvGetUnprocessedCommands])).
  rewrite (mbind_Ok _ _ _ _ _ (get_learnings_since_run e s2)).
  set (learnings := Db.learnings_since _ 1 _).
  set (s3 := State (db s2) (repo_dir_exists s2)
                   (trace s2 ++ [EvGetLearningsSince 1])).
  assert (D3 : db s3 = Some st1') by reflexivity.
  (* the summary *)
  set (cs := map Db.c_command raw_commands).
  set (ls := map Db.l_content learnings).
  destruct (emits_generate_daily_summary e cs ls s3) as (ev4 & E4 & F4).
  pose proof (same_db_generate_daily_summary e cs ls s3) as [D4 _].
  set (gather := ev1 ++ [EvGetUnprocessedCommands]
                     ++ [EvGetLearningsSince 1] ++ ev4).
  assert (G : forallb is_gather gather = true).
  { unfold gather. rewrite !forallb_app, F1, F4. reflexivity. }
  assert (T3 : trace s3 ++ ev4 = trace s ++ gather).
  { unfold s3, s2, gather. cbn [trace]. rewrite E1, <- !app_assoc.
    reflexivity. }
  destruct (generate_daily_summary e cs ls s3) as [[v|x] s4] eqn:R4;
    cbn [snd] in E4, D4; rewrite T3 in E4; rewrite D3 in D4; clear T3.
  2:{ rewrite (mbind_Raise _ _ _ _ _ R4).
      exists gather, [], []. cbn [snd fst]. rewrite E4, !app_nil_r.
      split; [reflexivity|]. split; [exact G|]. split; [reflexivity|].
      left. split; [reflexivity | exists x; reflexivity]. }
  rewrite (mbind_Ok _ _ _ _ _ R4).
  (* the file *)
  destruct (save_daily_markdown_trace e v s4)
    as (setup & Fs & [(path & text & R5 & E5 & _) | (x & R5 & E5)]);
    destruct (save_daily_markdown_run e v s4)
      as [(p & s5 & R5' & Rd & D5 & L & Gp) | (x' & s5 & R5' & D5)];
    rewrite R5' in R5, E5; cbn [fst snd] in R5, E5; try discriminate;
    rewrite D4 in D5; rewrite E4 in E5.
  2:{ rewrite (mbind_Raise _ _ _ _ _ R5').
      exists gather, setup, []. cbn [snd fst].
      rewrite E5, app_nil_r, <- !app_assoc.
      split; [reflexivity|]. split; [exact G|]. split; [exact Fs|].
      left. split; [reflexivity | exists x'; reflexivity]. }
  rewrite (mbind_Ok _ _ _ _ _ R5').
  (* marking *)
  pose proof (mark_commands_processed_cases e ids s5) as C.
  cbv zeta in C. rewrite D5 in C. cbn [Db.init_db] in C.
  destruct C as [(M & R6) | (x & M & R6)].
  2:{ rewrite (mbind_Raise _ _ _ _ _ R6).
      exists gather, setup, [EvWriteText path text]. cbn [snd fst].
      rewrite E5, <- !app_assoc.
      split; [reflexivity|]. split; [exact G|]. split; [exact Fs|].
      right. left. exists path, text, x. auto. }
  rewrite (mbind_Ok _ _ _ _ _ R6).
  match type of R6 with _ = (_, ?st) => set (s6 := st) in * end.
  assert (Rd6 : repo_dir_exists s6 = true) by exact Rd.
  assert (T6 : trace s6
               = trace s ++ gather ++ setup
                   ++ EvWriteText path text :: marking ids).
  { unfold s6. cbn [trace]. rewrite E5, <- !app_assoc. reflexivity. }
  (* publishing *)
  pose proof (git_commit_and_push_cases e s6) as P.
  rewrite L, Gp in P.
  destruct P as [(setup2 & k & P & F2 & K & K1 & K4) | (R & _)];
    [|congruence].
  rewrite P. cbn [fst snd trace].
  exists gather, setup,
         (EvWriteText path text :: marking ids ++ setup2
            ++ firstn k (publish_steps e)).
  split; [rewrite T6, <- !app_assoc; reflexivity|].
  split; [exact G|]. split; [exact Fs|].
  right. right. exists path, text, setup2, k.
  split; [reflexivity|]. split; [reflexivity|]. split; [exact M|].
  split; [exact F2|]. split; [exact K|]. split; [|exact K4].
  rewrite T6, <- !app_assoc in K1. exact K1.
Qed.

(** C9 as the specification words it fails on every run that has
    something to mark: the commands are marked before the commit and
    the push, which are the last steps. *)
Lemma trigger_daily_sync_marks_before_commit :
  fst (trigger_daily_sync quiet_env fresh_state) = Ok tt
  /\ milestones (trace (snd (trigger_daily_sync quiet_env fresh_state)))
     = [Written; Marked [1%Z]; Committed; Pushed].
Proof. split; vm_compute; reflexivity. Qed.

(** When [git add] fails the run returns all the same: the commands are
    marked, nothing is committed, and [git add] is the last step. *)
Lemma trigger_daily_sync_add_fails :
  fst (trigger_daily_sync (with_git true git_add_fails quiet_env)
                          fresh_state) = Ok tt
  /\ milestones
       (trace (snd (trigger_daily_sync
                      (with_git true git_add_fails quiet_env) fresh_state)))
     = [Written; Marked [1%Z]]
  /\ last (trace (snd (trigger_daily_sync
                         (with_git true git_add_fails quiet_env)
                         fresh_state)))
          EvGetUnprocessedCommands
     = EvGit ["add"; "."].
Proof. repeat split; vm_compute; reflexivity. Qed.

End SyncOrderFacts.
(* ================================================================== *)
(** * Properties of the [.env] loader *)
(* ================================================================== *)

Module EnvFacts.
Import Py PyFacts PyMoreFacts JsonFacts Env.

(** ** Lines *)

Lemma universal_newlines_app a : forall after_cr b,
  universal_newlines after_cr (a ++ lf :: b)
  = universal_newlines after_cr (a ++ [lf]) ++ universal_newlines false b.
Proof.
  induction a as [|c a IH]; intros after_cr b.
  - simpl. destruct after_cr; reflexivity.
  - simpl. destruct (Ascii.eqb c cr); [rewrite IH; reflexivity|].
    destruct (Ascii.eqb c lf && after_cr); rewrite IH; reflexivity.
Qed.

Lemma universal_newlines_plain b :
  forallb nonspace b = true -> universal_newlines false b = b.
Proof.
  induction b as [|c b IH]; simpl; intros H; [reflexivity|].
  apply andb_true_iff in H as [Hc H].
  destruct (Ascii.eqb_spec c cr) as [->|_]; [discriminate|].
  rewrite andb_false_r, IH by exact H. reflexivity.
Qed.

Lemma universal_newlines_ends a : forall after_cr,
  (exists y, universal_newlines after_cr (a ++ [lf]) = y ++ [lf])
  \/ (after_cr = true /\ a = []).
Proof.
  induction a as [|c a IH]; intros after_cr.
  - destruct after_cr; [right; auto|left; exists []; reflexivity].
  - left. simpl. destruct (Ascii.eqb c cr).
    + destruct (IH true) as [(y & ->) | (_ & ->)].
      * exists (lf :: y). reflexivity.
      * exists []. reflexivity.
    + destruct (Ascii.eqb c lf && after_cr).
      * destruct (IH false) as [(y & ->) | (F & _)]; [|discriminate].
        exists y. reflexivity.
      * destruct (IH false) as [(y & ->) | (F & _)]; [|discriminate].
        exists (c :: y). reflexivity.
Qed.

Lemma lines_chars_nil l : lines_chars l = [] -> l = [].
Proof.
  destruct l as [|c l]; [reflexivity|]. simpl.
  destruct (Ascii.eqb c lf); [discriminate|].
  destruct (lines_chars l); discriminate.
Qed.

Lemma lines_chars_app y b :
  lines_chars (y ++ lf :: b) = lines_chars (y ++ [lf]) ++ lines_chars b.
Proof.
  induction y as [|c y IH]; [reflexivity|]. simpl.
  destruct (Ascii.eqb c lf); [rewrite IH; reflexivity|]. rewrite IH.
  destruct (lines_chars (y ++ [lf])) eqn:E; [|reflexivity].
  apply lines_chars_nil in E. destruct y; discriminate.
Qed.

Lemma lines_chars_one b :
  b <> [] -> forallb nonspace b = true -> lines_chars b = [b].
Proof.
  induction b as [|c b IH]; [congruence|]. intros _ H. simpl in *.
  apply andb_true_iff in H as [Hc H].
  destruct (Ascii.eqb_spec c lf) as [->|_]; [discriminate|].
  destruct b as [|d b]; [reflexivity|].
  rewrite IH by (congruence || exact H). reflexivity.
Qed.

(** A last line after a newline is read as a line of its own. *)
Lemma readlines_last text last :
  last <> "" -> forallb nonspace (chars last) = true ->
  exists before,
    readlines (text ++ newline ++ last) = before ++ [last].
Proof.
  intros Hne Hns. unfold readlines.
  rewrite !chars_app. change (chars newline) with [lf]. simpl app.
  rewrite universal_newlines_app, (universal_newlines_plain (chars last) Hns).
  assert (Hne' : chars last <> []).
  { intros E. apply Hne. rewrite <- (str_chars last), E. reflexivity. }
  destruct (universal_newlines_ends (chars text) false)
    as [(y & ->) | (F & _)]; [|discriminate].
  destruct (chars last) as [|c b] eqn:E; [congruence|].
  rewrite <- app_assoc. simpl app. rewrite lines_chars_app, map_app.
  rewrite (lines_chars_one (c :: b)); [|congruence|exact Hns].
  exists (map str (lines_chars (y ++ [lf]))). simpl.
  change (String c (str b)) with (str (c :: b)).
  rewrite <- E, str_chars. reflexivity.
Qed.

(** ** Stripping *)

Lemma strip_chars_nonspace l :
  forallb nonspace l = true -> strip_chars l = l.
Proof.
  intros H. destruct l as [|c l]; [reflexivity|].
  pose proof (strip_keeps_word [] (c :: l) []) as E.
  change (rstrip_chars []) with (@nil ascii) in E.
  rewrite app_nil_r in E. apply E; [discriminate|exact H].
Qed.

Lemma strip_nonspace s :
  forallb nonspace (chars s) = true -> strip s = s.
Proof.
  intros H. unfold strip. rewrite strip_chars_nonspace by exact H.
  apply str_chars.
Qed.

Lemma lstrip_of_other ch l :
  forallb (fun c => negb (Ascii.eqb c ch)) l = true -> lstrip_of ch l = l.
Proof.
  destruct l as [|c l]; [reflexivity|]. simpl. intros H.
  apply andb_true_iff in H as [Hc _]. apply negb_true_iff in Hc.
  rewrite Hc. reflexivity.
Qed.

Lemma strip_of_other ch s :
  forallb (fun c => negb (Ascii.eqb c ch)) (chars s) = true ->
  strip_of ch s = s.
Proof.
  intros H. unfold strip_of. rewrite (lstrip_of_other ch (chars s) H).
  rewrite lstrip_of_other by (rewrite forallb_rev; exact H).
  rewrite rev_involutive. apply str_chars.
Qed.

Lemma partition_chars_first sep before after :
  forallb (fun c => negb (Ascii.eqb c sep)) before = true ->
  partition_chars sep (before ++ sep :: after) = (before, after).
Proof.
  induction before as [|c before IH]; simpl; intros H.
  - rewrite Ascii.eqb_refl. reflexivity.
  - apply andb_true_iff in H as [Hc H]. apply negb_true_iff in Hc.
    rewrite Hc, IH by exact H. reflexivity.
Qed.

Lemma forallb_impl {A} (p q : A -> bool) l :
  (forall x, p x = true -> q x = true) ->
  forallb p l = true -> forallb q l = true.
Proof.
  intros H. rewrite !forallb_forall. auto.
Qed.

Lemma bare_nonspace c : bare c = true -> nonspace c = true.
Proof.
  unfold bare. intros H. repeat (apply andb_true_iff in H as [H _]). exact H.
Qed.

Lemma bare_not_equals c : bare c = true -> negb (Ascii.eqb c equals_sign) = true.
Proof.
  unfold bare. intros H. apply andb_true_iff in H as [H _].
  apply andb_true_iff in H as [H _]. apply andb_true_iff in H as [_ H].
  exact H.
Qed.

Lemma bare_not_dquote c : bare c = true -> negb (Ascii.eqb c dquote) = true.
Proof.
  unfold bare. intros H. apply andb_true_iff in H as [H _].
  apply andb_true_iff in H as [_ H]. exact H.
Qed.

Lemma bare_not_apostrophe c :
  bare c = true -> negb (Ascii.eqb c apostrophe) = true.
Proof. unfold bare. intros H. apply andb_true_iff in H as [_ H]. exact H. Qed.

(** ** The dictionary *)

Lemma dict_lookup_set key value d :
  dict_lookup key (dict_set key value d) = Some value.
Proof.
  induction d as [|[k v] d IH]; simpl.
  - rewrite String.eqb_refl. reflexivity.
  - destruct (k =? key)%string eqn:E; simpl; rewrite E; [reflexivity|exact IH].
Qed.

Lemma dict_set_keys key value d :
  map fst (dict_set key value d)
  = if existsb (fun k => (k =? key)%string) (map fst d)
    then map fst d
    else map fst d ++ [key].
Proof.
  induction d as [|[k v] d IH]; simpl; [reflexivity|].
  destruct (k =? key)%string eqn:E; simpl; [reflexivity|].
  rewrite IH. destruct (existsb _ _); reflexivity.
Qed.

Lemma dict_set_In key value d kv :
  In kv (dict_set key value d) -> In kv d \/ kv = (key, value).
Proof.
  induction d as [|[k v] d IH]; simpl.
  - intros [<-|[]]. right. reflexivity.
  - destruct (k =? key)%string eqn:E; simpl.
    + apply String.eqb_eq in E. subst k. intros [<-|H]; auto.
    + intros [<-|H]; auto. destruct (IH H); auto.
Qed.

Lemma dict_set_NoDup key value d :
  NoDup (map fst d) -> NoDup (map fst (dict_set key value d)).
Proof.
  intros H. rewrite dict_set_keys.
  destruct (existsb _ _) eqn:E; [exact H|].
  apply NoDup_app; [exact H | repeat constructor; intros [] |].
  intros k Hk [Hkey|[]]. subst k.
  assert (T : existsb (fun k' => (k' =? key)%string) (map fst d) = true).
  { apply existsb_exists. exists key. split; [exact Hk|apply String.eqb_refl]. }
  congruence.
Qed.

(** ** The last assignment *)

Lemma parse_line_assignment result key value :
  key <> "" ->
  forallb bare (chars key) = true ->
  not_first hash key = true ->
  forallb bare (chars value) = true ->
  parse_line result (key ++ "=" ++ value) = dict_set key value result.
Proof.
  intros Hne Hk Hh Hv. unfold parse_line.
  assert (Hl : forallb nonspace (chars (key ++ "=" ++ value)) = true).
  { rewrite !chars_app, !forallb_app.
    rewrite (forallb_impl _ _ _ bare_nonspace Hk).
    rewrite (forallb_impl _ _ _ bare_nonspace Hv). reflexivity. }
  rewrite (strip_nonspace _ Hl).
  destruct key as [|c key]; [congruence|].
  change (truthy (String c key ++ "=" ++ value)) with true.
  simpl in Hh. unfold startswith.
  change (prefix_chars (chars "#") (chars (String c key ++ "=" ++ value)))
    with (Ascii.eqb hash c && true).
  rewrite Ascii.eqb_sym. apply negb_true_iff in Hh. rewrite Hh.
  cbn [negb orb andb].
  rewrite !chars_app, existsb_app.
  change (chars "=") with [equals_sign]. cbn [existsb app].
  rewrite Ascii.eqb_refl, orb_true_r. cbn [negb].
  unfold partition. rewrite !chars_app.
  change (chars "=") with [equals_sign]. cbn [app].
  rewrite partition_chars_first
    by (exact (forallb_impl _ _ _ bare_not_equals Hk)).
  rewrite !str_chars.
  rewrite (strip_nonspace _ (forallb_impl _ _ _ bare_nonspace Hk)).
  rewrite (strip_nonspace _ (forallb_impl _ _ _ bare_nonspace Hv)).
  rewrite (strip_of_other _ _ (forallb_impl _ _ _ bare_not_dquote Hv)).
  rewrite (strip_of_other _ _ (forallb_impl _ _ _ bare_not_apostrophe Hv)).
  reflexivity.
Qed.

Lemma _parse_env_file_last text key value :
  key <> "" ->
  forallb bare (chars key) = true ->
  not_first hash key = true ->
  forallb bare (chars value) = true ->
  dict_lookup key (_parse_env_file (text ++ newline ++ key ++ "=" ++ value))
  = Some value.
Proof.
  intros Hne Hk Hh Hv. unfold _parse_env_file.
  destruct (readlines_last text (key ++ "=" ++ value)) as (before & ->).
  - destruct key; [congruence|discriminate].
  - rewrite !chars_app, !forallb_app.
    rewrite (forallb_impl _ _ _ bare_nonspace Hk).
    rewrite (forallb_impl _ _ _ bare_nonspace Hv). reflexivity.
  - rewrite fold_left_app. cbn [fold_left].
    rewrite parse_line_assignment by assumption.
    apply dict_lookup_set.
Qed.

(** X21.  The last assignment wins, and [.env.local] hides [.env]: when
    the environment has no value, or an empty one, for a name, and
    [.env.local] ends with the line [name=value], then the first [get]
    of a process answers that value, whatever stands before that line,
    whatever [.env] holds and whatever the default is.  The name and
    the value are bare: no blank, no quote, no [=], and the name does
    not begin with [#]. *)
Theorem get_reads_last_assignment :
  forall w text key value default,
    key <> "" ->
    forallb bare (chars key) = true ->
    not_first hash key = true ->
    forallb bare (chars value) = true ->
    dot_env_local w
    = Some (Ok (text ++ newline ++ key ++ "=" ++ value)%string) ->
    environ w key = None \/ environ w key = Some "" ->
    fst (get w None key default) = Ok value.
Proof.
  intros w text key value default Hne Hk Hh Hv Hf He.
  unfold get.
  replace (match environ w key with Some v => v | None => "" end) with ""
    by (destruct He as [-> | ->]; reflexivity).
  cbn [truthy String.eqb negb load]. unfold _find_env_file. rewrite Hf.
  cbn [fst]. unfold dict_get.
  rewrite _parse_env_file_last by assumption. reflexivity.
Qed.

Lemma get_reads_last_assignment_witness :
  fst (get example_world None "GITHUB_TOKEN" "") = Ok "ghp_new".
Proof.
  apply (get_reads_last_assignment example_world
           ("# keys" ++ newline ++ "GITHUB_TOKEN=old")
           "GITHUB_TOKEN" "ghp_new" "");
    [discriminate | reflexivity | reflexivity | reflexivity | reflexivity
    | left; reflexivity].
Defined.

(** ** What a parsed file holds *)

Lemma lstrip_of_not_first ch l : not_first ch (str (lstrip_of ch l)) = true.
Proof.
  induction l as [|c l IH]; simpl; [reflexivity|].
  destruct (Ascii.eqb c ch) eqn:E; [exact IH|]. simpl. rewrite E. reflexivity.
Qed.

Lemma lstrip_of_suffix ch l : exists pre, l = pre ++ lstrip_of ch l.
Proof.
  induction l as [|c l (pre & IH)]; simpl; [exists []; reflexivity|].
  destruct (Ascii.eqb c ch).
  - exists (c :: pre). simpl. rewrite <- IH. reflexivity.
  - exists []. reflexivity.
Qed.

Lemma not_last_snoc ch l c :
  not_last ch (str (l ++ [c])) = negb (Ascii.eqb c ch).
Proof.
  induction l as [|a l IH]; [reflexivity|].
  change (str ((a :: l) ++ [c])) with (String a (str (l ++ [c]))).
  cbn [not_last]. destruct (str (l ++ [c])) eqn:E; [|exact IH].
  destruct l; discriminate.
Qed.

Lemma not_last_rev ch n : not_last ch (str (rev n)) = not_first ch (str n).
Proof.
  destruct n as [|c n]; [reflexivity|]. simpl rev. apply not_last_snoc.
Qed.

Lemma not_first_app ch a b :
  a <> [] -> not_first ch (str (a ++ b)) = not_first ch (str a).
Proof. destruct a; [congruence|reflexivity]. Qed.

Lemma strip_of_ends ch s :
  not_first ch (strip_of ch s) = true /\ not_last ch (strip_of ch s) = true.
Proof.
  unfold strip_of. set (m := lstrip_of ch (chars s)). split.
  - destruct (lstrip_of_suffix ch (rev m)) as (pre & E).
    destruct (lstrip_of ch (rev m)) as [|c n] eqn:En; [reflexivity|].
    assert (Em : m = rev (c :: n) ++ rev pre).
    { rewrite <- rev_app_distr, <- E, rev_involutive. reflexivity. }
    pose proof (lstrip_of_not_first ch (chars s)) as H. fold m in H.
    rewrite Em, not_first_app in H; [exact H|].
    simpl. destruct (rev n); discriminate.
  - rewrite not_last_rev. apply lstrip_of_not_first.
Qed.

Lemma partition_chars_before sep l :
  forallb (fun c => negb (Ascii.eqb c sep)) (fst (partition_chars sep l)) = true.
Proof.
  induction l as [|c l IH]; simpl; [reflexivity|].
  destruct (Ascii.eqb c sep) eqn:E; [reflexivity|].
  destruct (partition_chars sep l) as [before after]. simpl in *.
  rewrite E, IH. reflexivity.
Qed.

Lemma forallb_lstrip (p : ascii -> bool) l :
  forallb p l = true -> forallb p (lstrip_chars l) = true.
Proof.
  induction l as [|c l IH]; simpl; [auto|]. intros H.
  apply andb_true_iff in H as [Hc H].
  destruct (isspace c); [auto|]. simpl. rewrite Hc, H. reflexivity.
Qed.

Lemma forallb_strip (p : ascii -> bool) l :
  forallb p l = true -> forallb p (strip_chars l) = true.
Proof.
  intros H. unfold strip_chars, rstrip_chars.
  rewrite forallb_rev. apply forallb_lstrip. rewrite forallb_rev.
  apply forallb_lstrip. exact H.
Qed.

(** A stripped text that is not empty begins with a character that is
    not blank. *)
Lemma stripped_head c l :
  lstrip_chars (c :: l) = c :: l -> isspace c = false.
Proof.
  simpl. destruct (isspace c); [|reflexivity]. intros H.
  pose proof (lstrip_length l) as L. rewrite H in L. simpl in L. lia.
Qed.

Lemma strip_head c l :
  isspace c = false -> strip_chars (c :: l) = c :: rstrip_chars l.
Proof.
  intros H. unfold strip_chars. simpl. rewrite H.
  exact (rstrip_app_nonspace [] c l H).
Qed.

Lemma parse_line_key line :
  startswith "#" (strip line) = false ->
  not_first hash
    (strip (fst (partition equals_sign (strip line)))) = true.
Proof.
  intros Hh. unfold partition.
  pose proof (strip_chars_lstrip (chars line)) as Hs.
  unfold strip in Hh |- * at 2. unfold startswith in Hh.
  rewrite chars_str in *.
  destruct (strip_chars (chars line)) as [|c l]; [reflexivity|].
  apply stripped_head in Hs.
  change (prefix_chars (chars "#") (c :: l)) with (Ascii.eqb hash c && true)
    in Hh.
  rewrite andb_true_r, Ascii.eqb_sym in Hh.
  cbn [partition_chars].
  destruct (Ascii.eqb c equals_sign); [reflexivity|].
  destruct (partition_chars equals_sign l) as [before after]. cbn [fst].
  unfold strip. rewrite chars_str, strip_head by exact Hs.
  change (not_first hash (str (c :: rstrip_chars before)))
    with (negb (Ascii.eqb c hash)).
  rewrite Hh. reflexivity.
Qed.

Lemma parse_line_entries result line :
  NoDup (map fst result) /\ Forall well_formed_entry result ->
  NoDup (map fst (parse_line result line))
  /\ Forall well_formed_entry (parse_line result line).
Proof.
  intros [Hn Hf]. unfold parse_line.
  destruct (negb (truthy (strip line))) eqn:Ht; [auto|].
  destruct (startswith "#" (strip line)) eqn:Hh; [auto|]. cbn [orb].
  destruct (negb (existsb _ _)); [auto|].
  pose proof (parse_line_key line Hh) as Hkey.
  pose proof (partition_chars_before equals_sign (chars (strip line))) as Hb.
  unfold partition in *.
  destruct (partition_chars equals_sign (chars (strip line)))
    as [before after]. cbn [fst] in *.
  split; [apply dict_set_NoDup; exact Hn|].
  apply Forall_forall. intros kv Hin. apply dict_set_In in Hin.
  destruct Hin as [Hin| ->]; [exact (proj1 (Forall_forall _ _) Hf kv Hin)|].
  unfold well_formed_entry. cbn [fst snd].
  split; [apply strip_idem|]. split.
  { unfold strip. rewrite !chars_str. apply forallb_strip. exact Hb. }
  split; [exact Hkey|]. apply strip_of_ends.
Qed.

(** X22.  Whatever the text of the file, [_parse_env_file] answers a
    dictionary in which no name occurs twice, every name is without
    blanks around it, holds no [=] and does not begin with [#], and no
    value begins or ends with an apostrophe. *)
Theorem _parse_env_file_entries :
  forall text,
    NoDup (map fst (_parse_env_file text))
    /\ Forall well_formed_entry (_parse_env_file text).
Proof.
  intros text. unfold _parse_env_file.
  assert (H : forall lines result,
             NoDup (map fst result) /\ Forall well_formed_entry result ->
             NoDup (map fst (fold_left parse_line lines result))
             /\ Forall well_formed_entry (fold_left parse_line lines result)).
  { induction lines as [|line lines IH]; intros result Hr; [exact Hr|].
    simpl. apply IH, parse_line_entries, Hr. }
  apply H. split; constructor.
Qed.

End EnvFacts.



(* ================================================================== *)
(** * Properties of the word wrap *)
(* ================================================================== *)

Module UtilsFacts.
Import Py PyFacts PyMoreFacts JsonFacts Utils.

(** ** [split] gives words, and gives them back *)

Lemma split_chars_words l : forall cur,
  forallb nonspace cur = true ->
  Forall (fun w => w <> [] /\ forallb nonspace w = true) (split_chars cur l).
Proof.
  induction l as [|c l IH]; intros cur Hc; simpl.
  - destruct cur as [|a cur]; constructor; [|constructor].
    split; [|rewrite forallb_rev; exact Hc].
    simpl. destruct (rev cur); discriminate.
  - destruct (isspace c) eqn:E.
    + destruct cur as [|a cur]; [apply IH; reflexivity|].
      constructor; [|apply IH; reflexivity].
      split; [|rewrite forallb_rev; exact Hc].
      simpl. destruct (rev cur); discriminate.
    + apply IH. simpl. unfold nonspace at 1. rewrite E. exact Hc.
Qed.

Lemma split_words content : Forall is_word (split content).
Proof.
  unfold split. apply Forall_map.
  eapply Forall_impl; [|apply (split_chars_words _ []); reflexivity].
  intros w [Hne Hns]. split.
  - intros E. apply Hne. rewrite <- (chars_str w), E. reflexivity.
  - rewrite chars_str. exact Hns.
Qed.

Lemma split_chars_app_blank_word a sp b : forall cur,
  isspace sp = true ->
  split_chars cur (a ++ sp :: b) = split_chars cur a ++ split_chars [] b.
Proof.
  induction a as [|c a IH]; intros cur Hs; simpl.
  - rewrite Hs. destruct cur; reflexivity.
  - destruct (isspace c).
    + destruct cur; simpl; rewrite IH by exact Hs; reflexivity.
    + apply IH. exact Hs.
Qed.

Lemma split_chars_word w : forall cur,
  forallb nonspace w = true -> (cur <> [] \/ w <> []) ->
  split_chars cur w = [rev cur ++ w].
Proof.
  induction w as [|c w IH]; intros cur Hw Hne; simpl.
  - destruct Hne as [Hne|Hne]; [|congruence].
    destruct cur; [congruence|]. rewrite app_nil_r. reflexivity.
  - simpl in Hw. apply andb_true_iff in Hw as [Hc Hw].
    unfold nonspace in Hc. apply negb_true_iff in Hc. rewrite Hc.
    rewrite IH; [|exact Hw|left; discriminate].
    simpl. rewrite <- app_assoc. reflexivity.
Qed.

Lemma split_word w : is_word w -> split w = [w].
Proof.
  intros [Hne Hns]. unfold split.
  rewrite split_chars_word; [simpl; rewrite str_chars; reflexivity|exact Hns|].
  right. intros E. apply Hne. rewrite <- (str_chars w), E. reflexivity.
Qed.

Lemma split_app_word line w :
  is_word w -> split (line ++ " " ++ w) = split line ++ [w].
Proof.
  intros Hw. unfold split. rewrite !chars_app.
  change (chars " ") with [" "%char]. simpl app.
  rewrite split_chars_app_blank_word by reflexivity.
  rewrite map_app. f_equal. apply (split_word w Hw).
Qed.

(** ** The loop *)

Lemma truthy_length s : truthy s = false -> s = "".
Proof. destruct s; [reflexivity|discriminate]. Qed.

(** What the loop keeps true. *)
Lemma wrap_loop words : forall all lines current_line,
  Forall is_word words ->
  (forall w, In w words -> In w all) ->
  Forall (fits all) lines -> fits all current_line ->
  Forall (fits all)
         (fst (fold_left wrap_step words (lines, current_line))
            ++ [snd (fold_left wrap_step words (lines, current_line))])
  /\ flat_map split
       (fst (fold_left wrap_step words (lines, current_line))
          ++ [snd (fold_left wrap_step words (lines, current_line))])
     = flat_map split (lines ++ [current_line]) ++ words.
Proof.
  induction words as [|w words IH]; intros all lines current_line Hw Ha Hl Hc.
  - simpl. rewrite app_nil_r. split; [|reflexivity].
    apply Forall_app. split; [exact Hl|]. constructor; [exact Hc|constructor].
  - inversion Hw as [|x l Hw1 Hw'] ; subst.
    assert (Ha' : forall x, In x words -> In x all)
      by (intros x Hx; apply Ha; right; exact Hx).
    cbn [fold_left]. unfold wrap_step at 2 4 6 8.
    destruct (width - 4 <? String.length current_line + String.length w + 1)%nat
      eqn:E.
    + destruct (IH all (lines ++ [current_line]) w Hw' Ha') as [F S].
      { apply Forall_app. split; [exact Hl|].
        constructor; [exact Hc|constructor]. }
      { right. apply Ha. left. reflexivity. }
      split; [exact F|]. rewrite S.
      rewrite !flat_map_app. simpl. rewrite (split_word w Hw1).
      rewrite !app_nil_r, <- !app_assoc. reflexivity.
    + apply Nat.ltb_ge in E.
      destruct (truthy current_line) eqn:T.
      * destruct (IH all lines (current_line ++ " " ++ w)%string Hw' Ha' Hl)
          as [F S].
        { left. rewrite !length_append. unfold width in *.
          cbn [String.length]. lia. }
        split; [exact F|]. rewrite S.
        rewrite !flat_map_app. simpl. rewrite (split_app_word _ _ Hw1).
        rewrite !app_nil_r, <- !app_assoc. reflexivity.
      * apply truthy_length in T. subst current_line.
        destruct (IH all lines w Hw' Ha' Hl) as [F S].
        { right. apply Ha. left. reflexivity. }
        split; [exact F|]. rewrite S.
        rewrite !flat_map_app. simpl. rewrite (split_word w Hw1).
        rewrite !app_nil_r, <- !app_assoc. reflexivity.
Qed.

Lemma print_box_lines_wrap content :
  Forall (fits (split content)) (print_box_lines content)
  /\ flat_map split (print_box_lines content) = split content.
Proof.
  unfold print_box_lines.
  destruct (wrap_loop (split content) (split content) [] ""
              (split_words content) (fun w H => H) (Forall_nil _))
    as [F S].
  { left. simpl. lia. }
  destruct (fold_left wrap_step (split content) ([], "")) as [lines cur].
  cbn [fst snd] in F, S. simpl in S.
  destruct (truthy cur) eqn:T; [split; assumption|].
  apply truthy_length in T. subst cur.
  apply Forall_app in F as [F _]. split; [exact F|].
  rewrite flat_map_app in S. simpl in S. rewrite app_nil_r in S. exact S.
Qed.

Lemma length_ljust w s :
  String.length (ljust w s) = Nat.max w (String.length s).
Proof.
  unfold ljust. rewrite length_append, length_str, repeat_length. lia.
Qed.

(** X23.  The word wrap of [print_box] loses no word and changes no
    order: the words of the lines, one line after the other, are the
    words of the content.  A line has at most 56 characters unless it is
    one word of the content, and a row of the box has exactly 56
    characters unless it holds such a word. *)
Theorem print_box_lines_keep_words :
  forall content,
    flat_map split (print_box_lines content) = split content
    /\ Forall (fun line =>
                 (String.length line <= 56)%nat \/ In line (split content))
              (print_box_lines content)
    /\ Forall (fun row =>
                 String.length row = 56%nat
                 \/ exists word, In word (split content)
                                 /\ row = ljust 56 word
                                 /\ (56 < String.length word)%nat)
              (print_box_rows content).
Proof.
  intros content. destruct (print_box_lines_wrap content) as [F S].
  split; [exact S|]. split; [exact F|].
  unfold print_box_rows. apply Forall_map.
  eapply Forall_impl; [|exact F]. intros line [H|H].
  - left. rewrite length_ljust. change (width - 4)%nat with 56%nat in *. lia.
  - destruct (Nat.le_gt_cases (String.length line) 56) as [L|L].
    + left. rewrite length_ljust. change (width - 4)%nat with 56%nat. lia.
    + right. exists line. auto.
Qed.

(** ** The blank first row *)

Lemma wrap_loop_grows words : forall lines current_line,
  exists more,
    fst (fold_left wrap_step words (lines, current_line)) = lines ++ more.
Proof.
  induction words as [|w words IH]; intros lines current_line.
  - exists []. simpl. rewrite app_nil_r. reflexivity.
  - cbn [fold_left]. unfold wrap_step at 2.
    destruct (_ <? _)%nat.
    + destruct (IH (lines ++ [current_line]) w) as (more & ->).
      exists (current_line :: more). rewrite <- app_assoc. reflexivity.
    + apply IH.
Qed.

Lemma wrap_loop_nonempty words : forall lines current_line,
  Forall is_word words ->
  Forall (fun line => truthy line = true) lines ->
  truthy current_line = true ->
  Forall (fun line => truthy line = true)
         (fst (fold_left wrap_step words (lines, current_line)))
  /\ truthy (snd (fold_left wrap_step words (lines, current_line))) = true.
Proof.
  induction words as [|w words IH]; intros lines current_line Hw Hl Hc.
  - split; assumption.
  - inversion Hw as [|x l [Hne _] Hw']; subst.
    cbn [fold_left]. unfold wrap_step at 2 4.
    destruct (_ <? _)%nat.
    + apply IH; [exact Hw'| |destruct w; [congruence|reflexivity]].
      apply Forall_app. split; [exact Hl|]. constructor; [exact Hc|constructor].
    + rewrite Hc. apply IH; [exact Hw'|exact Hl|].
      destruct current_line; [discriminate|reflexivity].
Qed.

(** X24.  The first row of the box is blank exactly when the first word
    of the content has 56 characters or more: the loop then puts the
    empty line in hand aside before it takes the word.  Otherwise no
    line is empty; and a content without words gives no line. *)
Theorem print_box_lines_blank_first :
  forall content,
    match split content with
    | [] => print_box_lines content = []
    | word :: _ =>
        if (56 <=? String.length word)%nat
        then exists more, print_box_lines content = "" :: more
        else Forall (fun line => truthy line = true)
                    (print_box_lines content)
    end.
Proof.
  intros content. unfold print_box_lines.
  pose proof (split_words content) as Hw.
  destruct (split content) as [|w words]; [reflexivity|].
  inversion Hw as [|x l [Hne Hns] Hw']; subst.
  cbn [fold_left].
  assert (S : wrap_step ([], "") w
              = if (56 <? String.length w + 1)%nat then ([""], w) else ([], w)).
  { unfold wrap_step. change (width - 4)%nat with 56%nat.
    change (String.length "" + String.length w + 1)%nat
      with (String.length w + 1)%nat.
    destruct (56 <? String.length w + 1)%nat; reflexivity. }
  rewrite S. clear S.
  destruct (56 <=? String.length w)%nat eqn:E.
  - apply Nat.leb_le in E.
    replace (56 <? String.length w + 1)%nat with true
      by (symmetry; apply Nat.ltb_lt; lia).
    destruct (wrap_loop_grows words [""] w) as (more & G).
    destruct (fold_left wrap_step words ([""], w)) as [lines cur].
    cbn [fst] in G. subst lines.
    destruct (truthy cur); eexists; reflexivity.
  - apply Nat.leb_gt in E.
    replace (56 <? String.length w + 1)%nat with false
      by (symmetry; apply Nat.ltb_ge; lia).
    destruct (wrap_loop_nonempty words [] w Hw' (Forall_nil _)) as [F T].
    { destruct w; [congruence|reflexivity]. }
    destruct (fold_left wrap_step words ([], w)) as [lines cur].
    cbn [fst snd] in F, T. rewrite T.
    apply Forall_app. split; [exact F|]. constructor; [exact T|constructor].
Qed.

End UtilsFacts.


(* ================================================================== *)
(** * A quiz reviews one learning *)
(* ================================================================== *)

Module QuizFacts.
Import Py Db DbFacts CliQuiz.
Local Open Scope Z_scope.

(** A learning that was just reviewed is not due. *)
Lemma reviewed_not_due later l :
  older_than later (l_last_reviewed (reviewed later (l_id l) l)) 3 = false.
Proof.
  unfold reviewed. rewrite Z.eqb_refl. cbn [l_last_reviewed].
  unfold older_than, CURRENT_TIMESTAMP, ms_per_day.
  pose proof (Z.mod_pos_bound later 1000 ltac:(lia)) as B.
  pose proof (Z.div_mod later 1000 ltac:(lia)) as D.
  destruct (later - 1000 * (later / 1000) >? 3 * 86400000) eqn:E;
    [|reflexivity].
  apply Z.gtb_lt in E. lia.
Qed.

Lemma due_after_review later learning_id ls :
  filter (fun l => older_than later (l_last_reviewed l) 3)
         (map (reviewed later learning_id) ls)
  = filter (fun l => negb (l_id l =? learning_id))
      (filter (fun l => older_than later (l_last_reviewed l) 3) ls).
Proof.
  induction ls as [|l ls IH]; [reflexivity|]. cbn [map filter].
  destruct (l_id l =? learning_id) eqn:E.
  - apply Z.eqb_eq in E. subst learning_id.
    rewrite reviewed_not_due, IH.
    destruct (older_than later (l_last_reviewed l) 3); [|reflexivity].
    cbn [filter]. rewrite Z.eqb_refl. reflexivity.
  - unfold reviewed at 1 2. rewrite E, IH.
    destruct (older_than later (l_last_reviewed l) 3); [|reflexivity].
    cbn [filter]. rewrite E. reflexivity.
Qed.

(** Taking the one row with a given key out of a list without repeated
    keys makes it one shorter. *)
Lemma length_without {A} (f : A -> Z) l x :
  NoDup (map f l) -> In x l ->
  (List.length (filter (fun y => negb (f y =? f x)%Z) l) + 1
   = List.length l)%nat.
Proof.
  induction l as [|y l IH]; simpl; intros H Hin; [contradiction|].
  inversion H as [|z m Hy Hl]; subst.
  destruct Hin as [->|Hin].
  - rewrite Z.eqb_refl. simpl.
    assert (E : filter (fun y => negb (f y =? f x)) l = l).
    { apply AiMoreFacts.filter_all. apply Forall_forall. intros y Hy'.
      apply negb_true_iff, Z.eqb_neq. intros E. apply Hy.
      rewrite <- E. apply in_map. exact Hy'. }
    rewrite E. lia.
  - assert (N : (f y =? f x) = false).
    { apply Z.eqb_neq. intros E. apply Hy. rewrite E. apply in_map.
      exact Hin. }
    rewrite N. simpl. rewrite <- (IH Hl Hin). lia.
Qed.

Lemma due_later now later st l :
  now <= later -> In l (due now st) -> In l (due later st).
Proof. rewrite !In_due. intros H [Hin Hd]. split; [exact Hin|lia]. Qed.

(** What a quiz that goes through does to the store. *)
Lemma handle_quiz_marks tags_of auto now later input st card tags :
  get_due_flashcard now st = Some card ->
  (if truthy (l_tags card) then tags_of (l_tags card) else Ok []) = Ok tags ->
  auto = true \/ input = Ok tt ->
  fst (handle_quiz tags_of auto now later input (Some st))
  = (Cli.Returned, mark_flashcard_reviewed later (l_id card) st).
Proof.
  intros Hc Ht Hi. unfold handle_quiz. cbn [init_db]. rewrite Hc, Ht.
  destruct auto; [reflexivity|].
  destruct Hi as [Hi| ->]; [discriminate|reflexivity].
Qed.

(** X25.  A quiz that goes through reviews one learning, the one that
    has waited longest: in a store that the writing operations can
    reach, when a flashcard is due, its tags can be read and the user
    confirms (or the quiz runs with [--auto]), [handle_quiz] returns
    normally and leaves the learnings that were due, but for that one;
    so there is one due learning less.  The review may be recorded
    later than the flashcard was chosen. *)
Theorem handle_quiz_reviews_one :
  forall tags_of auto now later input st card tags,
    reachable st ->
    now <= later ->
    get_due_flashcard now st = Some card ->
    (if truthy (l_tags card) then tags_of (l_tags card) else Ok [])
    = Ok tags ->
    auto = true \/ input = Ok tt ->
    fst (fst (handle_quiz tags_of auto now later input (Some st)))
    = Cli.Returned
    /\ (forall l, In l (due now st) ->
                  l_last_reviewed card <= l_last_reviewed l)
    /\ In card (due later st)
    /\ due later (snd (fst (handle_quiz tags_of auto now later input
                              (Some st))))
       = filter (fun l => negb (l_id l =? l_id card)) (due later st)
    /\ (List.length
          (due later (snd (fst (handle_quiz tags_of auto now later input
                                  (Some st)))))
        + 1
        = List.length (due later st))%nat.
Proof.
  intros tags_of auto now later input st card tags Hr Hle Hc Ht Hi.
  rewrite (handle_quiz_marks _ _ _ _ _ _ _ _ Hc Ht Hi). cbn [fst snd].
  destruct (get_due_flashcard_some _ _ _ Hc) as [Hin Hmin].
  pose proof (due_later _ _ _ _ Hle Hin) as Hin'.
  assert (E : due later (mark_flashcard_reviewed later (l_id card) st)
              = filter (fun l => negb (l_id l =? l_id card)) (due later st)).
  { unfold due. cbn [mark_flashcard_reviewed learnings].
    apply due_after_review. }
  split; [reflexivity|]. split; [exact Hmin|]. split; [exact Hin'|].
  split; [exact E|]. rewrite E.
  apply (length_without l_id); [|exact Hin'].
  unfold due. apply NoDup_map_filter.
  destruct (DbMoreFacts.reachable_numbered st Hr) as (L1 & _).
  rewrite L1. apply DbMoreFacts.rowids_NoDup.
Qed.

Lemma handle_quiz_reviews_one_witness :
  fst (fst (handle_quiz loads_tags true 345600000 345600500 (Ok tt)
              (Some one_learning)))
  = Cli.Returned
  /\ due 345600500
         (snd (fst (handle_quiz loads_tags true 345600000 345600500 (Ok tt)
                      (Some one_learning))))
     = [].
Proof.
  assert (R : reachable one_learning)
    by (apply reach_add_learning, reach_init).
  destruct (handle_quiz_reviews_one loads_tags true 345600000 345600500
              (Ok tt) one_learning
              (Learning 1 "rebase before merge" 0 "[]" 0 0) []
              R ltac:(lia) eq_refl eq_refl (or_introl eq_refl))
    as (H1 & _ & _ & H4 & _).
  split; [exact H1 | exact H4].
Defined.

(** X26.  A quiz that does not go through changes nothing: when no
    flashcard is due, when the tags of the flashcard cannot be read, or
    when the prompt fails, the store is left as it was found.  With
    [--auto] the handler then returns normally and prints no message;
    without, it ends with [sys.exit(1)] unless no flashcard was due. *)
Theorem handle_quiz_failure_keeps_store :
  forall tags_of auto now later input db,
    snd (fst (handle_quiz tags_of auto now later input db)) = init_db db
    \/ exists card tags,
        get_due_flashcard now (init_db db) = Some card
        /\ (if truthy (l_tags card) then tags_of (l_tags card) else Ok [])
           = Ok tags
        /\ (auto = true \/ exists u, input = Ok u)
        /\ handle_quiz tags_of auto now later input db
           = (Cli.Returned,
              mark_flashcard_reviewed later (l_id card) (init_db db),
              Box "DevLog Flashcard" (l_content card) (join ", " tags)
              :: (if auto then []
                  else [Prompt press_enter; Line marked])).
Proof.
  intros tags_of auto now later input db. unfold handle_quiz.
  destruct (get_due_flashcard now (init_db db)) as [card|] eqn:Hc;
    [|left; reflexivity].
  destruct (if truthy (l_tags card) then tags_of (l_tags card) else Ok [])
    as [tags|e] eqn:Ht.
  2:{ left. unfold failed. destruct auto; reflexivity. }
  destruct auto.
  - right. exists card, tags. repeat split; auto.
  - destruct input as [u|e].
    + right. exists card, tags. repeat split; eauto.
    + left. reflexivity.
Qed.

End QuizFacts.

